(** * KVInstallationStore: a shallow embedding of [src/kv-installation-store.ts]
    and [src/serializable-slack-api-response.ts].

    JavaScript values are modelled the way the TypeScript declares them:
    an optional property [x?: string] is an [option string], a promise that
    may reject is an outcome ([Ok] or [Throw]) and the asynchronous
    methods of the store thread the state of the two KV namespaces.

    The platform the store runs on is modelled next to it:
    - [JSON.stringify] and [JSON.parse] on JSON values; strings are byte
      strings in UTF-8 and numbers are finite decimals, printed the way
      [Number::toString] prints them;
    - the KV namespace as an in-memory map with paged listing, a call log
      and a fault schedule;
    - [Headers] as the header list of the Fetch standard, with the
      conversion, normalization and validation of its constructor;
    - the token endpoint and the Slack API as functions that may answer
      differently from one call to the next. *)

From Stdlib Require Import ZArith Ascii String DecimalString DecimalNat.
From stdpp Require Import base option list sorting gmap strings pretty.

Set Warnings "-register-all".

Local Open Scope string_scope.
Local Open Scope list_scope.

(** ** JavaScript primitives used by the store *)

(** Truthiness of a [string | undefined]: [undefined] and the empty string
    are falsy. *)
Definition truthy (x : option string) : bool :=
  match x with
  | Some s => negb (String.eqb s "")
  | None => false
  end.

(** Truthiness of a [boolean | undefined]. *)
Definition truthyb (x : option bool) : bool :=
  match x with
  | Some b => b
  | None => false
  end.

(** [x ? x : d] on a [string | undefined]. *)
Definition cond_or (x : option string) (d : string) : string :=
  match x with
  | Some s => if truthy x then s else d
  | None => d
  end.

(** [x ?? d] on a [string | undefined]: only [undefined] is replaced. *)
Definition nullish_or (x : option string) (d : string) : string :=
  match x with
  | Some s => s
  | None => d
  end.

(** ** Exceptions and promises *)

(** The exceptions that can travel through the store. [ExternalError] is
    a rejection coming from a collaborator (the KV service, the token
    endpoint, the Slack API). *)
Inductive JSError :=
| SyntaxError (message : string)
| TypeError (message : string)
| ExternalError (message : string)
| ConfigError (message : string)
| AuthorizeError (message : string).

(** [Error.prototype.toString]: the name, a colon and the message, and
    the name alone when the message is empty. *)
Definition Error_toString (name message : string) : string :=
  if String.eqb message "" then name else name +:+ ": " +:+ message.

(** [`${e}`] for an [Error]. *)
Definition error_to_string (e : JSError) : string :=
  match e with
  | SyntaxError m => Error_toString "SyntaxError" m
  | TypeError m => Error_toString "TypeError" m
  | ExternalError m => Error_toString "Error" m
  | ConfigError m => Error_toString "ConfigError" m
  | AuthorizeError m => Error_toString "AuthorizeError" m
  end.

(** A settled promise: fulfilled with a value or rejected with an error. *)
Inductive Outcome (A : Type) :=
| Ok (a : A)
| Throw (e : JSError).
Arguments Ok {A} a.
Arguments Throw {A} e.

(** ** Numbers *)

(** A finite number as [Number::toString] shows it: the significant
    digits [mantissa], signed and without a trailing zero, scaled by
    [10 ^ exponent]. Zero is [0 * 10 ^ 0]; no sign of zero is kept,
    [JSON.stringify] prints [-0] as [0] and the store makes no other use
    of it. A literal of up to 15 significant digits within the range of
    a double denotes the same number here and in JavaScript; where
    JavaScript rounds a longer literal to the nearest double, or a
    literal out of range to infinity or to zero, the digits and the
    scale are kept. *)
Definition canonical (m e : Z) : bool :=
  if (m =? 0)%Z then (e =? 0)%Z else negb (m mod 10 =? 0)%Z.

Record Number := mkNumber {
  mantissa : Z;
  exponent : Z;
  number_canonical : canonical mantissa exponent = true;
}.

Definition Number_zero : Number := mkNumber 0 0 eq_refl.

Fixpoint strip_zeros (fuel : nat) (m e : Z) : Z * Z :=
  match fuel with
  | O => (m, e)
  | S f => if (m mod 10 =? 0)%Z then strip_zeros f (m / 10) (e + 1) else (m, e)
  end.

(** The number [m * 10 ^ e]. *)
Definition Number_of_decimal (m e : Z) : Number :=
  let (m', e') :=
    if (m =? 0)%Z then (0, 0)%Z else strip_zeros (S (Z.to_nat (Z.log2 (Z.abs m)))) m e in
  match bool_dec (canonical m' e') true with
  | left H => mkNumber m' e' H
  | right _ => Number_zero
  end.

Definition Number_of_Z (z : Z) : Number := Number_of_decimal z 0.

Fixpoint zeros (n : nat) : string :=
  match n with
  | O => ""
  | S k => String "0" (zeros k)
  end.

Fixpoint string_take (n : nat) (s : string) : string :=
  match n, s with
  | S k, String c r => String c (string_take k r)
  | _, _ => ""
  end.

Fixpoint string_drop (n : nat) (s : string) : string :=
  match n, s with
  | S k, String c r => string_drop k r
  | _, _ => s
  end.

(** [Number::toString] (ECMAScript 6.1.6.1.20) for the positive number
    [s * 10 ^ e], [s] being its digits: [k] digits, the decimal point
    after the [n]-th. *)
Definition decimal_text (s : string) (e : Z) : string :=
  let k := Z.of_nat (String.length s) in
  let n := (k + e)%Z in
  if (k <=? n)%Z && (n <=? 21)%Z then s +:+ zeros (Z.to_nat (n - k))
  else if (0 <? n)%Z && (n <=? 21)%Z then
    string_take (Z.to_nat n) s +:+ "." +:+ string_drop (Z.to_nat n) s
  else if (-6 <? n)%Z && (n <=? 0)%Z then "0." +:+ zeros (Z.to_nat (- n)) +:+ s
  else
    match s with
    | String c r =>
        String c (match r with EmptyString => "" | _ => "." +:+ r end)
          +:+ "e" +:+ (if (n - 1 <? 0)%Z then "-" else "+")
          +:+ pretty (Z.to_N (Z.abs (n - 1)))
    | EmptyString => ""
    end.

Definition Number_toString (x : Number) : string :=
  let m := mantissa x in
  if (m =? 0)%Z then "0"
  else (if (m <? 0)%Z then "-" else "") +:+ decimal_text (pretty (Z.to_N (Z.abs m))) (exponent x).

(** ** JSON *)

Inductive JSValue :=
| JNull
| JBool (b : bool)
| JNum (n : Number)
| JStr (s : string)
| JArr (items : list JSValue)
| JObj (properties : list (string * JSValue)).

(** [l.join(sep)]. *)
Fixpoint join (sep : string) (l : list string) : string :=
  match l with
  | [] => ""
  | [x] => x
  | x :: r => x +:+ sep +:+ join sep r
  end.

Module JSON.

(** The double quote, U+0022. *)
Definition dquote : ascii := Eval cbv in ascii_of_N 34.

Definition hex_digit (n : N) : ascii :=
  if (n <? 10)%N then ascii_of_N (48 + n) else ascii_of_N (87 + n).

(** The escape of one character inside a JSON string literal. *)
Definition escape_char (c : ascii) : string :=
  let n := N_of_ascii c in
  if (n =? 34)%N then String "\" (String dquote "")
  else if (n =? 92)%N then "\\"
  else if (n =? 8)%N then "\b"
  else if (n =? 12)%N then "\f"
  else if (n =? 10)%N then "\n"
  else if (n =? 13)%N then "\r"
  else if (n =? 9)%N then "\t"
  else if (n <? 32)%N then
    "\u00" +:+ String (hex_digit (n / 16)) (String (hex_digit (n mod 16)) "")
  else String c "".

Fixpoint escape_string (s : string) : string :=
  match s with
  | EmptyString => ""
  | String c r => escape_char c +:+ escape_string r
  end.

Definition quote (s : string) : string :=
  String dquote (escape_string s +:+ String dquote "").

(** [JSON.stringify] on a JSON value. *)
Fixpoint stringify (v : JSValue) : string :=
  match v with
  | JNull => "null"
  | JBool true => "true"
  | JBool false => "false"
  | JNum n => Number_toString n
  | JStr s => quote s
  | JArr items => "[" +:+ join "," (List.map stringify items) +:+ "]"
  | JObj properties =>
      "{" +:+ join "," (List.map (fun kv : string * JSValue => let (k, x) := kv in quote k +:+ ":" +:+ stringify x)
                          properties) +:+ "}"
  end.

(** *** [JSON.parse]

    A recursive-descent reader of the JSON grammar (RFC 8259). The fuel
    bounds the recursion depth; twice the length of the text is more than
    any text needs, since every nested call but one consumes a character
    first. *)

Definition is_ws (c : ascii) : bool :=
  let n := N_of_ascii c in
  (n =? 32)%N || (n =? 9)%N || (n =? 10)%N || (n =? 13)%N.

Fixpoint skip_ws (s : string) : string :=
  match s with
  | String c r => if is_ws c then skip_ws r else s
  | EmptyString => s
  end.

Definition digit_of (c : ascii) : option Z :=
  let n := N_of_ascii c in
  if (48 <=? n)%N && (n <=? 57)%N then Some (Z.of_N (n - 48)) else None.

Definition hex_of (c : ascii) : option N :=
  let n := N_of_ascii c in
  if (48 <=? n)%N && (n <=? 57)%N then Some (n - 48)%N
  else if (97 <=? n)%N && (n <=? 102)%N then Some (n - 87)%N
  else if (65 <=? n)%N && (n <=? 70)%N then Some (n - 55)%N
  else None.

(** The UTF-8 bytes of a code point of the basic plane. *)
Definition utf8 (cp : N) : string :=
  if (cp <? 128)%N then String (ascii_of_N cp) ""
  else if (cp <? 2048)%N then
    String (ascii_of_N (192 + cp / 64)) (String (ascii_of_N (128 + cp mod 64)) "")
  else
    String (ascii_of_N (224 + cp / 4096))
      (String (ascii_of_N (128 + (cp / 64) mod 64))
         (String (ascii_of_N (128 + cp mod 64)) "")).

(** The character an escape letter stands for. *)
Definition unescape (c : ascii) : option ascii :=
  let n := N_of_ascii c in
  if (n =? 34)%N || (n =? 92)%N || (n =? 47)%N then Some c
  else if (n =? 98)%N then Some (ascii_of_N 8)
  else if (n =? 102)%N then Some (ascii_of_N 12)
  else if (n =? 110)%N then Some (ascii_of_N 10)
  else if (n =? 114)%N then Some (ascii_of_N 13)
  else if (n =? 116)%N then Some (ascii_of_N 9)
  else None.

(** Reads a string literal after its opening quote: the text and what
    follows the closing quote. *)
Fixpoint parse_string_body (s : string) : option (string * string) :=
  match s with
  | EmptyString => None
  | String c r =>
      let n := N_of_ascii c in
      if (n =? 34)%N then Some ("", r)
      else if (n =? 92)%N then
        match r with
        | String e r' =>
            if (N_of_ascii e =? 117)%N then
              match r' with
              | String h1 (String h2 (String h3 (String h4 r''))) =>
                  match hex_of h1, hex_of h2, hex_of h3, hex_of h4 with
                  | Some a, Some b, Some c', Some d =>
                      match parse_string_body r'' with
                      | Some (t, rest) =>
                          Some (utf8 (a * 4096 + b * 256 + c' * 16 + d) +:+ t, rest)
                      | None => None
                      end
                  | _, _, _, _ => None
                  end
              | _ => None
              end
            else
              match unescape e with
              | Some x =>
                  match parse_string_body r' with
                  | Some (t, rest) => Some (String x t, rest)
                  | None => None
                  end
              | None => None
              end
        | EmptyString => None
        end
      else if (n <? 32)%N then None
      else
        match parse_string_body r with
        | Some (t, rest) => Some (String c t, rest)
        | None => None
        end
  end.

(** *** Number literals: [-? int frac? exp?] *)

Definition is_digit (c : ascii) : bool :=
  match digit_of c with Some _ => true | None => false end.

(** The longest run of digits at the head of the text, and the rest. *)
Fixpoint digit_run (s : string) : string * string :=
  match s with
  | String c r =>
      if is_digit c then let (ds, rest) := digit_run r in (String c ds, rest) else ("", s)
  | EmptyString => ("", "")
  end.

Fixpoint digits_value (acc : Z) (ds : string) : Z :=
  match ds with
  | String c r => digits_value (10 * acc + default 0%Z (digit_of c)) r
  | EmptyString => acc
  end.

(** The digits after a decimal point; a point needs a digit after it. *)
Definition read_fraction (s : string) : option (string * string) :=
  match s with
  | String c r =>
      if (N_of_ascii c =? 46)%N then
        match digit_run r with
        | (EmptyString, _) => None
        | (ds, rest) => Some (ds, rest)
        end
      else Some ("", s)
  | EmptyString => Some ("", s)
  end.

(** The exponent: [e] or [E], an optional sign and at least one digit. *)
Definition read_exponent (s : string) : option (Z * string) :=
  match s with
  | String c r =>
      if (N_of_ascii c =? 101)%N || (N_of_ascii c =? 69)%N then
        let (negative, r') :=
          match r with
          | String sg r1 =>
              if (N_of_ascii sg =? 45)%N then (true, r1)
              else if (N_of_ascii sg =? 43)%N then (false, r1)
              else (false, r)
          | EmptyString => (false, r)
          end in
        match digit_run r' with
        | (EmptyString, _) => None
        | (ds, rest) =>
            Some (if negative then (- digits_value 0 ds)%Z else digits_value 0 ds, rest)
        end
      else Some (0%Z, s)
  | EmptyString => Some (0%Z, s)
  end.

Definition read_sign (s : string) : bool * string :=
  match s with
  | String c r => if (N_of_ascii c =? 45)%N then (true, r) else (false, s)
  | EmptyString => (false, s)
  end.

(** A zero followed by more digits. *)
Definition leading_zero (int : string) : bool :=
  match int with
  | String c more => (N_of_ascii c =? 48)%N && negb (String.eqb more "")
  | EmptyString => false
  end.

(** An unsigned literal: its digits as an integer, the power of ten to
    scale it by, and what follows. *)
Definition read_decimal (s : string) : option (Z * Z * string) :=
  let (int, s1) := digit_run s in
  if String.eqb int "" || leading_zero int then None
  else
    match read_fraction s1 with
    | None => None
    | Some (frac, s2) =>
        match read_exponent s2 with
        | None => None
        | Some (e, s3) =>
            Some (digits_value 0 (int +:+ frac), (e - Z.of_nat (String.length frac))%Z, s3)
        end
    end.

Definition parse_number (s : string) : option (Number * string) :=
  let (negative, s0) := read_sign s in
  match read_decimal s0 with
  | Some (m, e, rest) => Some (Number_of_decimal (if negative then (- m)%Z else m) e, rest)
  | None => None
  end.

Definition parse_literal (word : string) (v : JSValue) (s : string) : option (JSValue * string) :=
  if String.prefix word s
  then Some (v, String.substring (String.length word) (String.length s - String.length word) s)
  else None.

Fixpoint parse_value (fuel : nat) (s : string) : option (JSValue * string) :=
  match fuel with
  | O => None
  | S f =>
      match skip_ws s with
      | EmptyString => None
      | String c r =>
          let n := N_of_ascii c in
          if (n =? 34)%N then
            match parse_string_body r with
            | Some (t, rest) => Some (JStr t, rest)
            | None => None
            end
          else if (n =? 91)%N then
            match skip_ws r with
            | String c' r' =>
                if (N_of_ascii c' =? 93)%N then Some (JArr [], r')
                else match parse_elements f r with
                     | Some (l, rest) => Some (JArr l, rest)
                     | None => None
                     end
            | EmptyString => None
            end
          else if (n =? 123)%N then
            match skip_ws r with
            | String c' r' =>
                if (N_of_ascii c' =? 125)%N then Some (JObj [], r')
                else match parse_members f r with
                     | Some (l, rest) => Some (JObj l, rest)
                     | None => None
                     end
            | EmptyString => None
            end
          else if (n =? 116)%N then parse_literal "true" (JBool true) (String c r)
          else if (n =? 102)%N then parse_literal "false" (JBool false) (String c r)
          else if (n =? 110)%N then parse_literal "null" JNull (String c r)
          else
            match parse_number (String c r) with
            | Some (x, rest) => Some (JNum x, rest)
            | None => None
            end
      end
  end
with parse_elements (fuel : nat) (s : string) : option (list JSValue * string) :=
  match fuel with
  | O => None
  | S f =>
      match parse_value f s with
      | Some (v, rest) =>
          match skip_ws rest with
          | String c r =>
              if (N_of_ascii c =? 44)%N then
                match parse_elements f r with
                | Some (l, rest') => Some (v :: l, rest')
                | None => None
                end
              else if (N_of_ascii c =? 93)%N then Some ([v], r)
              else None
          | EmptyString => None
          end
      | None => None
      end
  end
with parse_members (fuel : nat) (s : string) : option (list (string * JSValue) * string) :=
  match fuel with
  | O => None
  | S f =>
      match skip_ws s with
      | String q r =>
          if (N_of_ascii q =? 34)%N then
            match parse_string_body r with
            | Some (k, rest) =>
                match skip_ws rest with
                | String colon r1 =>
                    if (N_of_ascii colon =? 58)%N then
                      match parse_value f r1 with
                      | Some (v, rest1) =>
                          match skip_ws rest1 with
                          | String c r2 =>
                              if (N_of_ascii c =? 44)%N then
                                match parse_members f r2 with
                                | Some (l, rest') => Some ((k, v) :: l, rest')
                                | None => None
                                end
                              else if (N_of_ascii c =? 125)%N then Some ([(k, v)], r2)
                              else None
                          | EmptyString => None
                          end
                      | None => None
                      end
                    else None
                | EmptyString => None
                end
            | None => None
            end
          else None
      | EmptyString => None
      end
  end.

(** [JSON.parse]: a [SyntaxError] on any text that is not one JSON value
    with optional white space around it. *)
Definition parse (text : string) : Outcome JSValue :=
  match parse_value (2 * String.length text + 2) text with
  | Some (v, rest) =>
      match skip_ws rest with
      | EmptyString => Ok v
      | String _ _ => Throw (SyntaxError "Unexpected non-whitespace character after JSON")
      end
  | None => Throw (SyntaxError "Unexpected token in JSON")
  end.

End JSON.

(** ** Data model *)

(** [InstallationStoreQuery] of slack-edge: every property is optional. *)
Record InstallationStoreQuery := mkQuery {
  enterpriseId : option string;
  teamId : option string;
  userId : option string;
  isEnterpriseInstall : option bool;
}.

(** The properties of [Installation] that the store reads. *)
Record Installation := mkInstallation {
  enterprise_id : option string;
  team_id : option string;
  user_id : option string;
  is_enterprise_install : option bool;
  bot_token : option string;
  bot_refresh_token : option string;
  bot_token_expires_at : option Number;
  bot_scopes : option (list string);
  user_token : option string;
  user_refresh_token : option string;
  user_token_expires_at : option Number;
  user_scopes : option (list string);
  other_properties : list (string * JSValue);
}.

(** ** Composite keys (lines 246-270) *)

Definition toBotInstallationQuery (clientId : string) (q : InstallationStoreQuery) : string :=
  let e := cond_or (enterpriseId q) "_" in
  let t := if truthy (teamId q) && negb (truthyb (isEnterpriseInstall q))
           then nullish_or (teamId q) "" else "_" in
  clientId +:+ "/" +:+ e +:+ ":" +:+ t.

Definition toUserInstallationQuery (clientId : string) (q : InstallationStoreQuery) : string :=
  let e := cond_or (enterpriseId q) "_" in
  let t := if truthy (teamId q) && negb (truthyb (isEnterpriseInstall q))
           then nullish_or (teamId q) "" else "_" in
  let u := cond_or (userId q) "_" in
  clientId +:+ "/" +:+ e +:+ ":" +:+ t +:+ ":" +:+ u.

Definition toBotInstallationKey (clientId : string) (installation : Installation) : string :=
  let e := nullish_or (enterprise_id installation) "_" in
  let t := if truthy (team_id installation) && negb (truthyb (is_enterprise_install installation))
           then nullish_or (team_id installation) "" else "_" in
  clientId +:+ "/" +:+ e +:+ ":" +:+ t.

Definition toUserInstallationKey (clientId : string) (installation : Installation) : string :=
  let e := nullish_or (enterprise_id installation) "_" in
  let t := if truthy (team_id installation) && negb (truthyb (is_enterprise_install installation))
           then nullish_or (team_id installation) "" else "_" in
  let u := nullish_or (user_id installation) "_" in
  clientId +:+ "/" +:+ e +:+ ":" +:+ t +:+ ":" +:+ u.

(** The query that addresses an installation, as the claim derives it:
    the four identity properties copied over. *)
Definition queryDerivedFrom (i : Installation) : InstallationStoreQuery :=
  {| enterpriseId := enterprise_id i;
     teamId := team_id i;
     userId := user_id i;
     isEnterpriseInstall := is_enterprise_install i |}.


(** *** Records as JSON objects

    [JSON.stringify] leaves out the properties that are [undefined], and
    the result of [JSON.parse] is used through the declared interface: a
    property that is missing or not of the declared type reads as
    [undefined]. When a name occurs twice in a text the last one counts. *)

Definition prop (ps : list (string * JSValue)) (k : string) : option JSValue :=
  snd <$> last (filter (fun kv => kv.1 = k) ps).

Definition prop_string ps k : option string :=
  match prop ps k with Some (JStr s) => Some s | _ => None end.

Definition prop_bool ps k : option bool :=
  match prop ps k with Some (JBool b) => Some b | _ => None end.

Definition prop_num ps k : option Number :=
  match prop ps k with Some (JNum n) => Some n | _ => None end.

Definition as_string (v : JSValue) : option string :=
  match v with JStr s => Some s | _ => None end.

Definition prop_strings ps k : option (list string) :=
  match prop ps k with
  | Some (JArr l) => mapM as_string l
  | _ => None
  end.

(** One property of an object literal, left out when [undefined]. *)
Definition field {A} (k : string) (inj : A -> JSValue) (x : option A) : list (string * JSValue) :=
  match x with
  | Some a => [(k, inj a)]
  | None => []
  end.

Definition JStrs (l : list string) : JSValue := JArr (List.map JStr l).

Definition Installation_names : list string :=
  ["enterprise_id"; "team_id"; "user_id"; "is_enterprise_install";
   "bot_token"; "bot_refresh_token"; "bot_token_expires_at"; "bot_scopes";
   "user_token"; "user_refresh_token"; "user_token_expires_at"; "user_scopes"].

Definition Installation_to_JSON (i : Installation) : JSValue :=
  JObj (field "enterprise_id" JStr (enterprise_id i)
        ++ field "team_id" JStr (team_id i)
        ++ field "user_id" JStr (user_id i)
        ++ field "is_enterprise_install" JBool (is_enterprise_install i)
        ++ field "bot_token" JStr (bot_token i)
        ++ field "bot_refresh_token" JStr (bot_refresh_token i)
        ++ field "bot_token_expires_at" JNum (bot_token_expires_at i)
        ++ field "bot_scopes" JStrs (bot_scopes i)
        ++ field "user_token" JStr (user_token i)
        ++ field "user_refresh_token" JStr (user_refresh_token i)
        ++ field "user_token_expires_at" JNum (user_token_expires_at i)
        ++ field "user_scopes" JStrs (user_scopes i)
        ++ other_properties i).

Definition Installation_of_properties (ps : list (string * JSValue)) : Installation :=
  {| enterprise_id := prop_string ps "enterprise_id";
     team_id := prop_string ps "team_id";
     user_id := prop_string ps "user_id";
     is_enterprise_install := prop_bool ps "is_enterprise_install";
     bot_token := prop_string ps "bot_token";
     bot_refresh_token := prop_string ps "bot_refresh_token";
     bot_token_expires_at := prop_num ps "bot_token_expires_at";
     bot_scopes := prop_strings ps "bot_scopes";
     user_token := prop_string ps "user_token";
     user_refresh_token := prop_string ps "user_refresh_token";
     user_token_expires_at := prop_num ps "user_token_expires_at";
     user_scopes := prop_strings ps "user_scopes";
     other_properties := filter (fun kv => kv.1 ∉ Installation_names) ps |}.

(** Truthiness of a JSON value. *)
Definition js_truthy (v : JSValue) : bool :=
  match v with
  | JNull => false
  | JBool b => b
  | JNum n => negb (mantissa n =? 0)%Z
  | JStr s => negb (String.eqb s "")
  | JArr _ | JObj _ => true
  end.

(** A parsed payload seen as [Installation | undefined]: the falsy values
    behave like [undefined] in every test the store makes, and a truthy
    value that is not an object has none of the properties. *)
Definition Installation_of_JSON (v : JSValue) : option Installation :=
  if js_truthy v then
    Some (Installation_of_properties (match v with JObj ps => ps | _ => [] end))
  else None.

Definition Query_to_JSON (q : InstallationStoreQuery) : JSValue :=
  JObj (field "isEnterpriseInstall" JBool (isEnterpriseInstall q)
        ++ field "enterpriseId" JStr (enterpriseId q)
        ++ field "teamId" JStr (teamId q)
        ++ field "userId" JStr (userId q)).

(** ** The KV namespace

    The store talks to a Cloudflare [KVNamespace]. The model is an
    in-memory namespace: a finite map from keys to values, a page size
    for [list], a log of the calls it has served and a fault schedule
    that can make any call reject. [list] follows the cursor protocol of
    the service: the matching keys in lexicographic order, one page per
    call, [list_complete] on the last page and otherwise a cursor from
    which the next call resumes. *)

Inductive KVOp :=
| KVGet (key : string)
| KVPut (key value : string) (expirationTtl : option Z)
| KVDelete (key : string)
| KVList (prefix : string) (cursor : option string).

Record KVNamespace := mkKV {
  kv_data : gmap string string;
  kv_limit : nat;
  kv_log : list KVOp;
  kv_fault : nat -> KVOp -> option JSError;
}.

Record KVNamespaceListResult := mkListResult {
  keys : list string;
  list_complete : bool;
  cursor : option string;
}.

Definition kv_logged (op : KVOp) (ns : KVNamespace) : KVNamespace :=
  {| kv_data := kv_data ns; kv_limit := kv_limit ns;
     kv_log := kv_log ns ++ [op]; kv_fault := kv_fault ns |}.

(** Records a call and consults the fault schedule at its position. *)
Definition kv_call (op : KVOp) (ns : KVNamespace) : option JSError * KVNamespace :=
  (kv_fault ns (length (kv_log ns)) op, kv_logged op ns).

Definition kv_with_data (d : gmap string string) (ns : KVNamespace) : KVNamespace :=
  {| kv_data := d; kv_limit := kv_limit ns; kv_log := kv_log ns; kv_fault := kv_fault ns |}.

Definition kv_get (key : string) (ns : KVNamespace) : Outcome (option string) * KVNamespace :=
  match kv_call (KVGet key) ns with
  | (Some e, ns') => (Throw e, ns')
  | (None, ns') => (Ok (kv_data ns' !! key), ns')
  end.

Definition kv_put (key value : string) (expirationTtl : option Z) (ns : KVNamespace)
  : Outcome unit * KVNamespace :=
  match kv_call (KVPut key value expirationTtl) ns with
  | (Some e, ns') => (Throw e, ns')
  | (None, ns') => (Ok tt, kv_with_data (<[key := value]> (kv_data ns')) ns')
  end.

Definition kv_delete (key : string) (ns : KVNamespace) : Outcome unit * KVNamespace :=
  match kv_call (KVDelete key) ns with
  | (Some e, ns') => (Throw e, ns')
  | (None, ns') => (Ok tt, kv_with_data (delete key (kv_data ns')) ns')
  end.

Definition string_le (a b : string) : Prop := String.leb a b = true.

#[global] Instance string_le_dec : RelDecision string_le :=
  fun a b => decide (String.leb a b = true).

(** The keys of the namespace that start with [prefix], in order. *)
Definition kv_keys (d : gmap string string) (prefix : string) : list string :=
  merge_sort string_le (filter (fun k => String.prefix prefix k = true) (elements (dom d))).

(** Cursors are the decimal offset of the next page. *)
Definition cursor_of_offset (n : nat) : string :=
  NilEmpty.string_of_uint (Nat.to_uint n).

Definition offset_of_cursor (c : option string) : option nat :=
  match c with
  | None => Some 0
  | Some s => Nat.of_uint <$> NilEmpty.uint_of_string s
  end.

Definition kv_list (prefix : string) (cursor : option string) (ns : KVNamespace)
  : Outcome KVNamespaceListResult * KVNamespace :=
  match kv_call (KVList prefix cursor) ns with
  | (Some e, ns') => (Throw e, ns')
  | (None, ns') =>
      match offset_of_cursor cursor with
      | None => (Throw (ExternalError "Invalid cursor"), ns')
      | Some off =>
          let all := kv_keys (kv_data ns') prefix in
          let next := off + kv_limit ns' in
          let complete := bool_decide (length all <= next) in
          (Ok {| keys := take (kv_limit ns') (drop off all);
                 list_complete := complete;
                 cursor := if complete then None else Some (cursor_of_offset next) |},
           ns')
      end
  end.

(** ** Header maps

    [Headers] of the Fetch standard: a header list in the order in which
    the headers were appended, names kept as given and compared without
    regard to ASCII case. *)

Definition lower_char (c : ascii) : ascii :=
  let n := N_of_ascii c in
  if (65 <=? n)%N && (n <=? 90)%N then ascii_of_N (n + 32) else c.

Fixpoint byte_lowercase (s : string) : string :=
  match s with
  | EmptyString => EmptyString
  | String c r => String (lower_char c) (byte_lowercase r)
  end.

Abbreviation Headers := (list (string * string)) (only parsing).

(** The values of the headers whose name matches the lower-cased [name],
    in order. *)
Definition header_values (h : Headers) (name : string) : list string :=
  snd <$> filter (fun kv => byte_lowercase kv.1 = name) h.

(** [headers.get(name)]: the matching values joined by a comma and a
    space, [null] when there is none. *)
Definition Headers_get (h : Headers) (name : string) : option string :=
  match header_values h (byte_lowercase name) with
  | [] => None
  | vs => Some (join ", " vs)
  end.

(** The sorted lower-case set of the names of a header list. *)
Definition header_names (h : Headers) : list string :=
  merge_sort string_le (remove_dups ((fun kv => byte_lowercase kv.1) <$> h)).

(** [headers.entries()]: "sort and combine" of the Fetch standard. Every
    name yields one pair with its combined value, except [set-cookie],
    which yields one pair per header. *)
Definition Headers_entries (h : Headers) : list (string * string) :=
  header_names h ≫= fun name =>
    if decide (name = "set-cookie")
    then (fun v => (name, v)) <$> header_values h name
    else [(name, join ", " (header_values h name))].

(** A plain object with string values, its properties in creation order. *)
Abbreviation StringRecord := (list (string * string)) (only parsing).

(** Defining a property: an existing one keeps its place and takes the
    new value. *)
Fixpoint record_set (o : StringRecord) (k v : string) : StringRecord :=
  match o with
  | [] => [(k, v)]
  | (k', v') :: r => if decide (k' = k) then (k, v) :: r else (k', v') :: record_set r k v
  end.

Definition Object_fromEntries (entries : list (string * string)) : StringRecord :=
  foldl (fun o kv => record_set o kv.1 kv.2) [] entries.

(** *** The constructor

    [new Headers(init)] converts its argument to a record or to a
    sequence of pairs of byte strings (Web IDL) and appends the pairs
    one by one. [append] strips the white space around the value, then
    rejects a name that is not a token and a value that holds a NUL, a
    line feed or a carriage return (Fetch standard, section 5.2). *)

Fixpoint string_forallb (f : ascii -> bool) (s : string) : bool :=
  match s with
  | EmptyString => true
  | String c r => f c && string_forallb f r
  end.

(** The [tchar] of RFC 9110: a letter, a digit or one of
    [! # $ % & ' * + - . ^ _ ` | ~]. *)
Definition is_tchar (c : ascii) : bool :=
  let n := N_of_ascii c in
  ((48 <=? n)%N && (n <=? 57)%N) || ((65 <=? n)%N && (n <=? 90)%N)
  || ((97 <=? n)%N && (n <=? 122)%N)
  || existsb (N.eqb n) [33; 35; 36; 37; 38; 39; 42; 43; 45; 46; 94; 95; 96; 124; 126]%N.

Definition valid_header_name (name : string) : bool :=
  negb (String.eqb name "") && string_forallb is_tchar name.

(** HTTP white space: tab, line feed, carriage return and space. *)
Definition is_http_whitespace (c : ascii) : bool :=
  let n := N_of_ascii c in
  (n =? 9)%N || (n =? 10)%N || (n =? 13)%N || (n =? 32)%N.

Fixpoint strip_leading (s : string) : string :=
  match s with
  | String c r => if is_http_whitespace c then strip_leading r else s
  | EmptyString => s
  end.

Fixpoint strip_trailing (s : string) : string :=
  match s with
  | EmptyString => ""
  | String c r =>
      match strip_trailing r with
      | EmptyString => if is_http_whitespace c then "" else String c ""
      | r' => String c r'
      end
  end.

(** "Normalize" of the Fetch standard. *)
Definition normalize (value : string) : string := strip_trailing (strip_leading value).

Definition starts_with (f : ascii -> bool) (s : string) : bool :=
  match s with
  | String c _ => f c
  | EmptyString => false
  end.

Fixpoint ends_with (f : ascii -> bool) (s : string) : bool :=
  match s with
  | EmptyString => false
  | String c EmptyString => f c
  | String _ r => ends_with f r
  end.

(** A header value: no NUL, no line feed and no carriage return
    ([no_break]), and no tab or space at either end. With the line breaks ruled out, the
    latter is: no HTTP white space at either end. *)
Definition no_break (c : ascii) : bool :=
  let n := N_of_ascii c in negb ((n =? 0)%N || (n =? 10)%N || (n =? 13)%N).

Definition valid_header_value (value : string) : bool :=
  string_forallb no_break value
  && negb (starts_with is_http_whitespace value)
  && negb (ends_with is_http_whitespace value).

(** A [ByteString] has no character above U+00FF. In UTF-8 such a
    character starts with a byte of 0xC4 or more. *)
Definition is_byte_string (s : string) : bool :=
  string_forallb (fun c => (N_of_ascii c <? 196)%N) s.

(** [String(v)] for a value that came out of [JSON.parse]. *)
Fixpoint ToString (v : JSValue) : string :=
  match v with
  | JNull => "null"
  | JBool true => "true"
  | JBool false => "false"
  | JNum n => Number_toString n
  | JStr s => s
  | JArr items =>
      join "," (List.map (fun x => match x with JNull => "" | _ => ToString x end) items)
  | JObj _ => "[object Object]"
  end.

(** [headers.append(name, value)]. *)
Definition Headers_append (h : Headers) (name value : string) : Outcome Headers :=
  let value := normalize value in
  if valid_header_name name && valid_header_value value
  then Ok (h ++ [(name, value)])
  else Throw (TypeError "Invalid header name or value").

(** "Fill" with the entries of a record. *)
Fixpoint Headers_fill (h : Headers) (entries : list (string * string)) : Outcome Headers :=
  match entries with
  | [] => Ok h
  | (name, value) :: more =>
      match Headers_append h name value with
      | Ok h' => Headers_fill h' more
      | Throw e => Throw e
      end
  end.

(** "Fill" with a sequence: every item has to be a pair. *)
Fixpoint Headers_fill_pairs (h : Headers) (items : list (list string)) : Outcome Headers :=
  match items with
  | [] => Ok h
  | [name; value] :: more =>
      match Headers_append h name value with
      | Ok h' => Headers_fill_pairs h' more
      | Throw e => Throw e
      end
  | _ :: _ => Throw (TypeError "Invalid header pair")
  end.

(** The conversion to [record<ByteString, ByteString>]: the own
    properties in order, every value through [String(v)]. *)
Definition record_of_object (properties : list (string * JSValue)) : Outcome StringRecord :=
  let record :=
    Object_fromEntries ((fun kv : string * JSValue => (kv.1, ToString kv.2)) <$> properties) in
  if forallb (fun kv : string * string => is_byte_string kv.1 && is_byte_string kv.2) record
  then Ok record
  else Throw (TypeError "Cannot convert string to ByteString").

(** The conversion to [sequence<sequence<ByteString>>]: every item has
    to be iterable, which among the JSON values only an array is. *)
Fixpoint sequence_of_array (items : list JSValue) : Outcome (list (list string)) :=
  match items with
  | [] => Ok []
  | JArr inner :: more =>
      let strings := ToString <$> inner in
      if forallb is_byte_string strings then
        match sequence_of_array more with
        | Ok converted => Ok (strings :: converted)
        | Throw e => Throw e
        end
      else Throw (TypeError "Cannot convert string to ByteString")
  | _ :: _ => Throw (TypeError "The provided value cannot be converted to a sequence")
  end.

(** [new Headers(init)], [init] being [undefined] or a value that came
    out of [JSON.parse]. *)
Definition new_Headers (init : option JSValue) : Outcome Headers :=
  match init with
  | None => Ok []
  | Some (JObj properties) =>
      match record_of_object properties with
      | Ok record => Headers_fill [] record
      | Throw e => Throw e
      end
  | Some (JArr items) =>
      match sequence_of_array items with
      | Ok pairs => Headers_fill_pairs [] pairs
      | Throw e => Throw e
      end
  | Some _ => Throw (TypeError "The provided value is not of type HeadersInit")
  end.

(** What holds of every header map the platform hands out: the names
    are tokens and the values are normalized byte strings without NUL
    and line breaks. *)
Definition valid_header (kv : string * string) : bool :=
  valid_header_name kv.1 && is_byte_string kv.2 && valid_header_value kv.2.

Definition Headers_valid (h : Headers) : Prop := forallb valid_header h = true.

(** ** API responses and their serializable form
    ([serializable-slack-api-response.ts]) *)

(** A [SlackAPIResponse]: the header map and the remaining properties. *)
Record SlackAPIResponse := mkResponse {
  rest : list (string * JSValue);
  headers : Headers;
}.

Record SerializableSlackAPIResponse := mkSerializable {
  ser_rest : list (string * JSValue);
  ser_headers : StringRecord;
}.

Definition toSerializableSlackAPIResponse (response : SlackAPIResponse)
  : SerializableSlackAPIResponse :=
  {| ser_rest := rest response;
     ser_headers := Object_fromEntries (Headers_entries (headers response)) |}.

(** The object a serializable response is at run time: the remaining
    properties, then [headers]. *)
Definition Serializable_to_JSON (s : SerializableSlackAPIResponse) : JSValue :=
  JObj (ser_rest s ++ [("headers", JObj ((fun kv : string * string => (kv.1, JStr kv.2)) <$> ser_headers s))]).

(** The UTF-16 code units of a string, each as a string of its own: a
    character outside the basic plane is two surrogates. *)
Fixpoint code_units (s : string) : list string :=
  match s with
  | EmptyString => []
  | String a r =>
      let n := N_of_ascii a in
      if (n <? 192)%N then String a "" :: code_units r
      else
        match r with
        | String b r1 =>
            if (n <? 224)%N then String a (String b "") :: code_units r1
            else
              match r1 with
              | String c r2 =>
                  if (n <? 240)%N then String a (String b (String c "")) :: code_units r2
                  else
                    match r2 with
                    | String d r3 =>
                        let cp := ((n mod 8) * 262144 + (N_of_ascii b mod 64) * 4096
                                   + (N_of_ascii c mod 64) * 64 + N_of_ascii d mod 64
                                   - 65536)%N in
                        JSON.utf8 (55296 + cp / 1024) :: JSON.utf8 (56320 + cp mod 1024)
                          :: code_units r3
                    | EmptyString => [s]
                    end
              | EmptyString => [s]
              end
        | EmptyString => [s]
        end
  end.

(** The own enumerable properties of a value, as an object spread or an
    object rest pattern copies them: those of an object, the items of an
    array and the code units of a string under their indices, and none
    for the other primitives. *)
Definition own_properties (v : JSValue) : list (string * JSValue) :=
  match v with
  | JObj properties => properties
  | JArr items => imap (fun i x => (pretty (N.of_nat i), x)) items
  | JStr s => imap (fun i x => (pretty (N.of_nat i), JStr x)) (code_units s)
  | _ => []
  end.

(** Lines 298-308. The parameter is typed as a serializable response,
    which at run time is whatever the caller passes: [callAuthTest]
    passes the result of [JSON.parse] unchecked. *)
Definition fromSerializableSlackAPIResponse (response : JSValue) : Outcome SlackAPIResponse :=
  match response with
  | JNull => Throw (TypeError "Cannot read properties of null (reading 'headers')")
  | _ =>
      match new_Headers (prop (own_properties response) "headers") with
      | Ok headers =>
          Ok {| rest := filter (fun kv => kv.1 ≠ "headers") (own_properties response);
                headers := headers |}
      | Throw e => Throw e
      end
  end.

(** [response.ok] and [response.error] as the conditions test them. *)
Definition ok (r : SlackAPIResponse) : bool :=
  match prop (rest r) "ok" with Some v => js_truthy v | None => false end.

Definition error (r : SlackAPIResponse) : bool :=
  match prop (rest r) "error" with Some v => js_truthy v | None => false end.

(** [s.split(",")]. *)
Fixpoint split_comma (s : string) : list string :=
  match s with
  | EmptyString => [""]
  | String c r =>
      if (N_of_ascii c =? 44)%N then "" :: split_comma r
      else match split_comma r with
           | h :: t => String c h :: t
           | [] => [String c ""]
           end
  end.

(** ** The environment and the collaborators *)

Record SlackOAuthEnv := mkEnv {
  SLACK_CLIENT_ID : string;
  SLACK_CLIENT_SECRET : string;
  SLACK_USER_TOKEN_RESOLUTION : option string;
  SLACK_LOGGING_LEVEL : option string;
}.

(** One side of the argument of [performRotation]. The source asserts the
    three properties with [!], which checks nothing at run time. *)
Record TokenSet := mkTokenSet {
  access_token : option string;
  refresh_token : option string;
  token_expires_at : option Number;
}.

Record RotationTargets := mkTargets {
  target_bot : option TokenSet;
  target_user : option TokenSet;
}.

Record RefreshedTokens := mkRefreshed {
  new_access_token : string;
  new_refresh_token : string;
  new_token_expires_at : Number;
}.

Record RotationResult := mkRotation {
  refreshed_bot : option RefreshedTokens;
  refreshed_user : option RefreshedTokens;
}.

(** The token endpoint and the Slack API are outside the program. Each is
    a function of the number of remote calls made so far and of the
    request, so that two calls need not answer alike. *)
Record TokenRotator := mkRotator {
  performRotation_at : nat -> RotationTargets -> Outcome (option RotationResult);
}.

Record SlackAPI := mkSlack {
  auth_test_at : nat -> option string -> Outcome SlackAPIResponse;
}.

(** [new SlackAPIClient(token, ...)]. *)
Record SlackAPIClient := mkClient {
  client_token : option string;
  client_logLevel : option string;
}.

(** ** The state the store acts on and its asynchronous methods *)

Record World := mkWorld {
  storage : KVNamespace;
  authTestCacheNamespace : option KVNamespace;
  remote_calls : nat;
}.

Definition Async (A : Type) : Type := World -> Outcome A * World.

Definition ret {A} (a : A) : Async A := fun w => (Ok a, w).

Definition throw {A} (e : JSError) : Async A := fun w => (Throw e, w).

Definition bind {A B} (c : Async A) (k : A -> Async B) : Async B :=
  fun w =>
    match c w with
    | (Ok a, w') => k a w'
    | (Throw e, w') => (Throw e, w')
    end.

Notation "'let!' x ':=' c 'in' k" := (bind c (fun x => k))
  (at level 10, x name, c at level 100, k at level 200).
Notation "c ';;' k" := (bind c (fun _ => k))
  (at level 100, k at level 200, right associativity, only parsing).

(** [try { c } catch (e) { h(e) }]. *)
Definition try_catch {A} (c : Async A) (h : JSError -> Async A) : Async A :=
  fun w =>
    match c w with
    | (Ok a, w') => (Ok a, w')
    | (Throw e, w') => h e w'
    end.

Definition lift {A} (o : Outcome A) : Async A := fun w => (o, w).

Definition on_storage {A} (f : KVNamespace -> Outcome A * KVNamespace) : Async A :=
  fun w =>
    let (r, ns) := f (storage w) in
    (r, {| storage := ns; authTestCacheNamespace := authTestCacheNamespace w;
           remote_calls := remote_calls w |}).

(** A call on the cache namespace; the callers have checked that the
    namespace is there. *)
Definition on_cache {A} (f : KVNamespace -> Outcome A * KVNamespace) : Async A :=
  fun w =>
    match authTestCacheNamespace w with
    | Some c =>
        let (r, ns) := f c in
        (r, {| storage := storage w; authTestCacheNamespace := Some ns;
               remote_calls := remote_calls w |})
    | None => (Throw (TypeError "Cannot read properties of undefined"), w)
    end.

Definition tick (w : World) : World :=
  {| storage := storage w; authTestCacheNamespace := authTestCacheNamespace w;
     remote_calls := S (remote_calls w) |}.

Definition performRotation (r : TokenRotator) (targets : RotationTargets)
  : Async (option RotationResult) :=
  fun w => (performRotation_at r (remote_calls w) targets, tick w).

(** [client.auth.test()]. *)
Definition auth_test (api : SlackAPI) (client : SlackAPIClient) : Async SlackAPIResponse :=
  fun w => (auth_test_at api (remote_calls w) (client_token client), tick w).

(** ** [KVInstallationStore] *)

Record KVInstallationStoreOptions := mkOptions {
  option_authTestCacheEnabled : option bool;
  option_authTestCacheExpirationSecs : option Z;
  option_authTestCacheStorage : option KVNamespace;
}.

(** The private fields of the class; the two namespaces are in the
    [World]. *)
Record KVInstallationStore := mkStore {
  env : SlackOAuthEnv;
  tokenRotator : TokenRotator;
  slack : SlackAPI;
  authTestCacheEnabled : bool;
  authTestCacheExpirationSecs : Z;
}.

(** The constructor (lines 67-81). The token endpoint and the Slack API
    are passed in with the environment. *)
Definition new_KVInstallationStore (env : SlackOAuthEnv) (rotator : TokenRotator) (api : SlackAPI)
    (namespace : KVNamespace) (options : KVInstallationStoreOptions)
  : Outcome (KVInstallationStore * World) :=
  if truthyb (option_authTestCacheEnabled options)
     && negb (bool_decide (is_Some (option_authTestCacheStorage options)))
  then Throw (ConfigError "authTestCacheStorage must be provided when authTestCacheEnabled is true")
  else Ok ({| env := env; tokenRotator := rotator; slack := api;
              authTestCacheEnabled := default false (option_authTestCacheEnabled options);
              authTestCacheExpirationSecs :=
                default (10 * 60)%Z (option_authTestCacheExpirationSecs options) |},
           {| storage := namespace;
              authTestCacheNamespace := option_authTestCacheStorage options;
              remote_calls := 0 |}).

Definition clientId (st : KVInstallationStore) : string := SLACK_CLIENT_ID (env st).

(** Lines 83-86. *)
Definition save (st : KVInstallationStore) (installation : Installation) : Async unit :=
  on_storage (kv_put (toBotInstallationKey (clientId st) installation)
                (JSON.stringify (Installation_to_JSON installation)) None);;
  on_storage (kv_put (toUserInstallationKey (clientId st) installation)
                (JSON.stringify (Installation_to_JSON installation)) None).

(** Lines 88-94. *)
Definition findBotInstallation (st : KVInstallationStore) (query : InstallationStoreQuery)
  : Async (option Installation) :=
  let! storedString := on_storage (kv_get (toBotInstallationQuery (clientId st) query)) in
  if truthy storedString then
    let! parsed := lift (JSON.parse (nullish_or storedString "")) in
    ret (Installation_of_JSON parsed)
  else ret None.

(** Lines 96-102. *)
Definition findUserInstallation (st : KVInstallationStore) (query : InstallationStoreQuery)
  : Async (option Installation) :=
  let! storedString := on_storage (kv_get (toUserInstallationQuery (clientId st) query)) in
  if truthy storedString then
    let! parsed := lift (JSON.parse (nullish_or storedString "")) in
    ret (Installation_of_JSON parsed)
  else ret None.

(** Lines 104-109. *)
Definition deleteBotInstallation (st : KVInstallationStore) (query : InstallationStoreQuery)
  : Async unit :=
  on_storage (kv_delete (toBotInstallationQuery (clientId st) query)).

Definition deleteUserInstallation (st : KVInstallationStore) (query : InstallationStoreQuery)
  : Async unit :=
  on_storage (kv_delete (toUserInstallationQuery (clientId st) query)).

(** The prefix [deleteAll] lists (lines 115-116). *)
Definition deleteAll_prefix (st : KVInstallationStore) (query : InstallationStoreQuery) : string :=
  let e := cond_or (enterpriseId query) "_" in
  if truthy (teamId query)
  then clientId st +:+ "/" +:+ e +:+ ":" +:+ nullish_or (teamId query) ""
  else clientId st +:+ "/" +:+ e +:+ ":".

(** The [while (cursor)] loop of lines 122-126. [None] when the fuel runs
    out before the loop ends. *)
Fixpoint deleteAll_loop (fuel : nat) (prefix : string) (next : option string)
    (names : list string) (w : World) : option (Outcome (list string) * World) :=
  if truthy next then
    match fuel with
    | O => None
    | S fuel' =>
        match on_storage (kv_list prefix next) w with
        | (Ok response, w') =>
            deleteAll_loop fuel' prefix
              (if list_complete response then None else cursor response)
              (names ++ keys response) w'
        | (Throw e, w') => Some (Throw e, w')
        end
    end
  else Some (Ok names, w).

(** The [for (const key of keys)] loop of lines 128-130. *)
Fixpoint deleteAll_each (names : list string) : Async unit :=
  match names with
  | [] => ret tt
  | key :: more => on_storage (kv_delete key);; deleteAll_each more
  end.

(** Lines 110-131. *)
Definition deleteAll (st : KVInstallationStore) (fuel : nat) (query : InstallationStoreQuery)
    (w : World) : option (Outcome unit * World) :=
  if negb (truthy (enterpriseId query)) && negb (truthy (teamId query)) then
    Some (Ok tt, w)
  else
    let prefix := deleteAll_prefix st query in
    match on_storage (kv_list prefix None) w with
    | (Throw e, w1) => Some (Throw e, w1)
    | (Ok first, w1) =>
        let names := [] ++ keys first in
        let listed :=
          if negb (list_complete first)
          then deleteAll_loop fuel prefix (cursor first) names w1
          else Some (Ok names, w1) in
        match listed with
        | None => None
        | Some (Throw e, w2) => Some (Throw e, w2)
        | Some (Ok names', w2) => Some (deleteAll_each names' w2)
        end
    end.

(** Lines 221-243. *)
Definition callAuthTest (st : KVInstallationStore) (client : SlackAPIClient)
    (token : option string) : Async SlackAPIResponse :=
  fun w =>
    if truthy token && authTestCacheEnabled st
       && bool_decide (is_Some (authTestCacheNamespace w))
    then
      (let! cachedResponse := on_cache (kv_get (nullish_or token "")) in
       if truthy cachedResponse then
         let! serializableAuthTestResponse := lift (JSON.parse (nullish_or cachedResponse "")) in
         lift (fromSerializableSlackAPIResponse serializableAuthTestResponse)
       else
         let! authTestResponse := auth_test (slack st) client in
         (if ok authTestResponse && negb (error authTestResponse) then
            let serializableAuthTestResponse := toSerializableSlackAPIResponse authTestResponse in
            let permanentCacheEnabled := (authTestCacheExpirationSecs st <=? 0)%Z in
            on_cache (kv_put (nullish_or token "")
                        (JSON.stringify (Serializable_to_JSON serializableAuthTestResponse))
                        (if permanentCacheEnabled then None
                         else Some (authTestCacheExpirationSecs st)))
          else ret tt);;
         ret authTestResponse) w
    else auth_test (slack st) client w.

(** ** [toAuthorize] (lines 133-213) *)

(** The properties of [req.context] that the callable reads. *)
Record PreAuthorizeContext := mkContext {
  context_isEnterpriseInstall : option bool;
  context_enterpriseId : option string;
  context_teamId : option string;
  context_userId : option string;
  actorEnterpriseId : option string;
  actorTeamId : option string;
  actorUserId : option string;
}.

Record PreAuthorizeRequest := mkRequest {
  context : PreAuthorizeContext;
}.

Record AuthorizeResult := mkResult {
  result_enterpriseId : option string;
  result_teamId : option string;
  team : option string;
  url : option string;
  botId : option string;
  botUserId : option string;
  botToken : option string;
  botScopes : list string;
  result_userId : option string;
  user : option string;
  userToken : option string;
  userScopes : option (list string);
}.

(** The three assignments of lines 152-154. *)
Definition with_bot_tokens (bot : Installation) (r : RefreshedTokens) : Installation :=
  {| enterprise_id := enterprise_id bot; team_id := team_id bot; user_id := user_id bot;
     is_enterprise_install := is_enterprise_install bot;
     bot_token := Some (new_access_token r);
     bot_refresh_token := Some (new_refresh_token r);
     bot_token_expires_at := Some (new_token_expires_at r);
     bot_scopes := bot_scopes bot;
     user_token := user_token bot; user_refresh_token := user_refresh_token bot;
     user_token_expires_at := user_token_expires_at bot; user_scopes := user_scopes bot;
     other_properties := other_properties bot |}.

(** The three assignments of lines 182-184. *)
Definition with_user_tokens (u : Installation) (r : RefreshedTokens) : Installation :=
  {| enterprise_id := enterprise_id u; team_id := team_id u; user_id := user_id u;
     is_enterprise_install := is_enterprise_install u;
     bot_token := bot_token u; bot_refresh_token := bot_refresh_token u;
     bot_token_expires_at := bot_token_expires_at u; bot_scopes := bot_scopes u;
     user_token := Some (new_access_token r);
     user_refresh_token := Some (new_refresh_token r);
     user_token_expires_at := Some (new_token_expires_at r);
     user_scopes := user_scopes u;
     other_properties := other_properties u |}.

(** Lines 143-157: the rotation of the bot token. *)
Definition rotate_bot (st : KVInstallationStore) (found : option Installation)
  : Async (option Installation) :=
  match found with
  | Some bot =>
      if truthy (bot_refresh_token bot) then
        let! maybeRefreshed :=
          performRotation (tokenRotator st)
            {| target_bot := Some {| access_token := bot_token bot;
                                     refresh_token := bot_refresh_token bot;
                                     token_expires_at := bot_token_expires_at bot |};
               target_user := None |} in
        match maybeRefreshed ≫= refreshed_bot with
        | Some r =>
            let bot' := with_bot_tokens bot r in
            save st bot';; ret (Some bot')
        | None => ret (Some bot)
        end
      else ret (Some bot)
  | None => ret None
  end.

(** Lines 173-187: the rotation of the user token. *)
Definition rotate_user (st : KVInstallationStore) (found : option Installation)
  : Async (option Installation) :=
  match found with
  | Some u =>
      if truthy (user_refresh_token u) then
        let! maybeRefreshed :=
          performRotation (tokenRotator st)
            {| target_bot := None;
               target_user := Some {| access_token := user_token u;
                                      refresh_token := user_refresh_token u;
                                      token_expires_at := user_token_expires_at u |} |} in
        match maybeRefreshed ≫= refreshed_user with
        | Some r =>
            let u' := with_user_tokens u r in
            save st u';; ret (Some u')
        | None => ret (Some u)
        end
      else ret (Some u)
  | None => ret None
  end.

(** Lines 165-171: the query built for the user lookup. *)
Definition userQuery_of (st : KVInstallationStore) (req : PreAuthorizeRequest)
    (query : InstallationStoreQuery) : InstallationStoreQuery :=
  if bool_decide (SLACK_USER_TOKEN_RESOLUTION (env st) ≠ Some "installer") then
    {| isEnterpriseInstall := isEnterpriseInstall query;
       enterpriseId := actorEnterpriseId (context req);
       teamId := actorTeamId (context req);
       userId := actorUserId (context req) |}
  else query.

(** Lines 135-140. *)
Definition query_of (req : PreAuthorizeRequest) : InstallationStoreQuery :=
  {| isEnterpriseInstall := context_isEnterpriseInstall (context req);
     enterpriseId := context_enterpriseId (context req);
     teamId := context_teamId (context req);
     userId := context_userId (context req) |}.

(** The body of the [try] block (lines 142-208). *)
Definition authorize_try (st : KVInstallationStore) (req : PreAuthorizeRequest)
    (query : InstallationStoreQuery) : Async AuthorizeResult :=
  let! found := findBotInstallation st query in
  let! bot := rotate_bot st found in
  let botClient := {| client_token := bot ≫= bot_token;
                      client_logLevel := SLACK_LOGGING_LEVEL (env st) |} in
  let! botAuthTest := callAuthTest st botClient (bot ≫= bot_token) in
  let botScopes :=
    match Headers_get (headers botAuthTest) "x-oauth-scopes" with
    | Some scopes => split_comma scopes
    | None => match bot ≫= bot_scopes with Some l => l | None => [] end
    end in
  let userQuery := userQuery_of st req query in
  let! found_user := findUserInstallation st query in
  let! user := rotate_user st found_user in
  let! userAuthTest :=
    match user with
    | Some u => let! r := callAuthTest st botClient (user_token u) in ret (Some r)
    | None => ret None
    end in
  ret {| result_enterpriseId := bot ≫= enterprise_id;
         result_teamId := bot ≫= team_id;
         team := prop_string (rest botAuthTest) "team";
         url := prop_string (rest botAuthTest) "url";
         botId := prop_string (rest botAuthTest) "bot_id";
         botUserId := prop_string (rest botAuthTest) "user_id";
         botToken := bot ≫= bot_token;
         botScopes := botScopes;
         result_userId := user ≫= user_id;
         user := userAuthTest ≫= fun r => prop_string (rest r) "user";
         userToken := user ≫= user_token;
         userScopes := user ≫= user_scopes |}.

(** The message of the [AuthorizeError] of line 210. *)
Definition authorize_message (e : JSError) (query : InstallationStoreQuery) : string :=
  "Failed to authorize (error: " +:+ error_to_string e +:+ ", query: "
    +:+ JSON.stringify (Query_to_JSON query) +:+ ")".

(** The callable that [toAuthorize()] returns. *)
Definition toAuthorize (st : KVInstallationStore) (req : PreAuthorizeRequest)
  : Async AuthorizeResult :=
  let query := query_of req in
  try_catch (authorize_try st req query)
    (fun e => throw (AuthorizeError (authorize_message e query))).


(** ** Vocabulary of the statements *)

(** The world with its installation namespace replaced. *)
Definition with_storage (ns : KVNamespace) (w : World) : World :=
  {| storage := ns; authTestCacheNamespace := authTestCacheNamespace w;
     remote_calls := remote_calls w |}.

(** The world with its cache namespace replaced. *)
Definition with_cache (ns : KVNamespace) (w : World) : World :=
  {| storage := storage w; authTestCacheNamespace := Some ns;
     remote_calls := remote_calls w |}.

(** The fault schedule lets the next call through. *)
Definition next_call_answers (ns : KVNamespace) (op : KVOp) : Prop :=
  kv_fault ns (length (kv_log ns)) op = None.

(** A namespace whose fault schedule never rejects a call. *)
Definition healthy (ns : KVNamespace) : Prop :=
  forall n op, kv_fault ns n op = None.

(** The calls a namespace has served since an earlier state of it. *)
Definition calls_since (before after : KVNamespace) : list KVOp :=
  drop (length (kv_log before)) (kv_log after).

(** The same namespace later: same data, page size and fault schedule,
    a longer log. *)
Definition kv_logged_all (ops : list KVOp) (ns : KVNamespace) : KVNamespace :=
  {| kv_data := kv_data ns; kv_limit := kv_limit ns;
     kv_log := kv_log ns ++ ops; kv_fault := kv_fault ns |}.

Definition is_put (op : KVOp) : bool :=
  match op with KVPut _ _ _ => true | _ => false end.

(** A [list] call for the given prefix. *)
Definition is_list_of (prefix : string) (op : KVOp) : Prop :=
  match op with
  | KVList p _ => p = prefix
  | _ => False
  end.

(** The value a settled promise was fulfilled with. *)
Definition fulfilled {A} (o : Outcome A) : option A :=
  match o with Ok a => Some a | Throw _ => None end.

(** What a lookup does with the answer of the namespace (lines 90-93 and
    98-101). *)
Definition read_payload (storedString : option string) : Outcome (option Installation) :=
  if truthy storedString then
    match JSON.parse (nullish_or storedString "") with
    | Ok parsed => Ok (Installation_of_JSON parsed)
    | Throw e => Throw e
    end
  else Ok None.

(** The name and the message of an error. *)
Definition error_name (e : JSError) : string :=
  match e with
  | SyntaxError _ => "SyntaxError"
  | TypeError _ => "TypeError"
  | ExternalError _ => "Error"
  | ConfigError _ => "ConfigError"
  | AuthorizeError _ => "AuthorizeError"
  end.

Definition error_message (e : JSError) : string :=
  match e with
  | SyntaxError m | TypeError m | ExternalError m | ConfigError m | AuthorizeError m => m
  end.

(** The query a JSON value stands for: its four properties read back. *)
Definition Query_of_JSON (v : JSValue) : InstallationStoreQuery :=
  let ps := match v with JObj ps => ps | _ => [] end in
  {| isEnterpriseInstall := prop_bool ps "isEnterpriseInstall";
     enterpriseId := prop_string ps "enterpriseId";
     teamId := prop_string ps "teamId";
     userId := prop_string ps "userId" |}.

(** The text carries the error and the query: it names the error, holds
    its message, and holds a JSON text from which the query reads back. *)
Definition carries (text : string) (e : JSError) (q : InstallationStoreQuery) : Prop :=
  exists json,
    text = "Failed to authorize (error: "
           +:+ (if decide (error_message e = "") then error_name e
                else error_name e +:+ ": " +:+ error_message e)
           +:+ ", query: " +:+ json +:+ ")"
    /\ Query_of_JSON <$> fulfilled (JSON.parse json) = Some q.

(** The promise is rejected with an [AuthorizeError] that carries the
    error and the query. *)
Definition rejected_with {A} (o : Outcome A) (e : JSError) (q : InstallationStoreQuery) : Prop :=
  exists text, o = Throw (AuthorizeError text) /\ carries text e q.

(** What a cache hit does with the entry (lines 226-227). *)
Definition read_entry (text : string) : Outcome SlackAPIResponse :=
  match JSON.parse text with
  | Ok v => fromSerializableSlackAPIResponse v
  | Throw e => Throw e
  end.

(** The cache namespace of the world, where there is one, answers every
    call and holds nothing but entries that can be restored. *)
Definition cache_sound (w : World) : Prop :=
  forall c, authTestCacheNamespace w = Some c ->
    healthy c
    /\ forall k text, kv_data c !! k = Some text -> text ≠ "" ->
                      exists r, read_entry text = Ok r.

(** The Slack API answers every [auth.test] call, with a response that
    has a header map of the platform. *)
Definition api_answers (api : SlackAPI) : Prop :=
  forall n token, exists resp,
    auth_test_at api n token = Ok resp /\ Headers_valid (headers resp).

(** The query [{ teamId: T }]. *)
Definition team_query (T : string) : InstallationStoreQuery :=
  {| enterpriseId := None; teamId := Some T; userId := None; isEnterpriseInstall := None |}.

(** The response after a trip through its serializable form. *)
Definition roundtrip (r : SlackAPIResponse) : Outcome SlackAPIResponse :=
  fromSerializableSlackAPIResponse (Serializable_to_JSON (toSerializableSlackAPIResponse r)).

(** ** Sample data for the concrete cases *)

Definition no_faults : nat -> KVOp -> option JSError := fun _ _ => None.

Definition namespace_of (limit : nat) (entries : list (string * string)) : KVNamespace :=
  {| kv_data := list_to_map entries; kv_limit := limit; kv_log := []; kv_fault := no_faults |}.

Definition sample_world (limit : nat) (entries : list (string * string)) : World :=
  {| storage := namespace_of limit entries; authTestCacheNamespace := None; remote_calls := 0 |}.

Definition sample_cache_world (api_calls : nat) (cache : list (string * string)) : World :=
  {| storage := namespace_of 2 []; authTestCacheNamespace := Some (namespace_of 2 cache);
     remote_calls := api_calls |}.

(** A namespace that rejects every call. *)
Definition unavailable_world : World :=
  {| storage := {| kv_data := ∅; kv_limit := 2; kv_log := [];
                   kv_fault := fun _ _ => Some (ExternalError "KV unavailable") |};
     authTestCacheNamespace := None; remote_calls := 0 |}.

Definition sample_env (resolution : option string) : SlackOAuthEnv :=
  {| SLACK_CLIENT_ID := "C"; SLACK_CLIENT_SECRET := "secret";
     SLACK_USER_TOKEN_RESOLUTION := resolution; SLACK_LOGGING_LEVEL := None |}.

(** A token endpoint that never rotates, and one that rejects. *)
Definition idle_rotator : TokenRotator :=
  {| performRotation_at := fun _ _ => Ok None |}.

Definition rejecting_rotator : TokenRotator :=
  {| performRotation_at := fun _ _ => Throw (ExternalError "invalid_refresh_token") |}.

Definition sample_response : SlackAPIResponse :=
  {| rest := [("ok", JBool true); ("team", JStr "Team"); ("bot_id", JStr "B1");
              ("user_id", JStr "UB"); ("user", JStr "bot")];
     headers := [("X-OAuth-Scopes", "chat:write,commands")] |}.

Definition failed_response : SlackAPIResponse :=
  {| rest := [("ok", JBool false); ("error", JStr "invalid_auth")]; headers := [] |}.

(** A response that sets two cookies. *)
Definition two_cookies : SlackAPIResponse :=
  {| rest := [("ok", JBool true)];
     headers := [("Content-Type", "application/json"); ("Set-Cookie", "a=1");
                 ("Set-Cookie", "b=2")] |}.

Definition sample_slack : SlackAPI :=
  {| auth_test_at := fun _ _ => Ok sample_response |}.

Definition failing_slack : SlackAPI :=
  {| auth_test_at := fun _ _ => Ok failed_response |}.

Definition unreachable_slack : SlackAPI :=
  {| auth_test_at := fun _ _ => Throw (ExternalError "fetch failed") |}.

Definition sample_store (resolution : option string) (cache : bool) : KVInstallationStore :=
  {| env := sample_env resolution; tokenRotator := idle_rotator; slack := sample_slack;
     authTestCacheEnabled := cache; authTestCacheExpirationSecs := 600 |}.

(** A store with the cache enabled whose [auth.test] calls fail. *)
Definition failing_store : KVInstallationStore :=
  {| env := sample_env None; tokenRotator := idle_rotator; slack := failing_slack;
     authTestCacheEnabled := true; authTestCacheExpirationSecs := 600 |}.

Definition sample_installation (enterprise team usr : option string) : Installation :=
  {| enterprise_id := enterprise; team_id := team; user_id := usr;
     is_enterprise_install := Some false;
     bot_token := Some "xoxb-1"; bot_refresh_token := Some "xoxe-1";
     bot_token_expires_at := Some (Number_of_Z 1700000000); bot_scopes := Some ["commands"];
     user_token := Some "xoxp-1"; user_refresh_token := None;
     user_token_expires_at := None; user_scopes := Some ["search:read"];
     other_properties := [("app_id", JStr "A1")] |}.

(** The text [save] writes for an installation. *)
Definition stored (i : Installation) : string := JSON.stringify (Installation_to_JSON i).

(** Six keys of team T1 on three pages of two, next to keys of others. *)
Definition paged_world : World :=
  sample_world 2
    [("C/_:T1", "b"); ("C/_:T1:U1", "u1"); ("C/_:T1:U2", "u2"); ("C/_:T1:U3", "u3");
     ("C/_:T1:U4", "u4"); ("C/_:T1:U5", "u5"); ("C/_:T2", "other"); ("C/E1:T1", "other");
     ("D/_:T1", "other")].

(** U1 of team T1 installed the app; U2 of team T2 is acting. *)
Definition sample_request : PreAuthorizeRequest :=
  {| context := mkContext None None (Some "T1") (Some "U1") None (Some "T2") (Some "U2") |}.

Definition installed_world : World :=
  sample_world 2
    [("C/_:T1", stored (sample_installation None (Some "T1") (Some "U1")));
     ("C/_:T1:U1", stored (sample_installation None (Some "T1") (Some "U1")));
     ("C/_:T2:U2", stored (sample_installation None (Some "T2") (Some "U2")))].

(** The world after [save] of an installation of team T10. *)
Definition world_of_T10 : World :=
  (save (sample_store None false) (sample_installation None (Some "T10") (Some "U7"))
     (sample_world 2 [])).2.

(** ** Vocabulary of the further properties *)

(** What may follow a value in a JSON text: nothing, a comma or a
    closing bracket. *)
Definition delimited (rest : string) : Prop :=
  match rest with
  | EmptyString => True
  | String c _ => c = ","%char \/ c = "]"%char \/ c = "}"%char
  end.

(** Every character is a digit. *)
Fixpoint all_digits (s : string) : bool :=
  match s with
  | String c r => JSON.is_digit c && all_digits r
  | EmptyString => true
  end.

(** What follows a run of digits is not a digit. *)
Definition stops (rest : string) : Prop :=
  match rest with
  | EmptyString => True
  | String c _ => JSON.is_digit c = false
  end.

(** The depth of recursion the reader needs for a value. *)
Fixpoint need (v : JSValue) : nat :=
  match v with
  | JArr items =>
      S ((fix go (l : list JSValue) : nat :=
            match l with
            | [] => 0
            | x :: r => S (Nat.max (need x) (go r))
            end) items)
  | JObj properties =>
      S ((fix go (l : list (string * JSValue)) : nat :=
            match l with
            | [] => 0
            | kv :: r => S (Nat.max (need kv.2) (go r))
            end) properties)
  | _ => 1
  end.

(** The same depth for the items of an array and the members of an object. *)
Definition need_elems : list JSValue -> nat :=
  fix go (l : list JSValue) : nat :=
    match l with
    | [] => 0
    | x :: r => S (Nat.max (need x) (go r))
    end.

Definition need_members : list (string * JSValue) -> nat :=
  fix go (l : list (string * JSValue)) : nat :=
    match l with
    | [] => 0
    | kv :: r => S (Nat.max (need kv.2) (go r))
    end.

(** The text of one member of an object. *)
Definition member_text (kv : string * JSValue) : string :=
  let (k, x) := kv in JSON.quote k +:+ ":" +:+ JSON.stringify x.

(** The reader returns the value it is given the text of. *)
Definition reads_back (x : JSValue) : Prop :=
  forall fuel rest, need x <= fuel -> delimited rest ->
    JSON.parse_value fuel (JSON.stringify x +:+ rest) = Some (x, rest).



(** A namespace that rejects its third call. *)
Definition flaky_world : World :=
  {| storage := {| kv_data := list_to_map [("C/_:T1", "b"); ("C/_:T1:U1", "u1");
                                           ("C/_:T1:U2", "u2"); ("C/_:T2", "other")];
                   kv_limit := 2; kv_log := [];
                   kv_fault := fun n _ => if Nat.eqb n 3 then Some (ExternalError "timeout")
                                          else None |};
     authTestCacheNamespace := None; remote_calls := 0 |}.

(** The values [entries()] yields for a lower-cased name: every
    [set-cookie] header on its own, the combined value for another name. *)
Definition entry_values (h : Headers) (name : string) : list string :=
  if decide (name = "set-cookie") then header_values h name
  else [join ", " (header_values h name)].

(** The string has no colon, the separator of the key segments. *)
Fixpoint colon_free (s : string) : bool :=
  match s with
  | EmptyString => true
  | String c r => negb (Ascii.eqb c ":") && colon_free r
  end.

(** ** Sample data for the further properties *)

(** A namespace that rejects its second call. *)
Definition second_call_fails_world : World :=
  {| storage := {| kv_data := ∅; kv_limit := 2; kv_log := [];
                   kv_fault := fun n _ => if Nat.eqb n 1 then Some (ExternalError "write failed")
                                          else None |};
     authTestCacheNamespace := None; remote_calls := 0 |}.

(** An installation for a whole enterprise. *)
Definition org_installation : Installation :=
  {| enterprise_id := Some "E1"; team_id := Some "T1"; user_id := Some "U1";
     is_enterprise_install := Some true;
     bot_token := Some "xoxb-9"; bot_refresh_token := None;
     bot_token_expires_at := None; bot_scopes := Some ["commands"];
     user_token := None; user_refresh_token := None;
     user_token_expires_at := None; user_scopes := None;
     other_properties := [] |}.

(** The keys of two enterprises and of a team without enterprise. *)
Definition enterprise_world : World :=
  sample_world 2
    [("C/E1:T1", "a"); ("C/E1:T1:U1", "b"); ("C/E1:T2", "c"); ("C/E1:_", "d");
     ("C/E2:T1", "other"); ("C/_:T1", "other")].

Definition new_tokens : RefreshedTokens :=
  {| new_access_token := "xoxb-2"; new_refresh_token := "xoxe-2";
     new_token_expires_at := Number_of_Z 1700043200 |}.

(** A token endpoint that rotates the bot token and not the user token. *)
Definition bot_rotator : TokenRotator :=
  {| performRotation_at := fun _ targets =>
       match target_bot targets with
       | Some _ => Ok (Some {| refreshed_bot := Some new_tokens; refreshed_user := None |})
       | None => Ok None
       end |}.

(** An API that reports the token it was called with as the user. *)
Definition echo_response (token : option string) : SlackAPIResponse :=
  {| rest := [("ok", JBool true); ("user", JStr (default "anonymous" token))];
     headers := [] |}.

Definition echo_slack : SlackAPI :=
  {| auth_test_at := fun _ token => Ok (echo_response token) |}.

(** The cache entry [callAuthTest] writes for the sample response. *)
Definition cached_text : string :=
  JSON.stringify (Serializable_to_JSON (toSerializableSlackAPIResponse sample_response)).

(** Stores over the token endpoints and APIs above, without the cache. *)
Definition rotating_store : KVInstallationStore :=
  {| env := sample_env None; tokenRotator := bot_rotator; slack := echo_slack;
     authTestCacheEnabled := false; authTestCacheExpirationSecs := 600 |}.

Definition rejecting_store : KVInstallationStore :=
  {| env := sample_env None; tokenRotator := rejecting_rotator; slack := sample_slack;
     authTestCacheEnabled := false; authTestCacheExpirationSecs := 600 |}.

Definition echo_store : KVInstallationStore :=
  {| env := sample_env None; tokenRotator := idle_rotator; slack := echo_slack;
     authTestCacheEnabled := false; authTestCacheExpirationSecs := 600 |}.

(** A cache that holds the sample response, and one that holds a page of
    HTML, under the same token. *)
Definition cache_hit_world : World := sample_cache_world 0 [("xoxb-1", cached_text)].

Definition corrupt_cache_world : World := sample_cache_world 0 [("xoxb-1", "<html>")].

Definition bot_client : SlackAPIClient := {| client_token := Some "xoxb-1"; client_logLevel := None |}.

Definition other_client : SlackAPIClient := {| client_token := Some "xoxp-1"; client_logLevel := None |}.

(** A token endpoint that answers with an object without tokens. *)
Definition empty_rotator : TokenRotator :=
  {| performRotation_at := fun _ _ => Ok (Some {| refreshed_bot := None;
                                                    refreshed_user := None |}) |}.

(** A store with the cache enabled over that endpoint. *)
Definition cached_store : KVInstallationStore :=
  {| env := sample_env None; tokenRotator := empty_rotator; slack := sample_slack;
     authTestCacheEnabled := true; authTestCacheExpirationSecs := 600 |}.

(** An installation whose bot token expires at a fraction of a second. *)
Definition fractional_installation : Installation :=
  {| enterprise_id := None; team_id := Some "T1"; user_id := Some "U1";
     is_enterprise_install := Some false;
     bot_token := Some "xoxb-1"; bot_refresh_token := Some "xoxe-1";
     bot_token_expires_at := Some (Number_of_decimal 17000000005 (-1));
     bot_scopes := Some ["commands"];
     user_token := Some "xoxp-1"; user_refresh_token := None;
     user_token_expires_at := None; user_scopes := Some ["search:read"];
     other_properties := [("app_id", JStr "A1")] |}.

(** That installation stored for team T1, and an empty cache. *)
Definition fractional_world : World :=
  {| storage := namespace_of 2 [("C/_:T1", stored fractional_installation);
                                ("C/_:T1:U1", stored fractional_installation)];
     authTestCacheNamespace := Some (namespace_of 2 []); remote_calls := 0 |}.



(** A store whose [auth.test] calls throw, as the stock client does on a
    reply that is not ok. *)
Definition unreachable_store : KVInstallationStore :=
  {| env := sample_env None; tokenRotator := idle_rotator; slack := unreachable_slack;
     authTestCacheEnabled := false; authTestCacheExpirationSecs := 600 |}.

(** A response with a header that occurs twice, the second time empty. *)
Definition trailing_empty : SlackAPIResponse :=
  {| rest := [("ok", JBool true)]; headers := [("k", "x"); ("k", "")] |}.

(** A cache entry with a header name that is not a token. *)
Definition invalid_entry_text : string :=
  JSON.stringify (JObj [("ok", JBool true); ("headers", JObj [("bad name", JStr "x")])]).


(** * Properties *)

(** ** [JSON.parse] after [JSON.stringify] *)

Lemma string_app_cons x (a b : string) : String x a +:+ b = String x (a +:+ b).
Proof. reflexivity. Qed.

Lemma string_app_assoc (a b c : string) : (a +:+ b) +:+ c = a +:+ (b +:+ c).
Proof. induction a as [|x a IH]; [done|]. rewrite !string_app_cons. by f_equal. Qed.

Lemma string_app_length (a b : string) :
  String.length (a +:+ b) = String.length a + String.length b.
Proof. induction a as [|x a IH]; [done|]. rewrite string_app_cons. simpl. by f_equal. Qed.

Lemma string_app_nil_r (a : string) : a +:+ "" = a.
Proof. induction a as [|x a IH]; [done|]. rewrite string_app_cons. by f_equal. Qed.

Lemma prefix_app_same a b c : String.prefix (a +:+ b) (a +:+ c) = String.prefix b c.
Proof.
  induction a as [|x a IH]; simpl; [done|].
  destruct (ascii_dec x x); [apply IH|done].
Qed.

(** *** Strings *)

Lemma parse_string_body_escape_char c t :
  JSON.parse_string_body (JSON.escape_char c +:+ t)
  = match JSON.parse_string_body t with
    | Some (x, r) => Some (String c x, r)
    | None => None
    end.
Proof. destruct c as [[] [] [] [] [] [] [] []]; reflexivity. Qed.

Lemma parse_string_body_escape s rest :
  JSON.parse_string_body (JSON.escape_string s +:+ String JSON.dquote rest) = Some (s, rest).
Proof.
  induction s as [|c s IH]; [reflexivity|].
  cbn [JSON.escape_string]. rewrite string_app_assoc, parse_string_body_escape_char, IH.
  reflexivity.
Qed.

Lemma parse_quote s rest :
  JSON.quote s +:+ rest
  = String JSON.dquote (JSON.escape_string s +:+ String JSON.dquote rest).
Proof. unfold JSON.quote. by rewrite string_app_cons, string_app_assoc. Qed.

(** *** Numbers *)

Lemma Number_eq (x y : Number) :
  mantissa x = mantissa y -> exponent x = exponent y -> x = y.
Proof.
  destruct x as [m e H], y as [m' e' H']. simpl. intros -> ->.
  f_equal. apply Eqdep_dec.UIP_dec, Bool.bool_dec.
Qed.

Lemma strip_zeros_pow (j : nat) : forall fuel m e,
  (m mod 10 <> 0)%Z -> j <= fuel ->
  strip_zeros fuel (m * 10 ^ Z.of_nat j) e = (m, (e + Z.of_nat j)%Z).
Proof.
  induction j as [|j IH]; intros fuel m e Hm Hf.
  - rewrite Z.mul_1_r, Z.add_0_r. destruct fuel; simpl; [done|].
    by rewrite (proj2 (Z.eqb_neq _ _) Hm).
  - destruct fuel as [|f]; [lia|]. cbn [strip_zeros].
    rewrite Nat2Z.inj_succ, Z.pow_succ_r by lia.
    replace (m * (10 * 10 ^ Z.of_nat j))%Z with (m * 10 ^ Z.of_nat j * 10)%Z by lia.
    rewrite Z.mod_mul by lia. rewrite Z.eqb_refl. rewrite Z.div_mul by lia.
    rewrite IH by (done || lia). f_equal. lia.
Qed.

Lemma log2_pow10 (m : Z) (j : nat) :
  (m <> 0)%Z -> j <= S (Z.to_nat (Z.log2 (Z.abs (m * 10 ^ Z.of_nat j)))).
Proof.
  intros Hm.
  assert (H10 : (2 ^ Z.of_nat j <= 10 ^ Z.of_nat j)%Z) by (apply Z.pow_le_mono_l; lia).
  assert (Hpos : (0 < 10 ^ Z.of_nat j)%Z) by (apply Z.pow_pos_nonneg; lia).
  assert (Hle : (2 ^ Z.of_nat j <= Z.abs (m * 10 ^ Z.of_nat j))%Z).
  { rewrite Z.abs_mul, (Z.abs_eq (10 ^ _)) by lia. nia. }
  apply Z.log2_le_mono in Hle. rewrite Z.log2_pow2 in Hle by lia. lia.
Qed.

(** A canonical decimal scaled by a power of ten is the same number. *)
Lemma Number_of_decimal_scaled (x : Number) (j : nat) :
  mantissa x <> 0%Z ->
  Number_of_decimal (mantissa x * 10 ^ Z.of_nat j) (exponent x - Z.of_nat j) = x.
Proof.
  intros Hm. pose proof (number_canonical x) as Hc. unfold canonical in Hc.
  rewrite (proj2 (Z.eqb_neq _ _) Hm) in Hc. apply negb_true_iff, Z.eqb_neq in Hc.
  unfold Number_of_decimal.
  assert (Hne : (mantissa x * 10 ^ Z.of_nat j <> 0)%Z).
  { assert (0 < 10 ^ Z.of_nat j)%Z by (apply Z.pow_pos_nonneg; lia). nia. }
  rewrite (proj2 (Z.eqb_neq _ _) Hne).
  rewrite strip_zeros_pow by (done || by apply log2_pow10).
  replace (exponent x - Z.of_nat j + Z.of_nat j)%Z with (exponent x) by lia.
  destruct (bool_dec _ _) as [H|H]; [|by destruct H; apply number_canonical].
  by apply Number_eq.
Qed.

Lemma Number_of_decimal_zero e : Number_of_decimal 0 e = Number_zero.
Proof. reflexivity. Qed.

(** **** Runs of digits *)

Lemma digit_run_app (a rest : string) :
  all_digits a = true -> stops rest -> JSON.digit_run (a +:+ rest) = (a, rest).
Proof.
  induction a as [|c a IH]; intros Ha Hr.
  - change ("" +:+ rest) with rest. destruct rest as [|c r]; [done|]. simpl in *. by rewrite Hr.
  - simpl in Ha. apply andb_prop in Ha as [Hc Ha]. rewrite string_app_cons. simpl.
    by rewrite Hc, IH.
Qed.

Lemma all_digits_app (a b : string) :
  all_digits (a +:+ b) = all_digits a && all_digits b.
Proof.
  induction a as [|c a IH]; [done|]. rewrite string_app_cons. simpl.
  by rewrite IH, andb_assoc.
Qed.

Lemma all_digits_zeros n : all_digits (zeros n) = true.
Proof. induction n; [done|]. simpl. done. Qed.

Lemma digits_value_app (a b : string) : forall acc,
  JSON.digits_value acc (a +:+ b) = JSON.digits_value (JSON.digits_value acc a) b.
Proof. induction a as [|c a IH]; intros acc; [done|]. rewrite string_app_cons. simpl. apply IH. Qed.

Lemma digits_value_zeros n : forall acc,
  JSON.digits_value acc (zeros n) = (acc * 10 ^ Z.of_nat n)%Z.
Proof.
  induction n as [|n IH]; intros acc; [simpl; lia|].
  cbn [zeros JSON.digits_value]. rewrite IH. change (JSON.digit_of "0") with (Some 0%Z). simpl default.
  rewrite Nat2Z.inj_succ, Z.pow_succ_r by lia. lia.
Qed.

Lemma string_take_drop n s : string_take n s +:+ string_drop n s = s.
Proof.
  revert s. induction n as [|n IH]; intros [|c s]; try done.
  simpl. rewrite string_app_cons. by rewrite IH.
Qed.

Lemma string_drop_length n s : String.length (string_drop n s) = String.length s - n.
Proof. revert s. induction n as [|n IH]; intros [|c s]; try done. simpl. apply IH. Qed.

Lemma digit_of_pretty_N_char d :
  (d < 10)%N -> JSON.digit_of (pretty_N_char d) = Some (Z.of_N d).
Proof.
  intros H.
  assert (d = 0 \/ d = 1 \/ d = 2 \/ d = 3 \/ d = 4 \/ d = 5 \/ d = 6 \/ d = 7 \/ d = 8 \/ d = 9)%N
    as Hd by lia.
  repeat (destruct Hd as [->|Hd]; [reflexivity|]). by subst.
Qed.

Lemma all_digits_pretty x : forall s,
  all_digits s = true -> all_digits (pretty_N_go x s) = true.
Proof.
  induction (N.lt_wf_0 x) as [x _ IH]; intros s Hs.
  assert (x = 0 \/ 0 < x)%N as [->|Hx] by lia; [by rewrite pretty_N_go_0|].
  rewrite pretty_N_go_step by done. apply IH; [by apply N.div_lt|].
  simpl. rewrite Hs, andb_true_r. unfold JSON.is_digit.
  rewrite digit_of_pretty_N_char; [done|]. apply N.mod_lt. lia.
Qed.

Lemma digits_value_pretty x :
  exists k : nat, forall s acc,
    JSON.digits_value acc (pretty_N_go x s) = JSON.digits_value (acc * 10 ^ Z.of_nat k + Z.of_N x)%Z s.
Proof.
  induction (N.lt_wf_0 x) as [x _ IH].
  assert (x = 0 \/ 0 < x)%N as [->|Hx] by lia.
  { exists 0. intros s acc. rewrite pretty_N_go_0. f_equal. simpl. lia. }
  assert (Hmod : (x `mod` 10 < 10)%N) by (apply N.mod_lt; lia).
  assert (Hdm := N.div_mod x 10 ltac:(lia)).
  destruct (IH (x `div` 10)%N) as [k Hk]; [by apply N.div_lt|].
  exists (S k). intros s acc. rewrite pretty_N_go_step, Hk by done.
  cbn [JSON.digits_value]. rewrite digit_of_pretty_N_char by done. simpl default.
  f_equal. rewrite Nat2Z.inj_succ, Z.pow_succ_r by lia. lia.
Qed.

(** The digits of a positive number: a digit other than zero, then digits. *)
Lemma pretty_pos_head x s :
  (0 < x)%N ->
  exists c r, pretty_N_go x s = String c r
    /\ JSON.is_digit c = true /\ (N_of_ascii c =? 48)%N = false.
Proof.
  revert s. induction (N.lt_wf_0 x) as [x _ IH]; intros s Hx.
  assert (Hmod : (x `mod` 10 < 10)%N) by (apply N.mod_lt; lia).
  assert (Hdm := N.div_mod x 10 ltac:(lia)).
  rewrite pretty_N_go_step by done.
  assert (x `div` 10 = 0 \/ 0 < x `div` 10)%N as [H0|Hpos] by lia.
  - rewrite H0, pretty_N_go_0. eexists _, _. split; [reflexivity|].
    assert (x `mod` 10 = 1 \/ x `mod` 10 = 2 \/ x `mod` 10 = 3 \/ x `mod` 10 = 4
            \/ x `mod` 10 = 5 \/ x `mod` 10 = 6 \/ x `mod` 10 = 7 \/ x `mod` 10 = 8
            \/ x `mod` 10 = 9)%N as Hd by lia.
    repeat (destruct Hd as [->|Hd]; [by split|]). rewrite Hd. by split.
  - apply IH; [by apply N.div_lt|done].
Qed.

Lemma stops_delimited rest : delimited rest -> stops rest.
Proof. destruct rest as [|c r]; [done|]. intros [-> | [-> | ->]]; reflexivity. Qed.

Lemma read_fraction_delimited rest : delimited rest -> JSON.read_fraction rest = Some ("", rest).
Proof. destruct rest as [|c r]; [done|]. intros [-> | [-> | ->]]; reflexivity. Qed.

Lemma read_exponent_delimited rest : delimited rest -> JSON.read_exponent rest = Some (0%Z, rest).
Proof. destruct rest as [|c r]; [done|]. intros [-> | [-> | ->]]; reflexivity. Qed.

Lemma read_fraction_run ds rest :
  all_digits ds = true -> ds <> "" -> stops rest ->
  JSON.read_fraction (String "." (ds +:+ rest)) = Some (ds, rest).
Proof.
  intros Ha Hne Hr. unfold JSON.read_fraction. change (N_of_ascii "." =? 46)%N with true. cbv iota.
  rewrite digit_run_app by done. by destruct ds.
Qed.

Lemma read_fraction_exponent r : JSON.read_fraction (String "e" r) = Some ("", String "e" r).
Proof. reflexivity. Qed.

Lemma pretty_N_digits (x : N) :
  all_digits (pretty x) = true /\ pretty x <> "" /\ JSON.digits_value 0 (pretty x) = Z.of_N x.
Proof.
  unfold pretty, pretty_N. case_decide as Hx; [by subst|].
  split; [by apply all_digits_pretty|]. split.
  - destruct (pretty_pos_head x "") as (c & r & -> & _); [lia|done].
  - destruct (digits_value_pretty x) as [k Hk]. rewrite Hk. simpl. lia.
Qed.

Lemma read_exponent_run (z : Z) rest :
  stops rest ->
  JSON.read_exponent (String "e" ((if (z <? 0)%Z then "-" else "+")
                             +:+ pretty (Z.to_N (Z.abs z)) +:+ rest))
  = Some (z, rest).
Proof.
  intros Hr. destruct (pretty_N_digits (Z.to_N (Z.abs z))) as (Ha & Hne & Hv).
  destruct (z <? 0)%Z eqn:Hz; cbv iota; rewrite !string_app_cons; change ("" +:+ ?s) with s;
    unfold JSON.read_exponent;
    change (N_of_ascii "e" =? 101)%N with true; cbv iota; cbn [orb];
    [change (N_of_ascii "-" =? 45)%N with true
    |change (N_of_ascii "+" =? 45)%N with false; change (N_of_ascii "+" =? 43)%N with true];
    cbv iota; rewrite digit_run_app by done;
    (destruct (pretty (Z.to_N (Z.abs z))) eqn:E; [done|]); rewrite Hv; f_equal; f_equal.
  - apply Z.ltb_lt in Hz. lia.
  - apply Z.ltb_ge in Hz. lia.
Qed.

Ltac decimal_done :=
  apply (f_equal Some); apply (f_equal2 pair); [apply (f_equal2 pair)|reflexivity];
  [try reflexivity; change (10 ^ Z.of_nat 0)%Z with 1%Z; lia
  |cbn [String.length] in *; lia].

Lemma leading_zero_head c r : (N_of_ascii c =? 48)%N = false -> JSON.leading_zero (String c r) = false.
Proof. intros H. simpl. by rewrite H. Qed.

Lemma string_take_head n c r :
  0 < n -> exists t, string_take n (String c r) = String c t.
Proof. destruct n; [lia|]. simpl. eauto. Qed.

Lemma zeros_length n : String.length (zeros n) = n.
Proof. induction n; simpl; congruence. Qed.

Lemma read_decimal_text (s : string) (e : Z) (rest : string) c r :
  s = String c r -> all_digits s = true -> (N_of_ascii c =? 48)%N = false ->
  delimited rest ->
  exists j : nat,
    JSON.read_decimal (decimal_text s e +:+ rest)
    = Some ((JSON.digits_value 0 s * 10 ^ Z.of_nat j)%Z, (e - Z.of_nat j)%Z, rest).
Proof.
  intros Hs Ha Hc Hd.
  assert (Hstop := stops_delimited _ Hd).
  assert (Hk : String.length s = S (String.length r)) by by subst.
  unfold decimal_text.
  set (k := Z.of_nat (String.length s)). set (n := (k + e)%Z).
  destruct ((k <=? n)%Z && (n <=? 21)%Z) eqn:C1.
  { apply andb_prop in C1 as [C1 _]. apply Z.leb_le in C1.
    exists (Z.to_nat (n - k)). unfold JSON.read_decimal.
    rewrite digit_run_app; [|by rewrite all_digits_app, Ha, all_digits_zeros|done].
    rewrite Hs at 1 2. rewrite string_app_cons. rewrite leading_zero_head by done.
    cbn [String.eqb orb].
    rewrite read_fraction_delimited, read_exponent_delimited by done.
    rewrite string_app_nil_r, digits_value_app, digits_value_zeros.
    subst n k. decimal_done. }
  destruct ((0 <? n)%Z && (n <=? 21)%Z) eqn:C2.
  { apply andb_prop in C2 as [C2 C2']. apply Z.ltb_lt in C2. apply Z.leb_le in C2'.
    assert (Hnk : (n < k)%Z).
    { destruct (Z.leb_spec k n) as [H|H]; [|done]. destruct (Z.leb_spec n 21); [done|lia]. }
    exists 0. rewrite !string_app_assoc. unfold JSON.read_decimal.
    assert (Hta : all_digits (string_take (Z.to_nat n) s) = true
                  /\ all_digits (string_drop (Z.to_nat n) s) = true).
    { apply andb_prop. rewrite <- all_digits_app. by rewrite string_take_drop. }
    destruct Hta as [Ht Hdr].
    rewrite digit_run_app; [|done|done].
    destruct (string_take_head (Z.to_nat n) c r) as [t Et]; [lia|].
    rewrite <- Hs in Et. rewrite Et at 1 2. rewrite leading_zero_head by done.
    cbn [String.eqb orb].
    rewrite string_app_cons. change ("" +:+ ?t) with t.
    rewrite read_fraction_run; [|done| |done].
    2:{ intros E. apply (f_equal String.length) in E. rewrite string_drop_length in E.
        simpl in E. unfold k in Hnk. lia. }
    rewrite read_exponent_delimited by done.
    rewrite string_take_drop, string_drop_length.
    subst n k. decimal_done. }
  destruct ((-6 <? n)%Z && (n <=? 0)%Z) eqn:C3.
  { apply andb_prop in C3 as [_ C3]. apply Z.leb_le in C3.
    exists 0. rewrite !string_app_cons. change ("" +:+ ?t) with t.
    rewrite !string_app_assoc. unfold JSON.read_decimal. cbn [JSON.digit_run].
    change (JSON.is_digit "0") with true. change (JSON.is_digit ".") with false. cbv iota.
    change (String.eqb "0" "" || JSON.leading_zero "0") with false. cbv iota.
    rewrite <- string_app_assoc.
    rewrite read_fraction_run; [| by rewrite all_digits_app, all_digits_zeros | | done].
    2:{ rewrite Hs. destruct (zeros _); done. }
    rewrite read_exponent_delimited by done.
    rewrite string_app_cons. cbn [JSON.digits_value]. change (JSON.digit_of "0") with (Some 0%Z).
    simpl default. change (10 * 0 + 0)%Z with 0%Z.
    change ("" +:+ ?t) with t.
    rewrite digits_value_app, digits_value_zeros, string_app_length, zeros_length.
    rewrite Z.mul_0_l. subst n k. decimal_done. }
  exists 0. rewrite Hs. cbv iota. rewrite ?string_app_assoc, ?string_app_cons.
  unfold JSON.read_decimal.
  assert (Hcd : JSON.is_digit c = true) by (rewrite Hs in Ha; simpl in Ha; by apply andb_prop in Ha as [? _]).
  assert (Hr : all_digits r = true) by (rewrite Hs in Ha; simpl in Ha; by apply andb_prop in Ha as [_ ?]).
  destruct r as [|c2 r2].
  - repeat (rewrite ?string_app_cons; change ("" +:+ ?t) with t).
    cbn [JSON.digit_run]. rewrite Hcd. change (JSON.is_digit "e") with false. cbv iota.
    rewrite leading_zero_head by done. cbn [String.eqb orb].
    rewrite read_fraction_exponent.
    rewrite (read_exponent_run (n - 1) rest Hstop).
    rewrite string_app_nil_r. subst n k. rewrite Hs. decimal_done.
  - repeat (rewrite ?string_app_cons; change ("" +:+ ?t) with t).
    cbn [JSON.digit_run]. rewrite Hcd. change (JSON.is_digit ".") with false. cbv iota.
    rewrite leading_zero_head by done. cbn [String.eqb orb].
    rewrite <- (string_app_cons c2 r2).
    rewrite read_fraction_run; [|done|done|done].
    rewrite (read_exponent_run (n - 1) rest Hstop).
    rewrite string_app_cons. change ("" +:+ ?t) with t.
    subst n k. rewrite Hs. decimal_done.
Qed.

Lemma read_decimal_head t m e rest :
  JSON.read_decimal t = Some (m, e, rest) ->
  exists c r, t = String c r /\ JSON.is_digit c = true.
Proof.
  unfold JSON.read_decimal. destruct t as [|c r]; [done|]. simpl.
  destruct (JSON.is_digit c) eqn:Hc; [eauto|done].
Qed.

Lemma is_digit_range c : JSON.is_digit c = true -> (48 <= N_of_ascii c <= 57)%N.
Proof.
  unfold JSON.is_digit, JSON.digit_of.
  destruct ((48 <=? N_of_ascii c)%N && (N_of_ascii c <=? 57)%N) eqn:E; [|done].
  intros _. apply andb_prop in E as [E1 E2].
  apply N.leb_le in E1. apply N.leb_le in E2. done.
Qed.

Lemma read_sign_digit c r : JSON.is_digit c = true -> JSON.read_sign (String c r) = (false, String c r).
Proof.
  intros H. apply is_digit_range in H. unfold JSON.read_sign.
  replace (N_of_ascii c =? 45)%N with false; [done|]. symmetry. apply N.eqb_neq. lia.
Qed.

Lemma Number_zero_unique (x : Number) : mantissa x = 0%Z -> x = Number_zero.
Proof.
  intros Hm. apply Number_eq; [done|]. pose proof (number_canonical x) as Hc.
  unfold canonical in Hc. rewrite Hm in Hc. simpl in Hc. by apply Z.eqb_eq in Hc.
Qed.

(** The digits and the scale read from the text of a number that is not
    zero, sign apart. *)
Lemma read_decimal_Number (x : Number) rest :
  mantissa x <> 0%Z -> delimited rest ->
  exists j : nat,
    JSON.read_decimal (decimal_text (pretty (Z.to_N (Z.abs (mantissa x)))) (exponent x) +:+ rest)
    = Some ((Z.abs (mantissa x) * 10 ^ Z.of_nat j)%Z, (exponent x - Z.of_nat j)%Z, rest).
Proof.
  intros Hm Hd.
  set (a := Z.to_N (Z.abs (mantissa x))).
  assert (Ha : (0 < a)%N) by (unfold a; lia).
  destruct (pretty_N_digits a) as (Hall & _ & Hv).
  assert (Hp : pretty a = pretty_N_go a "").
  { unfold pretty, pretty_N. rewrite decide_False by lia. done. }
  destruct (pretty_pos_head a "" Ha) as (c & r & E & _ & Hc).
  rewrite <- Hp in E.
  destruct (read_decimal_text (pretty a) (exponent x) rest c r E Hall Hc Hd) as [j Hj].
  exists j. rewrite Hj, Hv. unfold a. by rewrite Z2N.id by lia.
Qed.

(** The reader returns the number it is given the text of. *)
Lemma parse_number_toString (x : Number) rest :
  delimited rest -> JSON.parse_number (Number_toString x +:+ rest) = Some (x, rest).
Proof.
  intros Hd. unfold Number_toString.
  destruct (Z.eqb_spec (mantissa x) 0) as [H0|Hm].
  { rewrite (Number_zero_unique x H0). rewrite string_app_cons. change ("" +:+ ?t) with t.
    unfold JSON.parse_number. rewrite read_sign_digit by done.
    unfold JSON.read_decimal. cbn [JSON.digit_run]. change (JSON.is_digit "0") with true. cbv iota.
    assert (Hrun : JSON.digit_run rest = ("", rest)) by apply (digit_run_app "" rest eq_refl), stops_delimited, Hd.
    rewrite Hrun. change (String.eqb "0" "" || JSON.leading_zero "0") with false. cbv iota.
    by rewrite read_fraction_delimited, read_exponent_delimited. }
  destruct (read_decimal_Number x rest Hm Hd) as [j Hj].
  unfold JSON.parse_number.
  destruct (Z.ltb_spec (mantissa x) 0) as [Hneg|Hpos].
  - rewrite string_app_assoc, string_app_cons. change ("" +:+ ?t) with t.
    unfold JSON.read_sign. change (N_of_ascii "-" =? 45)%N with true. cbv iota.
    rewrite Hj. f_equal. f_equal.
    replace (- (Z.abs (mantissa x) * 10 ^ Z.of_nat j))%Z
      with (mantissa x * 10 ^ Z.of_nat j)%Z by lia.
    by apply Number_of_decimal_scaled.
  - change ("" +:+ ?t) with t.
    destruct (read_decimal_head _ _ _ _ Hj) as (c & r & E & Hc).
    rewrite E, read_sign_digit by done. rewrite <- E, Hj. f_equal. f_equal.
    replace (Z.abs (mantissa x)) with (mantissa x) by lia.
    by apply Number_of_decimal_scaled.
Qed.

(** The text of a number starts with a digit or with the sign. *)
Lemma Number_toString_head (x : Number) :
  exists c r, Number_toString x = String c r
    /\ ((48 <= N_of_ascii c <= 57)%N \/ c = "-"%char).
Proof.
  unfold Number_toString.
  destruct (Z.eqb_spec (mantissa x) 0) as [H0|Hm].
  { eexists _, _. split; [reflexivity|]. left. simpl. lia. }
  destruct (Z.ltb_spec (mantissa x) 0) as [Hneg|Hpos].
  - eexists _, _. split; [reflexivity|]. by right.
  - change ("" +:+ ?t) with t.
    destruct (read_decimal_Number x "" Hm I) as [j Hj].
    rewrite string_app_nil_r in Hj.
    destruct (read_decimal_head _ _ _ _ Hj) as (c & r & E & Hc).
    exists c, r. split; [done|]. left. by apply is_digit_range.
Qed.

Lemma JSValue_induction (P : JSValue -> Prop) :
  P JNull -> (forall b, P (JBool b)) -> (forall n, P (JNum n)) -> (forall s, P (JStr s)) ->
  (forall l, Forall P l -> P (JArr l)) ->
  (forall ps, Forall (fun kv => P kv.2) ps -> P (JObj ps)) ->
  forall v, P v.
Proof.
  intros Hnull Hbool Hnum Hstr Harr Hobj.
  fix IH 1. intros [| b | n | s | l | ps].
  - exact Hnull.
  - apply Hbool.
  - apply Hnum.
  - apply Hstr.
  - apply Harr. induction l as [|x l IHl]; constructor; [apply IH | exact IHl].
  - apply Hobj. induction ps as [|[k x] ps IHps]; constructor; [apply IH | exact IHps].
Qed.

(** No value starts with white space or with a closing bracket. *)
Lemma stringify_head v :
  exists c r, JSON.stringify v = String c r
    /\ JSON.is_ws c = false
    /\ (N_of_ascii c =? 93)%N = false /\ (N_of_ascii c =? 125)%N = false.
Proof.
  destruct v as [| [] | n | s | l | ps]; try (by eexists _, _).
  destruct (Number_toString_head n) as (c & r & E & Hc).
  exists c, r. split; [exact E|]. unfold JSON.is_ws.
  destruct Hc as [Hc | ->]; [|done].
  repeat split; repeat (apply orb_false_intro); apply N.eqb_neq; lia.
Qed.

Lemma skip_ws_head c r : JSON.is_ws c = false -> JSON.skip_ws (String c r) = String c r.
Proof. intros H. simpl. by rewrite H. Qed.

Lemma substring_all s : String.substring 0 (String.length s) s = s.
Proof. induction s as [|c s IH]; [done|]. simpl. by rewrite IH. Qed.

(** Decides the tests the reader makes on a literal character. *)
Ltac eval_chars :=
  repeat match goal with
  | |- context [JSON.skip_ws (String (Ascii ?a ?b ?c ?d ?e ?f ?g ?h) ?r)] =>
      rewrite (skip_ws_head (Ascii a b c d e f g h) r) by reflexivity
  | |- context [(N_of_ascii (Ascii ?a ?b ?c ?d ?e ?f ?g ?h) =? ?k)%N] =>
      let t := constr:((N_of_ascii (Ascii a b c d e f g h) =? k)%N) in
      let v := eval vm_compute in t in
      change t with v; cbv iota
  end.

Lemma parse_elements_stringify l :
  Forall reads_back l -> l ≠ [] ->
  forall fuel rest, need_elems l <= fuel ->
    JSON.parse_elements fuel (join "," (List.map JSON.stringify l) +:+ String "]" rest)
    = Some (l, rest).
Proof.
  induction 1 as [|x l Hx Hl IH]; [done|]. intros _ fuel rest Hfuel.
  destruct fuel as [|f]; [simpl in Hfuel; lia|].
  cbn [need_elems] in Hfuel. fold need_elems in Hfuel.
  destruct l as [|y l].
  - cbn [List.map join]. cbn [JSON.parse_elements].
    rewrite Hx; [| lia | by right; left]. eval_chars. reflexivity.
  - change (join "," (List.map JSON.stringify (x :: y :: l)))
      with (JSON.stringify x +:+ "," +:+ join "," (List.map JSON.stringify (y :: l))).
    rewrite !string_app_assoc. rewrite string_app_cons. change ("" +:+ ?s) with s.
    cbn [JSON.parse_elements].
    rewrite Hx; [| lia | by left]. eval_chars.
    rewrite IH; [reflexivity | done | lia].
Qed.

Lemma parse_members_stringify ps :
  Forall (fun kv => reads_back kv.2) ps -> ps ≠ [] ->
  forall fuel rest, need_members ps <= fuel ->
    JSON.parse_members fuel (join "," (List.map member_text ps) +:+ String "}" rest)
    = Some (ps, rest).
Proof.
  induction 1 as [|[k x] ps Hx Hl IH]; [done|]. intros _ fuel rest Hfuel.
  destruct fuel as [|f]; [simpl in Hfuel; lia|].
  cbn [need_members] in Hfuel. fold need_members in Hfuel. cbn [snd] in Hfuel, Hx.
  destruct ps as [|y ps].
  - cbn [List.map join member_text].
    rewrite !string_app_assoc, parse_quote.
    cbn [JSON.parse_members]. unfold JSON.dquote at 1. eval_chars.
    rewrite parse_string_body_escape.
    rewrite string_app_cons. change ("" +:+ ?s) with s. eval_chars.
    rewrite Hx; [| lia | by right; right]. eval_chars. reflexivity.
  - change (join "," (List.map member_text ((k, x) :: y :: ps)))
      with (member_text (k, x) +:+ "," +:+ join "," (List.map member_text (y :: ps))).
    cbn [member_text].
    rewrite !string_app_assoc, parse_quote.
    cbn [JSON.parse_members]. unfold JSON.dquote at 1. eval_chars.
    rewrite parse_string_body_escape.
    rewrite !string_app_cons. change ("" +:+ ?s) with s. eval_chars.
    rewrite Hx; [| lia | by left]. eval_chars.
    change ("" +:+ ?s) with s.
    rewrite IH; [reflexivity | done | lia].
Qed.

Lemma need_elems_eq l :
  (fix go (l : list JSValue) : nat :=
     match l with
     | [] => 0
     | x :: r => S (Nat.max (need x) (go r))
     end) l = need_elems l.
Proof. reflexivity. Qed.

Lemma stringify_members ps :
  List.map (fun kv : string * JSValue =>
              let (k, x) := kv in JSON.quote k +:+ ":" +:+ JSON.stringify x) ps
  = List.map member_text ps.
Proof. reflexivity. Qed.

Lemma substring_app word rest :
  String.substring (String.length word)
    (String.length (word +:+ rest) - String.length word) (word +:+ rest) = rest.
Proof.
  induction word as [|c w IH].
  - change ("" +:+ rest) with rest. cbn [String.length]. rewrite Nat.sub_0_r.
    apply substring_all.
  - rewrite string_app_cons. cbn [String.length Nat.sub String.substring]. apply IH.
Qed.

Lemma parse_literal_app word v rest :
  JSON.parse_literal word v (word +:+ rest) = Some (v, rest).
Proof.
  unfold JSON.parse_literal.
  assert (Hp : String.prefix word (word +:+ rest) = true).
  { rewrite <- (string_app_nil_r word) at 1. rewrite prefix_app_same. by destruct rest. }
  by rewrite Hp, substring_app.
Qed.

Lemma parse_value_stringify v : reads_back v.
Proof.
  induction v as [| b | n | s | l IH | ps IH] using JSValue_induction;
    intros fuel rest Hfuel Hd; (destruct fuel as [|f]; [simpl in Hfuel; lia|]).
  - cbn [JSON.stringify]. rewrite !string_app_cons. change ("" +:+ ?s) with s.
    cbn [JSON.parse_value]. eval_chars.
    apply (parse_literal_app "null" JNull rest).
  - destruct b; cbn [JSON.stringify]; rewrite !string_app_cons; change ("" +:+ ?s) with s;
      cbn [JSON.parse_value]; eval_chars.
    + apply (parse_literal_app "true" (JBool true) rest).
    + apply (parse_literal_app "false" (JBool false) rest).
  - cbn [JSON.stringify].
    destruct (Number_toString_head n) as (c & r & E & Hc).
    pose proof (parse_number_toString n rest Hd) as Hnum.
    rewrite E, string_app_cons in *.
    cbn [JSON.parse_value]. rewrite skip_ws_head.
    2:{ unfold JSON.is_ws. destruct Hc as [Hc | ->]; [|done].
        repeat (apply orb_false_intro); apply N.eqb_neq; lia. }
    assert (Hk : forall k, (k = 34 \/ k = 91 \/ k = 123 \/ k = 116 \/ k = 102 \/ k = 110)%N ->
                           (N_of_ascii c =? k)%N = false).
    { intros k Hk. apply N.eqb_neq. destruct Hc as [Hc | ->]; [lia|].
      change (N_of_ascii "-") with 45%N. lia. }
    rewrite !Hk by lia. by rewrite Hnum.
  - cbn [JSON.stringify]. rewrite parse_quote.
    cbn [JSON.parse_value]. unfold JSON.dquote at 1. eval_chars.
    by rewrite parse_string_body_escape.
  - cbn [JSON.stringify]. rewrite !string_app_assoc, string_app_cons.
    change ("" +:+ ?s) with s. rewrite string_app_cons. change ("" +:+ ?s) with s.
    cbn [JSON.parse_value]. eval_chars.
    cbn [need] in Hfuel. rewrite need_elems_eq in Hfuel.
    destruct l as [|x l].
    + cbn [List.map join]. change ("" +:+ ?s) with s. eval_chars. reflexivity.
    + destruct (stringify_head x) as (c & r & E & Hws & Hb & _).
      assert (Hhead : exists r', join "," (List.map JSON.stringify (x :: l)) +:+ String "]" rest
                                 = String c r').
      { destruct l; cbn [List.map join]; rewrite E; rewrite ?string_app_cons; eauto. }
      destruct Hhead as [r' Hhead].
      rewrite parse_elements_stringify by (done || lia).
      rewrite Hhead, skip_ws_head, Hb by done. reflexivity.
  - cbn [JSON.stringify]. rewrite stringify_members.
    rewrite !string_app_assoc, string_app_cons.
    change ("" +:+ ?s) with s. rewrite string_app_cons. change ("" +:+ ?s) with s.
    cbn [JSON.parse_value]. eval_chars.
    cbn [need] in Hfuel. change ((fix go (l : list (string * JSValue)) : nat := _) ps)
      with (need_members ps) in Hfuel.
    destruct ps as [|[k x] ps].
    + cbn [List.map join]. change ("" +:+ ?s) with s. eval_chars. reflexivity.
    + assert (Hhead : exists r', join "," (List.map member_text ((k, x) :: ps)) +:+ String "}" rest
                                 = String JSON.dquote r').
      { destruct ps; cbn [List.map join member_text]; unfold JSON.quote;
          rewrite ?string_app_cons; eauto. }
      destruct Hhead as [r' Hhead].
      rewrite parse_members_stringify by (done || lia).
      rewrite Hhead. unfold JSON.dquote. eval_chars. reflexivity.
Qed.

Lemma need_le_length v : need v <= String.length (JSON.stringify v).
Proof.
  induction v as [| b | n | s | l IH | ps IH] using JSValue_induction.
  - simpl. lia.
  - destruct b; simpl; lia.
  - cbn [JSON.stringify need]. destruct (Number_toString_head n) as (c & r & -> & _). simpl. lia.
  - cbn [JSON.stringify need]. unfold JSON.quote. simpl. lia.
  - cbn [JSON.stringify need]. rewrite need_elems_eq.
    rewrite !string_app_length. cbn [String.length].
    enough (need_elems l <= String.length (join "," (List.map JSON.stringify l)) + 1) by lia.
    induction IH as [|x l Hx Hl IHl]; [simpl; lia|].
    cbn [need_elems]. fold need_elems.
    destruct l as [|y l].
    + cbn [List.map join need_elems]. lia.
    + change (join "," (List.map JSON.stringify (x :: y :: l)))
        with (JSON.stringify x +:+ "," +:+ join "," (List.map JSON.stringify (y :: l))).
      rewrite !string_app_length. cbn [String.length]. lia.
  - cbn [JSON.stringify need]. rewrite stringify_members.
    change ((fix go (l : list (string * JSValue)) : nat := _) ps) with (need_members ps).
    rewrite !string_app_length. cbn [String.length].
    enough (need_members ps <= String.length (join "," (List.map member_text ps)) + 1) by lia.
    induction IH as [|[k x] ps Hx Hl IHl]; [simpl; lia|].
    cbn [need_members]. fold need_members. cbn [snd] in *.
    assert (Hm : need x <= String.length (member_text (k, x))).
    { cbn [member_text]. rewrite !string_app_length. lia. }
    destruct ps as [|y ps].
    + cbn [List.map join need_members]. lia.
    + change (join "," (List.map member_text ((k, x) :: y :: ps)))
        with (member_text (k, x) +:+ "," +:+ join "," (List.map member_text (y :: ps))).
      rewrite !string_app_length. cbn [String.length]. lia.
Qed.

(** [JSON.parse] reads back what [JSON.stringify] writes. *)
Lemma JSON_parse_stringify v : JSON.parse (JSON.stringify v) = Ok v.
Proof.
  unfold JSON.parse.
  pose proof (parse_value_stringify v (2 * String.length (JSON.stringify v) + 2) "") as H.
  rewrite string_app_nil_r in H. rewrite H; [reflexivity| |done].
  pose proof (need_le_length v). lia.
Qed.

(** ** Composite keys *)

Lemma cond_or_nullish (x : option string) (d : string) :
  x ≠ Some "" -> cond_or x d = nullish_or x d.
Proof.
  destruct x as [s|]; simpl; [|done].
  intros Hs. destruct (String.eqb_spec s ""); [congruence|done].
Qed.

(** Save and find address the same keys for every installation whose
    enterprise and user identifiers are not the empty string. *)
Lemma key_query_symmetry (C : string) (i : Installation) :
  enterprise_id i ≠ Some "" -> user_id i ≠ Some "" ->
  toBotInstallationKey C i = toBotInstallationQuery C (queryDerivedFrom i)
  /\ toUserInstallationKey C i = toUserInstallationQuery C (queryDerivedFrom i).
Proof.
  intros He Hu.
  unfold toBotInstallationKey, toBotInstallationQuery, toUserInstallationKey,
    toUserInstallationQuery, queryDerivedFrom; simpl.
  rewrite !(cond_or_nullish _ _ He), !(cond_or_nullish _ _ Hu). done.
Qed.

(** C3, at the failing input: for an installation whose [enterprise_id] is
    the empty string, the key written by [save] keeps the empty segment
    while the key of the derived query replaces it with an underscore, so
    the two differ, for the bot key and for the user key. *)
Theorem key_query_mismatch_on_empty_enterprise :
  let i := sample_installation (Some "") (Some "T1") (Some "U1") in
  toBotInstallationKey "C" i = "C/:T1"
  /\ toBotInstallationQuery "C" (queryDerivedFrom i) = "C/_:T1"
  /\ toUserInstallationKey "C" i = "C/:T1:U1"
  /\ toUserInstallationQuery "C" (queryDerivedFrom i) = "C/_:T1:U1"
  /\ toBotInstallationKey "C" i ≠ toBotInstallationQuery "C" (queryDerivedFrom i)
  /\ toUserInstallationKey "C" i ≠ toUserInstallationQuery "C" (queryDerivedFrom i).
Proof. repeat split; done. Qed.

(** ** Lookups *)

Lemma storage_get_ok key w :
  next_call_answers (storage w) (KVGet key) ->
  on_storage (kv_get key) w
  = (Ok (kv_data (storage w) !! key), with_storage (kv_logged (KVGet key) (storage w)) w).
Proof.
  unfold next_call_answers, on_storage, kv_get, kv_call. intros ->. reflexivity.
Qed.

Lemma findBotInstallation_ok st q w :
  let key := toBotInstallationQuery (clientId st) q in
  next_call_answers (storage w) (KVGet key) ->
  findBotInstallation st q w
  = (read_payload (kv_data (storage w) !! key),
     with_storage (kv_logged (KVGet key) (storage w)) w).
Proof.
  intros key H. unfold findBotInstallation, bind. fold key.
  rewrite (storage_get_ok _ _ H). unfold read_payload.
  destruct (truthy _); [|reflexivity].
  unfold lift, ret. destruct (JSON.parse _); reflexivity.
Qed.

Lemma findUserInstallation_ok st q w :
  let key := toUserInstallationQuery (clientId st) q in
  next_call_answers (storage w) (KVGet key) ->
  findUserInstallation st q w
  = (read_payload (kv_data (storage w) !! key),
     with_storage (kv_logged (KVGet key) (storage w)) w).
Proof.
  intros key H. unfold findUserInstallation, bind. fold key.
  rewrite (storage_get_ok _ _ H). unfold read_payload.
  destruct (truthy _); [|reflexivity].
  unfold lift, ret. destruct (JSON.parse _); reflexivity.
Qed.

(** C4 as amended: when the namespace answers the [get], a lookup whose
    key holds nothing (or the empty string) resolves to [undefined]
    without throwing, and a lookup whose key holds a text that
    [JSON.parse] rejects throws that [SyntaxError]; for the bot and for
    the user lookup alike. *)
Theorem find_installation_missing_or_unreadable st q w :
  next_call_answers (storage w) (KVGet (toBotInstallationQuery (clientId st) q)) ->
  next_call_answers (storage w) (KVGet (toUserInstallationQuery (clientId st) q)) ->
  (truthy (kv_data (storage w) !! toBotInstallationQuery (clientId st) q) = false ->
     (findBotInstallation st q w).1 = Ok None)
  /\ (truthy (kv_data (storage w) !! toUserInstallationQuery (clientId st) q) = false ->
     (findUserInstallation st q w).1 = Ok None)
  /\ (forall s e, kv_data (storage w) !! toBotInstallationQuery (clientId st) q = Some s ->
        s ≠ "" -> JSON.parse s = Throw e -> (findBotInstallation st q w).1 = Throw e)
  /\ (forall s e, kv_data (storage w) !! toUserInstallationQuery (clientId st) q = Some s ->
        s ≠ "" -> JSON.parse s = Throw e -> (findUserInstallation st q w).1 = Throw e).
Proof.
  intros Hb Hu.
  rewrite (findBotInstallation_ok st q w Hb), (findUserInstallation_ok st q w Hu).
  unfold read_payload; simpl. repeat split.
  - intros ->. reflexivity.
  - intros ->. reflexivity.
  - intros s e -> Hs Hp. simpl. destruct (String.eqb_spec s ""); [done|]. simpl. by rewrite Hp.
  - intros s e -> Hs Hp. simpl. destruct (String.eqb_spec s ""); [done|]. simpl. by rewrite Hp.
Qed.

Lemma find_installation_missing_or_unreadable_witness :
  (findBotInstallation (sample_store None false) (team_query "T1") (sample_world 2 [])).1 = Ok None
  /\ (findBotInstallation (sample_store None false) (team_query "T1")
        (sample_world 2 [("C/_:T1", "{")])).1 = Throw (SyntaxError "Unexpected token in JSON").
Proof.
  split.
  - apply (find_installation_missing_or_unreadable (sample_store None false) (team_query "T1")
             (sample_world 2 [])); reflexivity.
  - apply (find_installation_missing_or_unreadable (sample_store None false) (team_query "T1")
             (sample_world 2 [("C/_:T1", "{")])) with (s := "{"); try reflexivity.
    discriminate.
Defined.

(** C4, the claim as stated fails: a payload that cannot be deserialized
    makes the lookup throw instead of resolving to [undefined]. *)
Lemma find_installation_unreadable_throws :
  (findBotInstallation (sample_store None false) (team_query "T1")
     (sample_world 2 [("C/_:T1", "{")])).1 ≠ Ok None
  /\ (findUserInstallation (sample_store None false) (team_query "T1")
     (sample_world 2 [("C/_:T1:_", "{")])).1 = Throw (SyntaxError "Unexpected token in JSON").
Proof. split; [discriminate | reflexivity]. Qed.

(** ** [deleteAll] without a scope *)

(** C8: with neither an enterprise nor a team in the query, [deleteAll]
    returns normally and the world is the one it started from: the data
    of the namespace is untouched and its log has no new call, so nothing
    was listed and nothing deleted. *)
Theorem deleteAll_unscoped_is_noop st fuel q w :
  truthy (enterpriseId q) = false ->
  truthy (teamId q) = false ->
  deleteAll st fuel q w = Some (Ok tt, w).
Proof. unfold deleteAll. intros -> ->. reflexivity. Qed.

Lemma deleteAll_unscoped_is_noop_witness :
  let w := sample_world 2 [("C/_:T1", "x"); ("C/E1:T2", "y")] in
  deleteAll (sample_store None false) 0
    {| enterpriseId := None; teamId := None; userId := Some "U1"; isEnterpriseInstall := None |} w
  = Some (Ok tt, w).
Proof.
  apply (deleteAll_unscoped_is_noop (sample_store None false) 0
           {| enterpriseId := None; teamId := None; userId := Some "U1";
              isEnterpriseInstall := None |}); reflexivity.
Defined.

(** ** The [auth.test] cache *)

(** A store the constructor built with the cache enabled has a cache
    namespace. *)
Lemma new_KVInstallationStore_cache env0 rotator api namespace options st w :
  new_KVInstallationStore env0 rotator api namespace options = Ok (st, w) ->
  authTestCacheEnabled st = true ->
  is_Some (authTestCacheNamespace w).
Proof.
  unfold new_KVInstallationStore.
  destruct options as [[[]|] secs [c|]]; simpl; intros [= <- <-]; simpl; try done; eauto.
Qed.

Lemma calls_since_logged op ns : calls_since ns (kv_logged op ns) = [op].
Proof. unfold calls_since, kv_logged; simpl. by rewrite drop_app_length. Qed.

Lemma calls_since_app ns ns' ops :
  kv_log ns' = kv_log ns ++ ops -> calls_since ns ns' = ops.
Proof. unfold calls_since. intros ->. apply drop_app_length. Qed.

Lemma cache_get_ok key c w :
  authTestCacheNamespace w = Some c ->
  next_call_answers c (KVGet key) ->
  on_cache (kv_get key) w = (Ok (kv_data c !! key), with_cache (kv_logged (KVGet key) c) w).
Proof.
  unfold next_call_answers, on_cache, kv_get, kv_call. intros -> ->. reflexivity.
Qed.

(** The run of [callAuthTest] on a cache miss. *)
Lemma callAuthTest_miss_run st client tok c w resp :
  authTestCacheEnabled st = true ->
  tok ≠ "" ->
  authTestCacheNamespace w = Some c ->
  next_call_answers c (KVGet tok) ->
  truthy (kv_data c !! tok) = false ->
  auth_test_at (slack st) (remote_calls w) (client_token client) = Ok resp ->
  callAuthTest st client (Some tok) w
  = let w1 := tick (with_cache (kv_logged (KVGet tok) c) w) in
    if ok resp && negb (error resp) then
      (on_cache (kv_put tok
                   (JSON.stringify (Serializable_to_JSON (toSerializableSlackAPIResponse resp)))
                   (if (authTestCacheExpirationSecs st <=? 0)%Z then None
                    else Some (authTestCacheExpirationSecs st)));;
       ret resp) w1
    else (Ok resp, w1).
Proof.
  intros Hen Htok Hc Hget Hmiss Hresp.
  unfold callAuthTest. rewrite Hen, Hc. cbn [truthy].
  destruct (String.eqb_spec tok ""); [done|]. cbn [negb andb nullish_or].
  rewrite bool_decide_true by eauto.
  unfold bind at 1. rewrite (cache_get_ok _ _ _ Hc Hget), Hmiss.
  unfold bind at 1. unfold auth_test at 1. cbn [remote_calls with_cache]. rewrite Hresp.
  destruct (ok resp && negb (error resp)); reflexivity.
Qed.

(** C6: the cache is enabled, a token is given, the namespace answers the
    lookup with a miss and [auth.test] answers [resp]. Then a [put] is
    issued only if [resp.ok] is truthy and [resp.error] is not (so only
    for a response that indicates success and has no error), and for a
    failed or error-carrying response the callable resolves to [resp]
    while the cache namespace keeps its data and has served the lookup
    and nothing else. *)
Theorem callAuthTest_miss_caches_only_success st client tok c w resp :
  authTestCacheEnabled st = true ->
  tok ≠ "" ->
  authTestCacheNamespace w = Some c ->
  next_call_answers c (KVGet tok) ->
  truthy (kv_data c !! tok) = false ->
  auth_test_at (slack st) (remote_calls w) (client_token client) = Ok resp ->
  exists c', authTestCacheNamespace (callAuthTest st client (Some tok) w).2 = Some c'
    /\ (existsb is_put (calls_since c c') = true -> ok resp = true /\ error resp = false)
    /\ (ok resp = false \/ error resp = true ->
          (callAuthTest st client (Some tok) w).1 = Ok resp
          /\ kv_data c' = kv_data c
          /\ calls_since c c' = [KVGet tok]
          /\ storage (callAuthTest st client (Some tok) w).2 = storage w).
Proof.
  intros Hen Htok Hc Hget Hmiss Hresp.
  rewrite (callAuthTest_miss_run st client tok c w resp Hen Htok Hc Hget Hmiss Hresp).
  destruct (ok resp) eqn:Hok, (error resp) eqn:Herr; cbn [negb andb].
  - eexists; split; [reflexivity|]. cbn. rewrite calls_since_logged. split; [discriminate|done].
  - unfold bind, on_cache, kv_put, kv_call; cbn -[JSON.stringify].
    destruct (kv_fault _ _ _); cbn -[JSON.stringify]; (eexists; split; [reflexivity|]);
      (split; [done | intros [?|?]; discriminate]).
  - eexists; split; [reflexivity|]. cbn. rewrite calls_since_logged. split; [discriminate|done].
  - eexists; split; [reflexivity|]. cbn. rewrite calls_since_logged. split; [discriminate|done].
Qed.

Lemma callAuthTest_miss_caches_only_success_witness :
  exists c', authTestCacheNamespace
               (callAuthTest failing_store (mkClient (Some "xoxb-1") None) (Some "xoxb-1")
                  (sample_cache_world 0 [])).2 = Some c'
    /\ (existsb is_put (calls_since (namespace_of 2 []) c') = true ->
          ok failed_response = true /\ error failed_response = false)
    /\ (ok failed_response = false \/ error failed_response = true ->
          (callAuthTest failing_store (mkClient (Some "xoxb-1") None) (Some "xoxb-1")
             (sample_cache_world 0 [])).1 = Ok failed_response
          /\ kv_data c' = kv_data (namespace_of 2 [])
          /\ calls_since (namespace_of 2 []) c' = [KVGet "xoxb-1"]
          /\ storage (callAuthTest failing_store (mkClient (Some "xoxb-1") None) (Some "xoxb-1")
                        (sample_cache_world 0 [])).2 = storage (sample_cache_world 0 [])).
Proof.
  apply (callAuthTest_miss_caches_only_success failing_store (mkClient (Some "xoxb-1") None)
           "xoxb-1" (namespace_of 2 []) (sample_cache_world 0 []) failed_response);
    try reflexivity.
  discriminate.
Defined.

(** ** Serializable responses *)

Lemma lower_char_idem c : lower_char (lower_char c) = lower_char c.
Proof.
  unfold lower_char.
  destruct ((65 <=? N_of_ascii c)%N && (N_of_ascii c <=? 90)%N) eqn:E.
  - apply andb_prop in E as [E1 E2].
    apply N.leb_le in E1. apply N.leb_le in E2.
    rewrite N_ascii_embedding by lia.
    replace ((65 <=? N_of_ascii c + 32)%N && (N_of_ascii c + 32 <=? 90)%N) with false; [done|].
    symmetry. apply andb_false_intro2. apply N.leb_gt. lia.
  - by rewrite E.
Qed.

Lemma byte_lowercase_idem s : byte_lowercase (byte_lowercase s) = byte_lowercase s.
Proof. induction s as [|c s IH]; simpl; [done|]. by rewrite lower_char_idem, IH. Qed.

Section HeaderLists.
Variable h : Headers.

Lemma header_names_elem n :
  n ∈ header_names h <-> exists kv, kv ∈ h /\ byte_lowercase kv.1 = n.
Proof.
  unfold header_names. rewrite merge_sort_Permutation, elem_of_remove_dups, list_elem_of_fmap.
  split; intros (kv & ? & ?); exists kv; split; done.
Qed.

Lemma header_names_NoDup : NoDup (header_names h).
Proof. unfold header_names. rewrite merge_sort_Permutation. apply NoDup_remove_dups. Qed.

Lemma header_names_lower n : n ∈ header_names h -> byte_lowercase n = n.
Proof.
  rewrite header_names_elem. intros (kv & _ & <-). apply byte_lowercase_idem.
Qed.

Lemma header_values_nil n : header_values h n = [] <-> n ∉ header_names h.
Proof.
  rewrite header_names_elem. unfold header_values. split.
  - intros E (kv & Hin & Hn).
    apply fmap_nil_inv in E.
    by apply (filter_nil_not_elem_of _ _ kv E).
  - intros Hno. destruct (filter _ h) as [|kv l] eqn:E; [done|].
    exfalso. apply Hno. exists kv.
    assert (Hkv : kv ∈ filter (fun kv => byte_lowercase kv.1 = n) h) by (rewrite E; left).
    apply list_elem_of_filter in Hkv as [? ?]. done.
Qed.

(** With at most one cookie, every name yields exactly one entry. *)
Lemma Headers_entries_combined :
  length (header_values h "set-cookie") <= 1 ->
  Headers_entries h = (fun n => (n, join ", " (header_values h n))) <$> header_names h.
Proof.
  intros Hc. unfold Headers_entries.
  assert (Hall : forall n, n ∈ header_names h ->
    (if decide (n = "set-cookie")
     then (fun v => (n, v)) <$> header_values h n
     else [(n, join ", " (header_values h n))])
    = [(n, join ", " (header_values h n))]).
  { intros n Hn. case_decide as E; [|done]. subst n.
    destruct (header_values h "set-cookie") as [|v [|v' l]] eqn:Hv; simpl in *; [|done|lia].
    by apply header_values_nil in Hv. }
  induction (header_names h) as [|n l IH]; [done|].
  cbn [mbind list_bind fmap list_fmap].
  rewrite Hall by left. rewrite IH; [done|].
  intros m Hm. apply Hall. by right.
Qed.
End HeaderLists.

Lemma record_set_fresh (o : StringRecord) k v :
  k ∉ o.*1 -> record_set o k v = o ++ [(k, v)].
Proof.
  induction o as [|[k' v'] o IH]; simpl; [done|].
  intros Hk. apply not_elem_of_cons in Hk as [Hne Hk].
  case_decide; [congruence|]. by rewrite IH.
Qed.

Lemma Object_fromEntries_app (o es : list (string * string)) :
  NoDup ((o ++ es).*1) -> foldl (fun o kv => record_set o kv.1 kv.2) o es = o ++ es.
Proof.
  revert o. induction es as [|[k v] es IH]; intros o Hnd; simpl.
  - by rewrite app_nil_r.
  - rewrite record_set_fresh.
    + rewrite IH; rewrite <- app_assoc; done.
    + rewrite fmap_app in Hnd. apply NoDup_app in Hnd as (_ & Hd & _).
      intros Hin. apply (Hd _ Hin). simpl. left.
Qed.

Lemma Object_fromEntries_NoDup es : NoDup es.*1 -> Object_fromEntries es = es.
Proof. intros. unfold Object_fromEntries. by rewrite Object_fromEntries_app. Qed.

(** Looking a name up in a list of combined entries. *)
Lemma header_values_combined (F : string -> string) (names : list string) (m : string) :
  NoDup names -> (forall n, n ∈ names -> byte_lowercase n = n) ->
  header_values ((fun n => (n, F n)) <$> names) m = if decide (m ∈ names) then [F m] else [].
Proof.
  unfold header_values. induction names as [|n l IH]; intros Hnd Hlow.
  - destruct (decide (m ∈ [])) as [E|_]; [by apply elem_of_nil in E|done].
  - apply NoDup_cons in Hnd as [Hn Hnd]. rewrite fmap_cons. rewrite filter_cons. cbn [fst].
    rewrite (Hlow n) by left.
    specialize (IH Hnd (fun x Hx => Hlow x (list_elem_of_further _ _ _ Hx))).
    destruct (decide (n = m)) as [->|Hne].
    + destruct (decide (m ∈ m :: l)) as [_|E]; [|by exfalso; apply E; left].
      rewrite fmap_cons, IH. cbn [snd].
      by destruct (decide (m ∈ l)).
    + rewrite IH.
      destruct (decide (m ∈ l)) as [Hin|Hnin].
      * destruct (decide (m ∈ n :: l)) as [_|E]; [done|]. exfalso. apply E. by right.
      * destruct (decide (m ∈ n :: l)) as [E|_]; [|done].
        apply elem_of_cons in E as [->|E]; done.
Qed.

Lemma Headers_entries_by_name h :
  Headers_entries h = header_names h ≫= fun n => (fun v => (n, v)) <$> entry_values h n.
Proof.
  unfold Headers_entries, entry_values.
  induction (header_names h) as [|n l IH]; [done|].
  cbn [mbind list_bind]. cbn [mbind] in IH. rewrite IH. f_equal.
  by case_decide.
Qed.

Lemma record_set_last (acc : list (string * string)) n v v' :
  n ∉ acc.*1 -> record_set (acc ++ [(n, v)]) n v' = acc ++ [(n, v')].
Proof.
  induction acc as [|[k x] acc IH]; intros Hn.
  - cbn. by rewrite decide_True.
  - cbn in Hn. apply not_elem_of_cons in Hn as [Hne Hn].
    cbn. rewrite decide_False by congruence. by rewrite IH.
Qed.

Lemma fromEntries_block (acc : list (string * string)) n v vs :
  n ∉ acc.*1 ->
  foldl (fun o kv => record_set o kv.1 kv.2) acc ((fun x => (n, x)) <$> (v :: vs))
  = acc ++ [(n, default v (last vs))].
Proof.
  intros Hn. cbn [fmap list_fmap foldl fst snd]. rewrite record_set_fresh by done.
  revert v. induction vs as [|x vs IH]; intros v; [done|].
  cbn [fmap list_fmap foldl fst snd]. rewrite record_set_last by done.
  cbn [fmap] in IH. rewrite IH. destruct vs as [|y vs']; [done|].
  rewrite last_cons_cons. destruct (last (y :: vs')) eqn:E; [done|]. by apply last_None in E.
Qed.

Lemma fromEntries_blocks (vals : string -> list string) names :
  forall acc : list (string * string),
  NoDup names ->
  (forall n, n ∈ names -> n ∉ acc.*1) ->
  (forall n, n ∈ names -> vals n ≠ []) ->
  foldl (fun o kv => record_set o kv.1 kv.2) acc
    (names ≫= fun n => (fun v => (n, v)) <$> vals n)
  = acc ++ ((fun n => (n, default "" (last (vals n)))) <$> names).
Proof.
  induction names as [|n names IH]; intros acc Hnd Hacc Hvals.
  - cbn. by rewrite app_nil_r.
  - apply NoDup_cons in Hnd as [Hn Hnd].
    cbn [mbind list_bind]. rewrite foldl_app.
    destruct (vals n) as [|v vs] eqn:Hv; [by destruct (Hvals n (list_elem_of_here _ _))|].
    rewrite fromEntries_block by (apply Hacc; left).
    cbn [mbind] in IH. rewrite IH.
    + cbn [fmap list_fmap]. rewrite Hv. rewrite <- app_assoc. cbn [app]. do 3 f_equal.
      destruct vs as [|x vs]; [done|].
      rewrite !last_cons_cons. destruct (last (x :: vs)) eqn:E; [done|]. by apply last_None in E.
    + done.
    + intros m Hm. rewrite fmap_app. cbn. intros [Hin|Hin]%elem_of_app.
      * by apply (Hacc m (list_elem_of_further _ _ _ Hm)).
      * apply list_elem_of_singleton in Hin. by subst.
    + intros m Hm. apply Hvals. by right.
Qed.

Lemma entry_values_nonempty h n : n ∈ header_names h -> entry_values h n ≠ [].
Proof.
  intros Hn. unfold entry_values. case_decide; [|done].
  intros E. by apply header_values_nil in E.
Qed.

(** The record written for a header map, whatever its headers. *)
Lemma ser_headers_by_name r :
  ser_headers (toSerializableSlackAPIResponse r)
  = (fun n => (n, default "" (last (entry_values (headers r) n)))) <$> header_names (headers r).
Proof.
  unfold toSerializableSlackAPIResponse. cbn [ser_headers]. unfold Object_fromEntries.
  rewrite Headers_entries_by_name.
  rewrite (fromEntries_blocks (entry_values (headers r))).
  - done.
  - apply header_names_NoDup.
  - intros n _. cbn. apply not_elem_of_nil.
  - intros n. apply entry_values_nonempty.
Qed.

Lemma prop_snoc ps k v : prop (ps ++ [(k, v)]) k = Some v.
Proof.
  unfold prop. rewrite filter_app. cbn. rewrite decide_True by done.
  by rewrite last_snoc.
Qed.

(** *** Normalization and validation *)

Lemma strip_leading_id s : starts_with is_http_whitespace s = false -> strip_leading s = s.
Proof. destruct s as [|c r]; [done|]. simpl. by intros ->. Qed.

Lemma strip_trailing_id s : ends_with is_http_whitespace s = false -> strip_trailing s = s.
Proof.
  induction s as [|c r IH]; [done|]. destruct r as [|c' r'].
  - simpl. by intros ->.
  - intros H. change (ends_with is_http_whitespace (String c' r') = false) in H.
    cbn [strip_trailing]. cbn [strip_trailing] in IH. by rewrite (IH H).
Qed.

Lemma strip_leading_starts s : starts_with is_http_whitespace (strip_leading s) = false.
Proof.
  induction s as [|c r IH]; [done|]. simpl.
  destruct (is_http_whitespace c) eqn:E; [done|]. simpl. done.
Qed.

Lemma strip_trailing_ends s : ends_with is_http_whitespace (strip_trailing s) = false.
Proof.
  induction s as [|c r IH]; [done|]. cbn [strip_trailing].
  destruct (strip_trailing r) as [|c' r'] eqn:E.
  - destruct (is_http_whitespace c) eqn:Hc; [done|]. simpl. done.
  - exact IH.
Qed.

Lemma strip_trailing_starts f s :
  starts_with f s = false -> starts_with f (strip_trailing s) = false.
Proof.
  destruct s as [|c r]; [done|]. cbn [strip_trailing starts_with]. intros H.
  destruct (strip_trailing r); [|done]. by destruct (is_http_whitespace c).
Qed.

Lemma strip_leading_forallb f s :
  string_forallb f s = true -> string_forallb f (strip_leading s) = true.
Proof.
  induction s as [|c r IH]; [done|]. simpl. intros [Hc Hr]%andb_prop.
  destruct (is_http_whitespace c); [by apply IH|]. simpl. by rewrite Hc, Hr.
Qed.

Lemma strip_trailing_forallb f s :
  string_forallb f s = true -> string_forallb f (strip_trailing s) = true.
Proof.
  induction s as [|c r IH]; [done|]. cbn [strip_trailing string_forallb].
  intros [Hc Hr]%andb_prop. specialize (IH Hr).
  destruct (strip_trailing r) as [|c' r'].
  - destruct (is_http_whitespace c); [done|]. simpl. by rewrite Hc.
  - cbn [string_forallb] in *. by rewrite Hc, IH.
Qed.

Lemma string_forallb_app f a b :
  string_forallb f (a +:+ b) = string_forallb f a && string_forallb f b.
Proof.
  induction a as [|c a IH]; [done|]. rewrite string_app_cons. simpl.
  by rewrite IH, andb_assoc.
Qed.

Lemma string_forallb_join f vs :
  f ","%char = true -> f " "%char = true ->
  Forall (fun v => string_forallb f v = true) vs ->
  string_forallb f (join ", " vs) = true.
Proof.
  intros Hc Hs. induction 1 as [|v vs Hv Hvs IH]; [done|].
  destruct vs as [|v' vs']; [done|].
  change (join ", " (v :: v' :: vs')) with (v +:+ ", " +:+ join ", " (v' :: vs')).
  rewrite !string_forallb_app, Hv, IH. simpl. by rewrite Hc, Hs.
Qed.

Lemma starts_with_app f a b : a ≠ "" -> starts_with f (a +:+ b) = starts_with f a.
Proof. by destruct a. Qed.

Lemma ends_with_app f a b : b ≠ "" -> ends_with f (a +:+ b) = ends_with f b.
Proof.
  intros Hb. induction a as [|c a IH]; [done|]. rewrite string_app_cons.
  destruct (a +:+ b) as [|c' r] eqn:E.
  - destruct a; [|done]. by destruct b.
  - cbn [ends_with]. exact IH.
Qed.

Lemma starts_with_join f v vs :
  f ","%char = false -> starts_with f v = false ->
  starts_with f (join ", " (v :: vs)) = false.
Proof.
  intros Hc Hv. destruct vs as [|v' vs']; [done|].
  change (join ", " (v :: v' :: vs')) with (v +:+ ", " +:+ join ", " (v' :: vs')).
  destruct v as [|c r]; [exact Hc|exact Hv].
Qed.

Lemma ends_with_join f vs :
  Forall (fun v => ends_with f v = false) vs ->
  (2 <= length vs -> last vs ≠ Some "") ->
  ends_with f (join ", " vs) = false.
Proof.
  induction 1 as [|v vs Hv Hvs IH]; intros Hlast; [done|].
  destruct vs as [|v' vs']; [done|].
  change (join ", " (v :: v' :: vs')) with (v +:+ ", " +:+ join ", " (v' :: vs')).
  assert (Hne : join ", " (v' :: vs') ≠ "").
  { destruct vs' as [|v'' vs''].
    - cbn. intros ->. apply Hlast; [simpl; lia|done].
    - change (join ", " (v' :: v'' :: vs'')) with (v' +:+ ", " +:+ join ", " (v'' :: vs'')).
      destruct v'; done. }
  rewrite ends_with_app.
  2:{ destruct (join ", " (v' :: vs')); done. }
  rewrite (ends_with_app f ", ") by done.
  apply IH. intros Hlen. rewrite last_cons_cons in Hlast. apply Hlast. simpl. lia.
Qed.

(** What [append] makes of a value it accepts. *)
Lemma normalize_valid v :
  string_forallb no_break v = true -> valid_header_value (normalize v) = true.
Proof.
  intros Hv. unfold valid_header_value, normalize.
  rewrite strip_trailing_forallb by by apply strip_leading_forallb.
  rewrite strip_trailing_starts by apply strip_leading_starts.
  by rewrite strip_trailing_ends.
Qed.

Lemma normalize_id v : valid_header_value v = true -> normalize v = v.
Proof.
  unfold valid_header_value, normalize.
  intros [[_ Hs%negb_true_iff]%andb_prop He%negb_true_iff]%andb_prop.
  by rewrite strip_leading_id, strip_trailing_id.
Qed.

Lemma is_tchar_lower c : is_tchar (lower_char c) = is_tchar c.
Proof. destruct c as [[] [] [] [] [] [] [] []]; reflexivity. Qed.

Lemma is_tchar_byte c : is_tchar c = true -> (N_of_ascii c <? 196)%N = true.
Proof. destruct c as [[] [] [] [] [] [] [] []]; (reflexivity || discriminate). Qed.

Lemma valid_header_name_lower n :
  valid_header_name n = true -> valid_header_name (byte_lowercase n) = true.
Proof.
  unfold valid_header_name. intros [Hne Hall]%andb_prop.
  apply andb_true_intro. split; [by destruct n|].
  clear Hne. induction n as [|c n IH]; [done|]. simpl in *.
  apply andb_prop in Hall as [Hc Hn]. by rewrite is_tchar_lower, Hc, IH.
Qed.

Lemma valid_header_name_byte n : valid_header_name n = true -> is_byte_string n = true.
Proof.
  unfold valid_header_name, is_byte_string. intros [_ Hall]%andb_prop.
  induction n as [|c n IH]; [done|]. simpl in *.
  apply andb_prop in Hall as [Hc Hn]. by rewrite (is_tchar_byte c Hc), IH.
Qed.

(** *** The constructor on a record of accepted pairs *)

Lemma Headers_fill_accepted (es : list (string * string)) : forall h,
  Forall (fun kv => valid_header_name kv.1 = true
                    /\ valid_header_value (normalize kv.2) = true) es ->
  Headers_fill h es = Ok (h ++ ((fun kv => (kv.1, normalize kv.2)) <$> es)).
Proof.
  induction es as [|[k v] es IH]; intros h Hes.
  - cbn. by rewrite app_nil_r.
  - apply Forall_cons in Hes as [[Hk Hv] Hes]. cbn [fst snd] in *.
    cbn [Headers_fill]. unfold Headers_append. rewrite Hk, Hv. cbn [andb].
    rewrite IH by done. cbn [fmap list_fmap fst snd]. by rewrite <- app_assoc.
Qed.

Lemma record_of_object_strings (record : list (string * string)) :
  NoDup record.*1 ->
  Forall (fun kv => is_byte_string kv.1 = true /\ is_byte_string kv.2 = true) record ->
  record_of_object ((fun kv : string * string => (kv.1, JStr kv.2)) <$> record) = Ok record.
Proof.
  intros Hnd Hb. unfold record_of_object.
  rewrite <- list_fmap_compose.
  rewrite (list_fmap_ext _ id record) by (by intros i [k v] _).
  rewrite list_fmap_id, Object_fromEntries_NoDup by done.
  rewrite (proj2 (forallb_forall _ _)); [done|].
  intros kv Hin%list_elem_of_In. rewrite Forall_forall in Hb.
  destruct (Hb kv Hin) as [-> ->]. done.
Qed.

Lemma new_Headers_accepted (record : list (string * string)) :
  NoDup record.*1 ->
  Forall (fun kv => valid_header_name kv.1 = true /\ is_byte_string kv.2 = true
                    /\ string_forallb no_break kv.2 = true) record ->
  new_Headers (Some (JObj ((fun kv : string * string => (kv.1, JStr kv.2)) <$> record)))
  = Ok ((fun kv => (kv.1, normalize kv.2)) <$> record).
Proof.
  intros Hnd Hall. cbn [new_Headers].
  rewrite record_of_object_strings; [|done|].
  2:{ eapply Forall_impl; [exact Hall|]. intros kv (Hk & Hb & _).
      split; [by apply valid_header_name_byte|done]. }
  rewrite Headers_fill_accepted; [done|].
  eapply Forall_impl; [exact Hall|]. intros kv (Hk & _ & Hv).
  split; [done|by apply normalize_valid].
Qed.

(** *** The round trip *)

Lemma filter_all {A} (P : A -> Prop) `{forall x, Decision (P x)} (l : list A) :
  Forall P l -> filter P l = l.
Proof.
  induction 1 as [|x l Hx Hl IH]; [done|]. rewrite filter_cons_True by done. by f_equal.
Qed.

Lemma Headers_valid_elem h kv :
  Headers_valid h -> kv ∈ h ->
  valid_header_name kv.1 = true /\ is_byte_string kv.2 = true
  /\ valid_header_value kv.2 = true.
Proof.
  unfold Headers_valid. rewrite forallb_forall. intros Hall Hin%list_elem_of_In.
  specialize (Hall kv Hin). unfold valid_header in Hall.
  by apply andb_prop in Hall as [[? ?]%andb_prop ?].
Qed.

Lemma header_values_valid h n :
  Headers_valid h ->
  Forall (fun v => is_byte_string v = true /\ valid_header_value v = true) (header_values h n).
Proof.
  intros Hh. apply Forall_forall. intros v Hv. unfold header_values in Hv.
  apply list_elem_of_fmap in Hv as (kv & -> & Hkv).
  apply list_elem_of_filter in Hkv as [_ Hkv].
  by destruct (Headers_valid_elem h kv Hh Hkv) as (_ & ? & ?).
Qed.

Lemma valid_header_value_breaks v :
  valid_header_value v = true -> string_forallb no_break v = true.
Proof. unfold valid_header_value. by intros [[? _]%andb_prop _]%andb_prop. Qed.

(** The value the serializable form holds for a name is a byte string
    without NUL and line breaks. *)
Lemma serialized_value_accepted h n :
  Headers_valid h ->
  is_byte_string (default "" (last (entry_values h n))) = true
  /\ string_forallb no_break (default "" (last (entry_values h n))) = true.
Proof.
  intros Hh. pose proof (header_values_valid h n Hh) as Hv.
  unfold entry_values. case_decide as E.
  - destruct (last (header_values h n)) as [v|] eqn:Hl; [|done].
    apply last_Some_elem_of in Hl. rewrite Forall_forall in Hv.
    destruct (Hv v Hl) as [? ?]. split; [done|by apply valid_header_value_breaks].
  - cbn [last default]. split.
    + apply string_forallb_join; [done|done|].
      eapply Forall_impl; [exact Hv|]. by intros v [? _].
    + apply string_forallb_join; [done|done|].
      eapply Forall_impl; [exact Hv|]. intros v [_ ?]. by apply valid_header_value_breaks.
Qed.

(** The run of the round trip on a response with a header map of the
    platform. *)
Lemma roundtrip_run r :
  Headers_valid (headers r) ->
  roundtrip r
  = Ok {| rest := filter (fun kv => kv.1 ≠ "headers") (rest r);
          headers := (fun n => (n, normalize (default "" (last (entry_values (headers r) n)))))
                       <$> header_names (headers r) |}.
Proof.
  intros Hh. unfold roundtrip, fromSerializableSlackAPIResponse, Serializable_to_JSON.
  cbn [own_properties]. rewrite prop_snoc.
  rewrite new_Headers_accepted.
  - f_equal. f_equal.
    + cbn [toSerializableSlackAPIResponse ser_rest].
      rewrite filter_app. cbn. rewrite decide_False by (by intros H; apply H).
      by rewrite app_nil_r.
    + by rewrite ser_headers_by_name, <- list_fmap_compose.
  - rewrite ser_headers_by_name, <- list_fmap_compose.
    unfold compose; cbn [fst]. rewrite list_fmap_id. apply header_names_NoDup.
  - rewrite ser_headers_by_name. apply Forall_fmap, Forall_forall. intros n Hn. cbn [fst snd].
    split.
    + apply header_names_elem in Hn as (kv & Hkv & <-).
      apply valid_header_name_lower. by destruct (Headers_valid_elem _ kv Hh Hkv).
    + by apply serialized_value_accepted.
Qed.

(** The values of a name, joined, are a value again when the last one
    does not leave a space at the end. *)
Lemma join_valid vs :
  Forall (fun v => valid_header_value v = true) vs ->
  (2 <= length vs -> last vs ≠ Some "") ->
  valid_header_value (join ", " vs) = true.
Proof.
  intros Hvs Hlast. unfold valid_header_value.
  rewrite string_forallb_join; [|done|done|].
  2:{ eapply Forall_impl; [exact Hvs|]. intros v. apply valid_header_value_breaks. }
  rewrite ends_with_join; [|..|done].
  2:{ eapply Forall_impl; [exact Hvs|]. unfold valid_header_value.
      by intros v [_ ?%negb_true_iff]%andb_prop. }
  destruct vs as [|v vs']; [done|].
  rewrite starts_with_join; [done|done|].
  apply Forall_cons in Hvs as [Hv _]. unfold valid_header_value in Hv.
  by apply andb_prop in Hv as [[_ ?%negb_true_iff]%andb_prop _].
Qed.

(** C7 as amended: the response has the header map of the platform (the
    names are tokens, the values are normalized), at most one
    [Set-Cookie] header, and no name whose last of several values is
    empty. Then the round trip through the serializable form returns a
    response with the same properties other than the headers, in which
    every lookup, whatever the case of the name, gives what it gave in
    the original. *)
Theorem serializable_roundtrip r :
  Headers_valid (headers r) ->
  "headers" ∉ (rest r).*1 ->
  length (header_values (headers r) "set-cookie") <= 1 ->
  (forall name, 2 <= length (header_values (headers r) name) ->
                last (header_values (headers r) name) ≠ Some "") ->
  exists r', roundtrip r = Ok r'
    /\ rest r' = rest r
    /\ forall name, Headers_get (headers r') name = Headers_get (headers r) name.
Proof.
  intros Hh Hrest Hc Hlast. rewrite roundtrip_run by done. eexists. split; [reflexivity|].
  cbn [rest headers]. split.
  { apply filter_all, Forall_forall. intros kv Hkv E. apply Hrest. rewrite <- E.
    apply list_elem_of_fmap. by exists kv. }
  intros name. unfold Headers_get.
  rewrite header_values_combined by (apply header_names_NoDup || apply header_names_lower).
  set (m := byte_lowercase name).
  case_decide as E.
  - cbn [join].
    assert (Hval : default "" (last (entry_values (headers r) m))
                   = join ", " (header_values (headers r) m)).
    { unfold entry_values. case_decide as Hm; [|done]. rewrite Hm in *.
      destruct (header_values (headers r) "set-cookie") as [|v [|v' vs]] eqn:Hv;
        [by apply header_values_nil in Hv|done|simpl in Hc; lia]. }
    rewrite Hval, normalize_id.
    + destruct (header_values (headers r) m) eqn:Hv; [by apply header_values_nil in Hv|done].
    + apply join_valid; [|apply Hlast].
      eapply Forall_impl; [apply header_values_valid, Hh|]. by intros ? [_ ?].
  - by rewrite (proj2 (header_values_nil _ _) E).
Qed.

Lemma serializable_roundtrip_witness :
  exists r', roundtrip sample_response = Ok r'
    /\ rest r' = rest sample_response
    /\ forall name, Headers_get (headers r') name = Headers_get (headers sample_response) name.
Proof.
  apply (serializable_roundtrip sample_response).
  - reflexivity.
  - apply (bool_decide_unpack _). vm_compute. exact I.
  - simpl. lia.
  - intros name. unfold header_values. cbn. case_decide; simpl; lia.
Defined.

(** C7, the claim as stated fails: of two [Set-Cookie] headers only the
    last survives the round trip, so the lookup no longer gives both. *)
Lemma serializable_roundtrip_loses_cookie :
  Headers_get (headers two_cookies) "Set-Cookie" = Some "a=1, b=2"
  /\ exists r', roundtrip two_cookies = Ok r'
       /\ Headers_get (headers r') "Set-Cookie" = Some "b=2"
       /\ ~ (forall name, Headers_get (headers r') name
                          = Headers_get (headers two_cookies) name).
Proof.
  split; [reflexivity|]. eexists. split; [vm_compute; reflexivity|].
  split; [reflexivity|].
  intros H. specialize (H "Set-Cookie"). vm_compute in H. discriminate.
Qed.

(** ** [deleteAll] with a scope *)

Lemma offset_of_cursor_of_offset n : offset_of_cursor (Some (cursor_of_offset n)) = Some n.
Proof.
  unfold offset_of_cursor, cursor_of_offset.
  rewrite NilEmpty.usu. simpl. by rewrite DecimalNat.Unsigned.of_to.
Qed.

Lemma cursor_of_offset_truthy n : truthy (Some (cursor_of_offset n)) = true.
Proof.
  simpl. destruct (String.eqb_spec (cursor_of_offset n) "") as [E|]; [|done].
  exfalso. pose proof (offset_of_cursor_of_offset n) as H. rewrite E in H.
  simpl in H. injection H as <-. discriminate E.
Qed.

Lemma kv_keys_elem d p k :
  k ∈ kv_keys d p <-> is_Some (d !! k) /\ String.prefix p k = true.
Proof.
  unfold kv_keys. rewrite merge_sort_Permutation, list_elem_of_filter, elem_of_elements, elem_of_dom.
  tauto.
Qed.

Lemma kv_keys_NoDup d p : NoDup (kv_keys d p).
Proof.
  unfold kv_keys. rewrite merge_sort_Permutation. apply NoDup_filter, NoDup_elements.
Qed.

Lemma storage_list_ok p c w off :
  healthy (storage w) ->
  offset_of_cursor c = Some off ->
  on_storage (kv_list p c) w
  = (let all := kv_keys (kv_data (storage w)) p in
     let complete := bool_decide (length all <= off + kv_limit (storage w)) in
     Ok {| keys := take (kv_limit (storage w)) (drop off all);
           list_complete := complete;
           cursor := if complete then None
                     else Some (cursor_of_offset (off + kv_limit (storage w))) |},
     with_storage (kv_logged (KVList p c) (storage w)) w).
Proof.
  intros Hh Hc. unfold on_storage, kv_list, kv_call. rewrite Hh, Hc. reflexivity.
Qed.

Lemma deleteAll_loop_done fuel p names w :
  deleteAll_loop fuel p None names w = Some (Ok names, w).
Proof. destruct fuel; reflexivity. Qed.

Lemma deleteAll_loop_spec fuel : forall p off w,
  let K := kv_keys (kv_data (storage w)) p in
  healthy (storage w) ->
  0 < kv_limit (storage w) ->
  off < length K ->
  length K <= fuel * kv_limit (storage w) + off ->
  exists ops,
    deleteAll_loop fuel p (Some (cursor_of_offset off)) (take off K) w
    = Some (Ok K, with_storage (kv_logged_all ops (storage w)) w)
    /\ Forall (is_list_of p) ops.
Proof.
  induction fuel as [|fuel IH]; intros p off w K Hh HL Hoff Hfuel.
  - simpl in Hfuel. lia.
  - cbn [deleteAll_loop]. rewrite cursor_of_offset_truthy.
    rewrite (storage_list_ok p _ w off Hh (offset_of_cursor_of_offset off)).
    cbn zeta. fold K. cbn [list_complete cursor keys].
    rewrite take_take_drop.
    case_bool_decide as Hc.
    + rewrite deleteAll_loop_done, take_ge by lia.
      exists [KVList p (Some (cursor_of_offset off))]. split; [reflexivity|].
      constructor; [done|constructor].
    + set (w1 := with_storage _ w).
      destruct (IH p (off + kv_limit (storage w)) w1) as (ops & E & Hops).
      * done.
      * done.
      * unfold w1; simpl. fold K. lia.
      * unfold w1; simpl. fold K. simpl in Hfuel. lia.
      * exists (KVList p (Some (cursor_of_offset off)) :: ops). split.
        -- change (kv_keys (kv_data (storage w1)) p) with K in E. rewrite E.
           unfold with_storage, kv_logged_all, w1; simpl. rewrite <- app_assoc. reflexivity.
        -- constructor; done.
Qed.


Lemma deleteAll_each_spec names : forall w,
  healthy (storage w) ->
  deleteAll_each names w
  = (Ok tt, with_storage
              {| kv_data := foldl (fun d k => delete k d) (kv_data (storage w)) names;
                 kv_limit := kv_limit (storage w);
                 kv_log := kv_log (storage w) ++ (KVDelete <$> names);
                 kv_fault := kv_fault (storage w) |} w).
Proof.
  induction names as [|k names IH]; intros w Hh.
  - simpl. unfold ret, with_storage. rewrite app_nil_r. by destruct w as [[] ? ?].
  - cbn [deleteAll_each]. unfold bind at 1.
    unfold on_storage at 1, kv_delete, kv_call. rewrite Hh.
    rewrite IH by done. simpl. unfold with_storage; simpl. rewrite <- app_assoc. reflexivity.
Qed.

Lemma lookup_foldl_delete (names : list string) : forall (d : gmap string string) k,
  foldl (fun d k => delete k d) d names !! k = if decide (k ∈ names) then None else d !! k.
Proof.
  induction names as [|n names IH]; intros d k; simpl.
  - destruct (decide (k ∈ [])) as [E|_]; [by apply elem_of_nil in E|done].
  - rewrite IH. destruct (decide (k ∈ names)) as [Hin|Hnin].
    + destruct (decide (k ∈ n :: names)) as [_|E]; [done|]. exfalso. apply E. by right.
    + destruct (decide (k ∈ n :: names)) as [E|E].
      * apply elem_of_cons in E as [->|E]; [|done]. apply lookup_delete_eq.
      * apply not_elem_of_cons in E as [Hne _]. by apply lookup_delete_ne.
Qed.

Lemma cond_or_falsy x d : truthy x = false -> cond_or x d = d.
Proof. destruct x as [s|]; simpl; [|done]. by intros ->. Qed.

(** What a scoped [deleteAll] does on a namespace that answers: it lists
    the prefix page by page, then deletes the listed keys in order. *)
Lemma deleteAll_scoped_spec st q w fuel :
  let p := deleteAll_prefix st q in
  let K := kv_keys (kv_data (storage w)) p in
  truthy (enterpriseId q) || truthy (teamId q) = true ->
  healthy (storage w) ->
  0 < kv_limit (storage w) ->
  length K <= fuel ->
  exists lists,
    Forall (is_list_of p) lists
    /\ deleteAll st fuel q w
       = Some (Ok tt,
               with_storage
                 {| kv_data := foldl (fun d k => delete k d) (kv_data (storage w)) K;
                    kv_limit := kv_limit (storage w);
                    kv_log := kv_log (storage w) ++ lists ++ (KVDelete <$> K);
                    kv_fault := kv_fault (storage w) |} w).
Proof.
  intros p K Hq Hh HL Hfuel. unfold deleteAll.
  replace (negb (truthy (enterpriseId q)) && negb (truthy (teamId q))) with false
    by (destruct (truthy (enterpriseId q)), (truthy (teamId q)); done).
  fold p. rewrite (storage_list_ok p None w 0 Hh eq_refl).
  cbn zeta. fold K. cbn [list_complete cursor keys]. rewrite drop_0.
  change ([] ++ take (kv_limit (storage w)) K) with (take (kv_limit (storage w)) K).
  set (w1 := with_storage _ w).
  case_bool_decide as Hc; cbn [negb].
  - rewrite take_ge by lia.
    exists [KVList p None]. split; [constructor; [done|constructor]|].
    rewrite deleteAll_each_spec by done.
    unfold w1, with_storage; simpl. rewrite <- app_assoc. reflexivity.
  - destruct (deleteAll_loop_spec fuel p (kv_limit (storage w)) w1) as (ops & E & Hops).
    + done.
    + done.
    + unfold w1; simpl. fold K. lia.
    + unfold w1; simpl. fold K. nia.
    + change (kv_keys (kv_data (storage w1)) p) with K in E.
      change (kv_limit (storage w1)) with (kv_limit (storage w)) in E.
      simpl in E. simpl. rewrite E.
      exists (KVList p None :: ops). split; [constructor; done|].
      rewrite deleteAll_each_spec by done.
      unfold w1, with_storage; simpl. rewrite <- !app_assoc. reflexivity.
Qed.

(** C2: for a query with a team [T] and no enterprise, on a namespace
    that answers and whatever its page size, [deleteAll] returns after
    listing the prefix ["{clientId}/_:T"] and issuing one [delete] for
    each key that starts with the prefix, each exactly once; afterwards
    exactly those keys are gone and every other key keeps its value. *)
Theorem deleteAll_team_deletes_prefix st T q w fuel :
  let p := clientId st +:+ "/_:" +:+ T in
  let K := kv_keys (kv_data (storage w)) p in
  truthy (enterpriseId q) = false ->
  teamId q = Some T ->
  T ≠ "" ->
  healthy (storage w) ->
  0 < kv_limit (storage w) ->
  length K <= fuel ->
  exists w' lists,
    deleteAll st fuel q w = Some (Ok tt, w')
    /\ Forall (is_list_of p) lists
    /\ calls_since (storage w) (storage w') = lists ++ (KVDelete <$> K)
    /\ NoDup K
    /\ (forall k, k ∈ K <-> is_Some (kv_data (storage w) !! k) /\ String.prefix p k = true)
    /\ (forall k, kv_data (storage w') !! k
                  = if String.prefix p k then None else kv_data (storage w) !! k).
Proof.
  intros p K He Ht HT Hh HL Hfuel.
  assert (Hp : deleteAll_prefix st q = p).
  { unfold deleteAll_prefix, p. rewrite (cond_or_falsy _ _ He), Ht. simpl.
    by destruct (String.eqb_spec T ""). }
  destruct (deleteAll_scoped_spec st q w fuel) as (lists & Hlists & E).
  - rewrite Ht. simpl. destruct (String.eqb_spec T ""); [done|]. apply orb_true_r.
  - done.
  - done.
  - by rewrite Hp.
  - rewrite Hp in *. fold K in E. eexists _, lists. split; [exact E|].
    split; [done|]. split.
    { unfold calls_since; simpl. by rewrite drop_app_length. }
    split; [apply kv_keys_NoDup|]. split; [intros k; apply kv_keys_elem|].
    intros k. simpl. rewrite lookup_foldl_delete.
    destruct (decide (k ∈ K)) as [Hin|Hnin].
    + apply kv_keys_elem in Hin as [_ ->]. done.
    + destruct (String.prefix p k) eqn:Hpre; [|done].
      destruct (kv_data (storage w) !! k) eqn:Hk; [|done].
      exfalso. apply Hnin, kv_keys_elem. eauto.
Qed.

(** C10: the team identifiers ["T1"] and ["T10"] are such a pair. On
    every namespace that answers, [deleteAll({teamId: "T1"})] leaves
    nothing under the bot key and the user key of an installation of team
    ["T10"], and issues a [delete] for each of the two that was stored. *)
Theorem deleteAll_team_reaches_longer_team :
  exists T T', T ≠ T' /\ String.prefix T T' = true /\ String.length T < String.length T' /\
    forall st w fuel i,
      enterprise_id i = None -> team_id i = Some T' ->
      truthyb (is_enterprise_install i) = false ->
      healthy (storage w) -> 0 < kv_limit (storage w) ->
      length (kv_keys (kv_data (storage w)) (clientId st +:+ "/_:" +:+ T)) <= fuel ->
      exists w', deleteAll st fuel (team_query T) w = Some (Ok tt, w')
        /\ forall key,
             key = toBotInstallationKey (clientId st) i
             \/ key = toUserInstallationKey (clientId st) i ->
             kv_data (storage w') !! key = None
             /\ (is_Some (kv_data (storage w) !! key) ->
                 KVDelete key ∈ calls_since (storage w) (storage w')).
Proof.
  exists "T1", "T10". split; [done|]. split; [done|]. split; [simpl; lia|].
  intros st w fuel i He Ht Hi Hh HL Hfuel.
  destruct (deleteAll_scoped_spec st (team_query "T1") w fuel) as (lists & Hlists & E);
    [done..|].
  change (deleteAll_prefix st (team_query "T1")) with (clientId st +:+ "/_:T1") in *.
  eexists; split; [exact E|].
  intros key Hkey.
  assert (Hpre : String.prefix (clientId st +:+ "/_:T1") key = true).
  { destruct Hkey as [-> | ->];
      unfold toBotInstallationKey, toUserInstallationKey; rewrite He, Ht, Hi; simpl;
      apply prefix_app_same. }
  simpl. rewrite lookup_foldl_delete. split.
  - destruct (decide (key ∈ _)) as [_|Hnin]; [done|].
    destruct (kv_data (storage w) !! key) eqn:Hk; [|done].
    exfalso. apply Hnin, kv_keys_elem. eauto.
  - intros Hsome. unfold calls_since; simpl. rewrite drop_app_length.
    apply elem_of_app. right. apply list_elem_of_fmap. exists key. split; [done|].
    apply kv_keys_elem. done.
Qed.

Lemma deleteAll_team_deletes_prefix_witness :
  exists w',
    deleteAll (sample_store None false) 6 (team_query "T1") paged_world = Some (Ok tt, w')
    /\ forall k, kv_data (storage w') !! k
                 = if String.prefix "C/_:T1" k then None
                   else kv_data (storage paged_world) !! k.
Proof.
  destruct (deleteAll_team_deletes_prefix (sample_store None false) "T1" (team_query "T1")
              paged_world 6) as (w' & lists & E & _ & _ & _ & _ & Hdata).
  - reflexivity.
  - reflexivity.
  - discriminate.
  - intros n op. reflexivity.
  - simpl. lia.
  - vm_compute. lia.
  - exists w'. split; [exact E | exact Hdata].
Defined.

(** The three pages of the listing and the six deletions, in order. *)
Lemma deleteAll_three_pages :
  (fun r => kv_log (storage r.2)) <$> deleteAll (sample_store None false) 6 (team_query "T1") paged_world
  = Some [KVList "C/_:T1" None; KVList "C/_:T1" (Some "2"); KVList "C/_:T1" (Some "4");
          KVDelete "C/_:T1"; KVDelete "C/_:T1:U1"; KVDelete "C/_:T1:U2";
          KVDelete "C/_:T1:U3"; KVDelete "C/_:T1:U4"; KVDelete "C/_:T1:U5"].
Proof. vm_compute. reflexivity. Qed.

(** The installation of team T10 is stored under two keys and both are
    deleted along with team T1. *)
Lemma deleteAll_T1_deletes_T10 :
  dom (kv_data (storage world_of_T10)) = {["C/_:T10"; "C/_:T10:U7"]}
  /\ (fun r => dom (kv_data (storage r.2)))
       <$> deleteAll (sample_store None false) 2 (team_query "T1") world_of_T10
     = Some ∅.
Proof. split; vm_compute; reflexivity. Qed.

(** ** Deleting one installation *)

Lemma storage_delete_ok key w :
  next_call_answers (storage w) (KVDelete key) ->
  on_storage (kv_delete key) w
  = (Ok tt, with_storage (kv_with_data (delete key (kv_data (storage w)))
                            (kv_logged (KVDelete key) (storage w))) w).
Proof.
  unfold next_call_answers, on_storage, kv_delete, kv_call. intros ->. reflexivity.
Qed.


(** ** Stored installations *)

Lemma filter_field_other {A} k k' (inj : A -> JSValue) x :
  k ≠ k' -> filter (fun kv : string * JSValue => kv.1 = k') (field k inj x) = [].
Proof. intros Hne. destruct x; [|done]. cbn. by rewrite decide_False. Qed.

Lemma filter_field_same {A} k (inj : A -> JSValue) x :
  filter (fun kv : string * JSValue => kv.1 = k) (field k inj x) = field k inj x.
Proof. destruct x; [|done]. cbn. by rewrite decide_True. Qed.

Lemma filter_field_typed {A} k (inj : A -> JSValue) x :
  k ∈ Installation_names ->
  filter (fun kv : string * JSValue => kv.1 ∉ Installation_names) (field k inj x) = [].
Proof. intros Hk. destruct x; [|done]. cbn. by rewrite decide_False by (intros H; by apply H). Qed.

Lemma filter_untyped (k : string) (other : list (string * JSValue)) :
  k ∈ Installation_names ->
  Forall (fun kv => kv.1 ∉ Installation_names) other ->
  filter (fun kv : string * JSValue => kv.1 = k) other = [].
Proof.
  intros Hk. induction 1 as [|kv l Hkv _ IH]; [done|].
  rewrite filter_cons, decide_False; [done|]. intros E. apply Hkv. by rewrite E.
Qed.

Lemma filter_all_untyped (other : list (string * JSValue)) :
  Forall (fun kv => kv.1 ∉ Installation_names) other ->
  filter (fun kv : string * JSValue => kv.1 ∉ Installation_names) other = other.
Proof.
  induction 1 as [|kv l Hkv _ IH]; [done|].
  by rewrite filter_cons, decide_True, IH.
Qed.

Lemma last_field {A} k (inj : A -> JSValue) x :
  snd <$> last (field k inj x) = inj <$> x.
Proof. by destruct x. Qed.

Lemma mapM_as_string l : mapM as_string (List.map JStr l) = Some l.
Proof. induction l as [|s l IH]; [done|]. cbn. rewrite IH. done. Qed.

(** The record read from the object written for an installation is that
    installation. *)
Lemma Installation_of_to_JSON i :
  Forall (fun kv => kv.1 ∉ Installation_names) (other_properties i) ->
  Installation_of_JSON (Installation_to_JSON i) = Some i.
Proof.
  intros Hother. destruct i as [e t u ie bt brt bte bs ut urt ute us other].
  cbn [other_properties] in Hother.
  unfold Installation_of_JSON, Installation_to_JSON. cbn [js_truthy].
  cbn [enterprise_id team_id user_id is_enterprise_install bot_token bot_refresh_token
       bot_token_expires_at bot_scopes user_token user_refresh_token user_token_expires_at
       user_scopes other_properties].
  unfold Installation_of_properties, prop_string, prop_bool, prop_num, prop_strings, prop.
  rewrite !filter_app.
  rewrite !filter_field_typed by (unfold Installation_names; set_solver).
  rewrite filter_all_untyped by done.
  rewrite !filter_field_same.
  rewrite !filter_field_other by done.
  rewrite !(filter_untyped _ other) by (done || (unfold Installation_names; set_solver)).
  cbn [app]. rewrite !app_nil_r. rewrite !last_field.
  f_equal.
  assert (Hs : forall o : option (list string),
             match JStrs <$> o with Some (JArr l) => mapM as_string l | _ => None end = o).
  { intros [l|]; [|done]. apply mapM_as_string. }
  rewrite !Hs.
  by destruct e, t, u, ie, bt, brt, bte, ut, urt, ute.
Qed.

Lemma stored_truthy i : truthy (Some (stored i)) = true.
Proof.
  unfold stored, Installation_to_JSON. cbn [JSON.stringify].
  rewrite string_app_cons. reflexivity.
Qed.

Lemma storage_put_ok key value ttl w :
  next_call_answers (storage w) (KVPut key value ttl) ->
  on_storage (kv_put key value ttl) w
  = (Ok tt, with_storage (kv_with_data (<[key := value]> (kv_data (storage w)))
                            (kv_logged (KVPut key value ttl) (storage w))) w).
Proof.
  unfold next_call_answers, on_storage, kv_put, kv_call. intros ->. reflexivity.
Qed.

(** The run of [save] on a namespace that answers. *)
Lemma save_ok st i w :
  healthy (storage w) ->
  save st i w
  = (Ok tt,
     with_storage
       {| kv_data := <[toUserInstallationKey (clientId st) i := stored i]>
                       (<[toBotInstallationKey (clientId st) i := stored i]>
                          (kv_data (storage w)));
          kv_limit := kv_limit (storage w);
          kv_log := kv_log (storage w)
                    ++ [KVPut (toBotInstallationKey (clientId st) i) (stored i) None;
                        KVPut (toUserInstallationKey (clientId st) i) (stored i) None];
          kv_fault := kv_fault (storage w) |} w).
Proof.
  intros Hh. unfold save, bind. fold (stored i).
  rewrite storage_put_ok by apply Hh. rewrite storage_put_ok by apply Hh.
  unfold with_storage, kv_with_data, kv_logged; simpl. by rewrite <- app_assoc.
Qed.

Lemma read_payload_stored i :
  Forall (fun kv => kv.1 ∉ Installation_names) (other_properties i) ->
  read_payload (Some (stored i)) = Ok (Some i).
Proof.
  intros Hother. unfold read_payload. rewrite stored_truthy. cbn [nullish_or].
  unfold stored. rewrite JSON_parse_stringify. by rewrite Installation_of_to_JSON.
Qed.

(** X2: An installation that was saved is found again, by the bot lookup and
    by the user lookup, with the query derived from it, provided its
    enterprise and user identifiers are not the empty string. *)
Theorem save_then_find st i w :
  healthy (storage w) ->
  Forall (fun kv => kv.1 ∉ Installation_names) (other_properties i) ->
  enterprise_id i ≠ Some "" ->
  user_id i ≠ Some "" ->
  exists w',
    save st i w = (Ok tt, w')
    /\ (findBotInstallation st (queryDerivedFrom i) w').1 = Ok (Some i)
    /\ (findUserInstallation st (queryDerivedFrom i) w').1 = Ok (Some i).
Proof.
  intros Hh Hother He Hu.
  destruct (key_query_symmetry (clientId st) i He Hu) as [Hb Hk].
  rewrite save_ok by done. eexists. split; [reflexivity|].
  rewrite findBotInstallation_ok, findUserInstallation_ok by apply Hh.
  cbn [fst storage with_storage kv_data]. rewrite <- Hb, <- Hk.
  rewrite lookup_insert_eq.
  rewrite lookup_insert. case_decide.
  - by rewrite read_payload_stored.
  - by rewrite lookup_insert_eq, read_payload_stored.
Qed.

(** The user key is the bot key followed by the user segment. *)
Lemma user_key_extends_bot_key C i :
  toUserInstallationKey C i = toBotInstallationKey C i +:+ ":" +:+ nullish_or (user_id i) "_".
Proof.
  unfold toUserInstallationKey, toBotInstallationKey. by rewrite !string_app_assoc.
Qed.

Lemma user_query_extends_bot_query C q :
  toUserInstallationQuery C q = toBotInstallationQuery C q +:+ ":" +:+ cond_or (userId q) "_".
Proof.
  unfold toUserInstallationQuery, toBotInstallationQuery. by rewrite !string_app_assoc.
Qed.

Lemma string_app_neq (a b : string) : b ≠ "" -> a +:+ b ≠ a.
Proof.
  intros Hb E. apply (f_equal String.length) in E. rewrite string_app_length in E.
  destruct b; [done|]. simpl in E. lia.
Qed.

Lemma user_key_not_bot_key C i : toUserInstallationKey C i ≠ toBotInstallationKey C i.
Proof. rewrite user_key_extends_bot_key. by apply string_app_neq. Qed.

Lemma user_query_not_bot_query C q : toUserInstallationQuery C q ≠ toBotInstallationQuery C q.
Proof. rewrite user_query_extends_bot_query. by apply string_app_neq. Qed.

(** X3: [save] is two writes, not one: when the namespace accepts the first
    [put] and rejects the second, [save] rejects, the bot key already
    holds the new payload and the user key still holds what it held. *)
Theorem save_second_put_rejected st i w e :
  next_call_answers (storage w)
    (KVPut (toBotInstallationKey (clientId st) i) (stored i) None) ->
  kv_fault (storage w) (S (length (kv_log (storage w))))
    (KVPut (toUserInstallationKey (clientId st) i) (stored i) None) = Some e ->
  exists w',
    save st i w = (Throw e, w')
    /\ kv_data (storage w') !! toBotInstallationKey (clientId st) i = Some (stored i)
    /\ kv_data (storage w') !! toUserInstallationKey (clientId st) i
       = kv_data (storage w) !! toUserInstallationKey (clientId st) i.
Proof.
  intros H1 H2. unfold save, bind. fold (stored i).
  rewrite storage_put_ok by done.
  unfold on_storage, kv_put, kv_call. cbn [storage with_storage kv_fault kv_logged kv_with_data kv_log].
  rewrite length_app. cbn [length]. rewrite Nat.add_1_r, H2.
  eexists. split; [reflexivity|]. cbn [storage kv_data kv_logged].
  split; [apply lookup_insert_eq|].
  apply lookup_insert_ne. apply not_eq_sym, user_key_not_bot_key.
Qed.

(** X5: For an installation whose [enterprise_id] and [user_id] are not
    the empty string (the one case where the key of [save] and the key
    of the lookups differ) and whose further properties do not reuse the
    name of a typed one, in a namespace that answers: after [save],
    deleting the bot installation with the query derived from the
    installation succeeds; the bot lookup then finds nothing and the
    user lookup still finds the installation. *)
Theorem deleteBotInstallation_keeps_user st i w :
  healthy (storage w) ->
  Forall (fun kv => kv.1 ∉ Installation_names) (other_properties i) ->
  enterprise_id i ≠ Some "" ->
  user_id i ≠ Some "" ->
  exists w1 w2,
    save st i w = (Ok tt, w1)
    /\ deleteBotInstallation st (queryDerivedFrom i) w1 = (Ok tt, w2)
    /\ (findBotInstallation st (queryDerivedFrom i) w2).1 = Ok None
    /\ (findUserInstallation st (queryDerivedFrom i) w2).1 = Ok (Some i).
Proof.
  intros Hh Hother He Hu.
  destruct (key_query_symmetry (clientId st) i He Hu) as [Hb Hk].
  rewrite save_ok by done. eexists _, _. split; [reflexivity|].
  unfold deleteBotInstallation. rewrite storage_delete_ok by apply Hh.
  split; [reflexivity|].
  rewrite findBotInstallation_ok, findUserInstallation_ok by apply Hh.
  cbn [fst storage with_storage kv_data kv_with_data kv_logged]. rewrite <- Hb, <- Hk.
  rewrite lookup_delete_eq. split; [reflexivity|].
  rewrite lookup_delete_ne by (apply not_eq_sym, user_key_not_bot_key).
  by rewrite lookup_insert_eq, read_payload_stored.
Qed.

(** ** More on [deleteAll] *)

(** X8: With an enterprise and no team, [deleteAll] removes every key of the
    enterprise, whatever the team and the user, and no other key. *)
Theorem deleteAll_enterprise_deletes_all_teams st E q w fuel :
  let p := clientId st +:+ "/" +:+ E +:+ ":" in
  let K := kv_keys (kv_data (storage w)) p in
  enterpriseId q = Some E ->
  E ≠ "" ->
  truthy (teamId q) = false ->
  healthy (storage w) ->
  0 < kv_limit (storage w) ->
  length K <= fuel ->
  exists w' lists,
    deleteAll st fuel q w = Some (Ok tt, w')
    /\ Forall (is_list_of p) lists
    /\ calls_since (storage w) (storage w') = lists ++ (KVDelete <$> K)
    /\ NoDup K
    /\ (forall k, kv_data (storage w') !! k
                  = if String.prefix p k then None else kv_data (storage w) !! k).
Proof.
  intros p K He HE Ht Hh HL Hfuel.
  assert (Hp : deleteAll_prefix st q = p).
  { unfold deleteAll_prefix, p. rewrite Ht, He. simpl.
    by destruct (String.eqb_spec E ""). }
  destruct (deleteAll_scoped_spec st q w fuel) as (lists & Hlists & HE').
  - rewrite He. simpl. by destruct (String.eqb_spec E "").
  - done.
  - done.
  - by rewrite Hp.
  - rewrite Hp in *. fold K in HE'. eexists _, lists. split; [exact HE'|].
    split; [done|]. split.
    { unfold calls_since; simpl. by rewrite drop_app_length. }
    split; [apply kv_keys_NoDup|].
    intros k. simpl. rewrite lookup_foldl_delete.
    destruct (decide (k ∈ K)) as [Hin|Hnin].
    + apply kv_keys_elem in Hin as [_ ->]. done.
    + destruct (String.prefix p k) eqn:Hpre; [|done].
      destruct (kv_data (storage w) !! k) eqn:Hk; [|done].
      exfalso. apply Hnin, kv_keys_elem. eauto.
Qed.

Lemma prefix_refl_app a b : String.prefix a (a +:+ b) = true.
Proof.
  rewrite <- (string_app_nil_r a) at 1. rewrite prefix_app_same. by destruct b.
Qed.

Lemma prefix_refl a : String.prefix a a = true.
Proof. rewrite <- (string_app_nil_r a) at 2. apply prefix_refl_app. Qed.

(** The prefix of [deleteAll] for the query derived from a team
    installation is the bot key of the installation. *)
Lemma deleteAll_prefix_team_installation st i T :
  team_id i = Some T -> T ≠ "" ->
  truthyb (is_enterprise_install i) = false ->
  enterprise_id i ≠ Some "" ->
  deleteAll_prefix st (queryDerivedFrom i) = toBotInstallationKey (clientId st) i.
Proof.
  intros Ht HT Hie He. unfold deleteAll_prefix, toBotInstallationKey, queryDerivedFrom.
  cbn [enterpriseId teamId]. rewrite (cond_or_nullish _ _ He), Ht, Hie. simpl.
  by destruct (String.eqb_spec T "").
Qed.

(** X7: For a team installation (a [team_id] that is not empty, no
    enterprise install flag set, an [enterprise_id] that is not the
    empty string), in a namespace that answers and lists at least one
    key a page, and with as many rounds as there are keys under the
    prefix: after [save], [deleteAll] with the query derived from the
    installation returns and has removed both keys of the installation,
    so the two lookups miss. *)
Theorem save_then_deleteAll st i T w fuel :
  let q := queryDerivedFrom i in
  let w1 := (save st i w).2 in
  team_id i = Some T -> T ≠ "" ->
  truthyb (is_enterprise_install i) = false ->
  enterprise_id i ≠ Some "" ->
  healthy (storage w) ->
  0 < kv_limit (storage w) ->
  length (kv_keys (kv_data (storage w1)) (deleteAll_prefix st q)) <= fuel ->
  exists w2,
    deleteAll st fuel q w1 = Some (Ok tt, w2)
    /\ kv_data (storage w2) !! toBotInstallationKey (clientId st) i = None
    /\ kv_data (storage w2) !! toUserInstallationKey (clientId st) i = None
    /\ (findBotInstallation st q w2).1 = Ok None
    /\ (findUserInstallation st q w2).1 = Ok None.
Proof.
  intros q w1 Ht HT Hie He Hh HL Hfuel.
  pose proof (deleteAll_prefix_team_installation st i T Ht HT Hie He) as Hp. fold q in Hp.
  assert (Hw1 : healthy (storage w1) /\ kv_limit (storage w1) = kv_limit (storage w)).
  { unfold w1. rewrite save_ok by done. done. }
  destruct Hw1 as [Hh1 HL1].
  destruct (deleteAll_scoped_spec st q w1 fuel) as (lists & _ & HE).
  - unfold q, queryDerivedFrom. cbn [enterpriseId teamId]. rewrite Ht. simpl.
    destruct (String.eqb_spec T ""); [done|]. apply orb_true_r.
  - done.
  - lia.
  - done.
  - eexists. split; [exact HE|].
    assert (Hgone : forall k, String.prefix (deleteAll_prefix st q) k = true ->
              foldl (fun d k => delete k d) (kv_data (storage w1))
                (kv_keys (kv_data (storage w1)) (deleteAll_prefix st q)) !! k = None).
    { intros k Hk. rewrite lookup_foldl_delete.
      destruct (decide (k ∈ _)) as [_|Hnin]; [done|].
      destruct (kv_data (storage w1) !! k) eqn:Hd; [|done].
      exfalso. apply Hnin, kv_keys_elem. eauto. }
    assert (Hbq : toBotInstallationQuery (clientId st) q = toBotInstallationKey (clientId st) i).
    { unfold toBotInstallationQuery, toBotInstallationKey, q, queryDerivedFrom.
      cbn [enterpriseId teamId isEnterpriseInstall]. by rewrite (cond_or_nullish _ _ He). }
    rewrite findBotInstallation_ok, findUserInstallation_ok by apply Hh1.
    cbn [fst storage with_storage kv_data].
    rewrite user_query_extends_bot_query, user_key_extends_bot_key, Hbq.
    rewrite !Hgone by (rewrite Hp; apply prefix_refl_app || apply prefix_refl). done.
Qed.

Lemma prefix_underscore T r :
  T ≠ "" -> String.prefix "_" T = false -> String.prefix T (String "_" r) = false.
Proof.
  destruct T as [|c T]; [done|]. intros _. simpl.
  destruct (ascii_dec "_" c) as [<-|Hne]; [by destruct T|].
  intros _. destruct (ascii_dec c "_"); [congruence|done].
Qed.

(** [deleteAll] reads the enterprise and the team of the query and
    nothing else. *)
Lemma deleteAll_reads_enterprise_and_team st fuel q q' w :
  enterpriseId q' = enterpriseId q -> teamId q' = teamId q ->
  deleteAll st fuel q' w = deleteAll st fuel q w.
Proof. unfold deleteAll, deleteAll_prefix. by intros -> ->. Qed.

(** X9: [deleteAll] does not read [isEnterpriseInstall]. An
    enterprise-wide installation ([is_enterprise_install] is [true]) of
    an enterprise [E] that is not empty and a team [T] that is neither
    empty nor starts with an underscore is saved with the team segment
    ["_"], in a namespace that answers and lists at least one key a
    page. With as many rounds as there are keys under [clientId/E:T],
    [deleteAll] with the query derived from the installation returns
    the same, whatever its [isEnterpriseInstall]: its calls are lists of
    the prefix [clientId/E:T] and then the deletion of the keys under
    it, and both keys of the installation are left in place. *)
Theorem deleteAll_keeps_enterprise_install st i E T w fuel :
  let q := queryDerivedFrom i in
  let w1 := (save st i w).2 in
  let p := clientId st +:+ "/" +:+ E +:+ ":" +:+ T in
  enterprise_id i = Some E -> E ≠ "" ->
  team_id i = Some T -> T ≠ "" -> String.prefix "_" T = false ->
  is_enterprise_install i = Some true ->
  healthy (storage w) ->
  0 < kv_limit (storage w) ->
  length (kv_keys (kv_data (storage w1)) p) <= fuel ->
  exists w2 lists,
    (forall flag,
        deleteAll st fuel
          {| enterpriseId := enterpriseId q; teamId := teamId q; userId := userId q;
             isEnterpriseInstall := flag |} w1 = Some (Ok tt, w2))
    /\ Forall (is_list_of p) lists
    /\ calls_since (storage w1) (storage w2)
       = lists ++ (KVDelete <$> kv_keys (kv_data (storage w1)) p)
    /\ kv_data (storage w2) !! toBotInstallationKey (clientId st) i = Some (stored i)
    /\ kv_data (storage w2) !! toUserInstallationKey (clientId st) i = Some (stored i).
Proof.
  intros q w1 p He HE Ht HT HT' Hie Hh HL Hfuel.
  set (x := clientId st +:+ "/" +:+ E +:+ ":").
  assert (Hp : deleteAll_prefix st q = p).
  { unfold deleteAll_prefix, q, queryDerivedFrom, p. cbn [enterpriseId teamId].
    rewrite He, Ht. simpl. destruct (String.eqb_spec E ""); [done|].
    by destruct (String.eqb_spec T ""). }
  assert (Hpx : p = x +:+ T) by (unfold p, x; by rewrite !string_app_assoc).
  assert (Hb : toBotInstallationKey (clientId st) i = x +:+ "_").
  { unfold toBotInstallationKey, x. rewrite He, Ht, Hie. simpl.
    rewrite andb_false_r. by rewrite !string_app_assoc. }
  assert (Hu : toUserInstallationKey (clientId st) i
               = x +:+ "_:" +:+ nullish_or (user_id i) "_").
  { rewrite user_key_extends_bot_key, Hb. by rewrite !string_app_assoc. }
  assert (Hw1 : w1 = (save st i w).2) by done.
  rewrite save_ok in Hw1 by done. cbn [snd] in Hw1.
  assert (Hh1 : healthy (storage w1)) by (by rewrite Hw1).
  destruct (deleteAll_scoped_spec st q w1 fuel) as (lists & Hlists & HEq).
  - unfold q, queryDerivedFrom. cbn [enterpriseId teamId]. rewrite He. simpl.
    by destruct (String.eqb_spec E "").
  - done.
  - by rewrite Hw1.
  - by rewrite Hp.
  - rewrite Hp in *. eexists _, lists. split; [|split; [exact Hlists|split]].
    + intros flag. rewrite <- HEq. by apply deleteAll_reads_enterprise_and_team.
    + apply calls_since_app. reflexivity.
    + cbn [storage with_storage kv_data].
      rewrite !lookup_foldl_delete.
      rewrite !decide_False.
      * rewrite Hw1. cbn [storage with_storage kv_data].
        rewrite lookup_insert_ne by apply user_key_not_bot_key.
        by rewrite !lookup_insert_eq.
      * intros Hin. apply kv_keys_elem in Hin as [_ Hin].
        rewrite Hpx, Hu, prefix_app_same in Hin.
        change ("_:" +:+ ?s) with (String "_" (String ":" s)) in Hin.
        by rewrite prefix_underscore in Hin.
      * intros Hin. apply kv_keys_elem in Hin as [_ Hin].
        rewrite Hpx, Hb, prefix_app_same in Hin.
        by rewrite (prefix_underscore T "") in Hin.
Qed.

(** *** What [deleteAll] leaves alone, whatever the namespace does *)








(** ** More on the [auth.test] cache *)



Lemma record_set_keys (o : list (string * string)) k v :
  (record_set o k v).*1 = if decide (k ∈ o.*1) then o.*1 else o.*1 ++ [k].
Proof.
  induction o as [|[k' v'] o IH]; [done|]. cbn [record_set].
  destruct (decide (k' = k)) as [->|Hne].
  - cbn. rewrite decide_True by left. done.
  - cbn [fmap list_fmap fst]. cbn [fmap] in IH. rewrite IH.
    destruct (decide (k ∈ o.*1)) as [Hin|Hnin].
    + rewrite decide_True by (by right). done.
    + rewrite decide_False; [done|]. intros [->|?]%elem_of_cons; done.
Qed.

Lemma record_set_NoDup (o : list (string * string)) k v :
  NoDup o.*1 -> NoDup (record_set o k v).*1.
Proof.
  intros Hnd. rewrite record_set_keys. case_decide as Hk; [done|].
  apply NoDup_app. split; [done|]. split; [|apply NoDup_singleton].
  intros x Hx ->%list_elem_of_singleton. done.
Qed.

(** A plain object has no two properties of the same name. *)
Lemma Object_fromEntries_keys_NoDup es : NoDup (Object_fromEntries es).*1.
Proof.
  unfold Object_fromEntries.
  assert (H : forall o : list (string * string), NoDup o.*1 ->
            NoDup (foldl (fun o kv => record_set o kv.1 kv.2) o es).*1).
  { induction es as [|[k v] es IH]; intros o Ho; [done|]. cbn [foldl].
    apply IH. by apply record_set_NoDup. }
  apply H. constructor.
Qed.

Lemma stringify_object_truthy ps : truthy (Some (JSON.stringify (JObj ps))) = true.
Proof. cbn [JSON.stringify]. rewrite string_app_cons. reflexivity. Qed.

(** The run of [callAuthTest] on a cache hit. *)
Lemma callAuthTest_hit_run st client tok c w text v :
  authTestCacheEnabled st = true ->
  authTestCacheNamespace w = Some c ->
  next_call_answers c (KVGet tok) ->
  tok ≠ "" ->
  kv_data c !! tok = Some text ->
  text ≠ "" ->
  JSON.parse text = Ok v ->
  callAuthTest st client (Some tok) w
  = (fromSerializableSlackAPIResponse v, with_cache (kv_logged (KVGet tok) c) w).
Proof.
  intros Hen Hc Hget Htok Htext Hne Hparse.
  unfold callAuthTest. rewrite Hen, Hc. cbn [truthy].
  destruct (String.eqb_spec tok ""); [done|]. cbn [negb andb nullish_or].
  rewrite bool_decide_true by eauto.
  unfold bind at 1. rewrite (cache_get_ok _ _ _ Hc Hget), Htext. cbn [truthy nullish_or].
  destruct (String.eqb_spec text ""); [done|]. cbn [negb].
  unfold bind, lift. by rewrite Hparse.
Qed.

(** X12: A cache hit is answered from the cache alone. The cache is
    enabled, its namespace answers the [get], the token is not empty,
    and the entry under it is a text that is not empty and parses as
    JSON. Then, whatever the client, [callAuthTest] settles the way
    [fromSerializableSlackAPIResponse] does on the parsed entry, with
    the restored response or with the [TypeError] of the [Headers]
    constructor; it makes no remote call, leaves the installation
    namespace alone, and its only call to the cache is the [get] of the
    token, which changes no entry. *)
Theorem callAuthTest_hit_makes_no_remote_call st client tok c w text v :
  authTestCacheEnabled st = true ->
  authTestCacheNamespace w = Some c ->
  next_call_answers c (KVGet tok) ->
  tok ≠ "" ->
  kv_data c !! tok = Some text ->
  text ≠ "" ->
  JSON.parse text = Ok v ->
  exists w' c',
    callAuthTest st client (Some tok) w = (fromSerializableSlackAPIResponse v, w')
    /\ remote_calls w' = remote_calls w
    /\ storage w' = storage w
    /\ authTestCacheNamespace w' = Some c'
    /\ calls_since c c' = [KVGet tok]
    /\ kv_data c' = kv_data c.
Proof.
  intros Hen Hc Hget Htok Htext Hne Hparse.
  rewrite (callAuthTest_hit_run st client tok c w text v) by done.
  eexists _, _. split; [reflexivity|]. cbn. repeat split.
  by apply calls_since_app.
Qed.

(** X13: The cache is read without a guard: an entry that is not JSON makes
    [callAuthTest] throw what [JSON.parse] throws, and [auth.test] is not
    called. *)
Theorem callAuthTest_unreadable_entry_throws st client tok c w text e :
  authTestCacheEnabled st = true ->
  authTestCacheNamespace w = Some c ->
  next_call_answers c (KVGet tok) ->
  tok ≠ "" ->
  kv_data c !! tok = Some text ->
  text ≠ "" ->
  JSON.parse text = Throw e ->
  exists w',
    callAuthTest st client (Some tok) w = (Throw e, w')
    /\ remote_calls w' = remote_calls w.
Proof.
  intros Hen Hc Hget Htok Htext Hne Hparse.
  unfold callAuthTest. rewrite Hen, Hc. cbn [truthy].
  destruct (String.eqb_spec tok ""); [done|]. cbn [negb andb nullish_or].
  rewrite bool_decide_true by eauto.
  unfold bind at 1. rewrite (cache_get_ok _ _ _ Hc Hget), Htext. cbn [truthy nullish_or].
  destruct (String.eqb_spec text ""); [done|]. cbn [negb].
  unfold bind, lift, ret. rewrite Hparse. eexists. split; reflexivity.
Qed.

(** X14: A successful response that missed the cache is served from the
    cache the next time. The cache is enabled, its namespace answers
    every call, the token is not empty and has no entry, and [auth.test]
    answers with a response that is [ok] and has no [error]. Then the
    first call returns that response after one remote call, a [get] and
    one [put] with the configured time to live; the second call, from
    whatever client, makes no remote call and no [put], only the [get],
    and settles the way the round trip of the response through the
    serializable form does: with a response, when the header map of the
    first response is one of the platform. *)
Theorem callAuthTest_second_call_is_cached st client client' tok c w resp :
  authTestCacheEnabled st = true ->
  authTestCacheNamespace w = Some c ->
  healthy c ->
  tok ≠ "" ->
  truthy (kv_data c !! tok) = false ->
  auth_test_at (slack st) (remote_calls w) (client_token client) = Ok resp ->
  ok resp = true ->
  error resp = false ->
  exists w1 w2 c1 c2 text,
    callAuthTest st client (Some tok) w = (Ok resp, w1)
    /\ callAuthTest st client' (Some tok) w1 = (roundtrip resp, w2)
    /\ remote_calls w1 = S (remote_calls w)
    /\ remote_calls w2 = remote_calls w1
    /\ authTestCacheNamespace w1 = Some c1
    /\ authTestCacheNamespace w2 = Some c2
    /\ calls_since c c1
       = [KVGet tok;
          KVPut tok text (if (authTestCacheExpirationSecs st <=? 0)%Z then None
                          else Some (authTestCacheExpirationSecs st))]
    /\ calls_since c1 c2 = [KVGet tok]
    /\ (Headers_valid (headers resp) -> exists r', roundtrip resp = Ok r').
Proof.
  intros Hen Hc Hh Htok Hmiss Hresp Hok Herr.
  rewrite (callAuthTest_miss_run st client tok c w resp Hen Htok Hc (Hh _ _) Hmiss Hresp).
  rewrite Hok, Herr. cbn [negb andb].
  set (text := JSON.stringify (Serializable_to_JSON (toSerializableSlackAPIResponse resp))).
  set (ttl := if (authTestCacheExpirationSecs st <=? 0)%Z then None
              else Some (authTestCacheExpirationSecs st)).
  unfold bind at 1. unfold on_cache at 1.
  cbn [authTestCacheNamespace tick with_cache]. unfold kv_put, kv_call.
  cbn [kv_fault kv_logged]. rewrite (Hh _ _). unfold ret.
  set (c1 := kv_with_data _ _).
  eexists _, _, c1, _, text. split; [reflexivity|].
  erewrite (callAuthTest_hit_run st client' tok c1 _ text).
  - split; [reflexivity|]. split; [done|]. split; [done|]. split; [done|].
    split; [reflexivity|]. split; [|split]; [apply calls_since_app..|].
    + unfold c1. cbn [kv_log kv_with_data kv_logged]. by rewrite <- app_assoc.
    + reflexivity.
    + intros Hv. rewrite roundtrip_run by done. by eexists.
  - done.
  - done.
  - apply Hh.
  - done.
  - unfold c1. cbn. apply lookup_insert_eq.
  - intros E. pose proof (stringify_object_truthy
      (ser_rest (toSerializableSlackAPIResponse resp)
       ++ [("headers", JObj ((fun kv : string * string => (kv.1, JStr kv.2))
                               <$> ser_headers (toSerializableSlackAPIResponse resp)))])) as Ht.
    change (JSON.stringify (JObj _)) with text in Ht. rewrite E in Ht. done.
  - apply JSON_parse_stringify.
Qed.




Lemma callAuthTest_uncached st client token w :
  truthy token && authTestCacheEnabled st = false ->
  callAuthTest st client token w
  = (auth_test_at (slack st) (remote_calls w) (client_token client), tick w).
Proof. unfold callAuthTest. intros ->. reflexivity. Qed.

(** When the Slack API answers and the cache is sound, [callAuthTest]
    returns a response and leaves the cache sound. *)
Lemma callAuthTest_answers st client token w :
  api_answers (slack st) -> cache_sound w ->
  exists r w', callAuthTest st client token w = (Ok r, w')
    /\ cache_sound w' /\ storage w' = storage w.
Proof.
  intros Hapi Hsound. unfold callAuthTest.
  destruct (Hapi (remote_calls w) (client_token client)) as (resp & Hresp & Hvalid).
  destruct (truthy token && authTestCacheEnabled st) eqn:Hcond; cbn [andb].
  2:{ unfold auth_test. rewrite Hresp. by eexists _, _. }
  destruct (authTestCacheNamespace w) as [c|] eqn:Hc.
  2:{ rewrite bool_decide_false by (by intros [? ?]). unfold auth_test. rewrite Hresp.
      eexists _, _. split; [reflexivity|]. split; [|done]. intros c0. cbn. by rewrite Hc. }
  rewrite bool_decide_true by eauto.
  destruct token as [tok|]; [|done]. cbn [nullish_or].
  destruct (Hsound c Hc) as [Hh Hread].
  unfold bind at 1. rewrite (cache_get_ok _ _ _ Hc (Hh _ _)).
  set (w1 := with_cache (kv_logged (KVGet tok) c) w).
  set (text := JSON.stringify (Serializable_to_JSON (toSerializableSlackAPIResponse resp))).
  assert (Hentry : exists r, read_entry text = Ok r).
  { unfold read_entry, text. rewrite JSON_parse_stringify.
    fold (roundtrip resp). rewrite roundtrip_run by done. eauto. }
  assert (Hmiss : exists r w',
            (let! authTestResponse := auth_test (slack st) client in
             (if ok authTestResponse && negb (error authTestResponse) then
                on_cache (kv_put tok
                            (JSON.stringify
                               (Serializable_to_JSON
                                  (toSerializableSlackAPIResponse authTestResponse)))
                            (if (authTestCacheExpirationSecs st <=? 0)%Z then None
                             else Some (authTestCacheExpirationSecs st)))
              else ret tt);; ret authTestResponse) w1 = (Ok r, w')
            /\ cache_sound w' /\ storage w' = storage w).
  { unfold bind at 1. unfold auth_test at 1. cbn [remote_calls with_cache w1]. rewrite Hresp.
    fold text. unfold bind at 1.
    destruct (ok resp && negb (error resp)).
    - unfold on_cache, kv_put, kv_call.
      cbn [authTestCacheNamespace tick with_cache kv_fault kv_logged w1].
      rewrite (Hh _ _). unfold ret. eexists _, _. split; [reflexivity|]. split; [|done].
      intros c'; cbn [authTestCacheNamespace]; intros [= <-]. split; [exact Hh|].
      cbn [kv_data kv_with_data kv_logged].
      intros k text' Hk Hne'. destruct (decide (k = tok)) as [->|Hk'].
      + rewrite lookup_insert_eq in Hk. by injection Hk as <-.
      + rewrite lookup_insert_ne in Hk by done. by eapply Hread.
    - unfold ret. eexists _, _. split; [reflexivity|]. split; [|done].
      intros c'; cbn [authTestCacheNamespace tick with_cache w1]; intros [= <-].
      split; [exact Hh|exact Hread]. }
  clearbody text.
  destruct (kv_data c !! tok) as [cached|] eqn:Hcached; [|exact Hmiss].
  cbn [truthy nullish_or]. destruct (String.eqb_spec cached "") as [->|Hne]; cbn [negb];
    [exact Hmiss|].
  destruct (Hread tok cached Hcached Hne) as [r Hr]. unfold read_entry in Hr.
  unfold bind, lift. destruct (JSON.parse cached) as [v|e]; [|done]. rewrite Hr.
  eexists _, _. split; [reflexivity|]. split; [|done].
  intros c'; cbn [authTestCacheNamespace with_cache w1]; intros [= <-].
  split; [exact Hh|exact Hread].
Qed.

(** ** The authorize callable *)

Lemma error_to_string_text e :
  error_to_string e
  = if decide (error_message e = "") then error_name e
    else error_name e +:+ ": " +:+ error_message e.
Proof.
  destruct e as [m|m|m|m|m]; cbn [error_to_string error_message error_name];
    unfold Error_toString; destruct (String.eqb_spec m ""); by case_decide.
Qed.

Lemma Query_of_to_JSON q : Query_of_JSON (Query_to_JSON q) = q.
Proof. destruct q as [[e|] [t|] [u|] [b|]]; reflexivity. Qed.

(** The message of line 210 carries the error and the query. *)
Lemma authorize_message_carries e q : carries (authorize_message e q) e q.
Proof.
  exists (JSON.stringify (Query_to_JSON q)). unfold authorize_message.
  rewrite error_to_string_text, JSON_parse_stringify. cbn. by rewrite Query_of_to_JSON.
Qed.

(** What the [catch] makes of the outcome of the [try] block. *)
Lemma toAuthorize_run st req w :
  toAuthorize st req w
  = match authorize_try st req (query_of req) w with
    | (Ok r, w') => (Ok r, w')
    | (Throw e, w') => (Throw (AuthorizeError (authorize_message e (query_of req))), w')
    end.
Proof.
  unfold toAuthorize, try_catch.
  by destruct (authorize_try st req (query_of req) w) as [[r|e] w'].
Qed.

(** The namespace rejects the lookup of the bot installation. *)
Lemma authorize_try_storage_error st req w e :
  kv_fault (storage w) (length (kv_log (storage w)))
    (KVGet (toBotInstallationQuery (clientId st) (query_of req))) = Some e ->
  (authorize_try st req (query_of req) w).1 = Throw e.
Proof.
  intros H. unfold authorize_try. unfold bind at 1. unfold findBotInstallation.
  unfold bind at 1. unfold on_storage, kv_get, kv_call. by rewrite H.
Qed.

(** The stored text of the bot installation is not JSON. *)
Lemma authorize_try_unreadable_bot st req w text e :
  next_call_answers (storage w)
    (KVGet (toBotInstallationQuery (clientId st) (query_of req))) ->
  kv_data (storage w) !! toBotInstallationQuery (clientId st) (query_of req) = Some text ->
  text ≠ "" ->
  JSON.parse text = Throw e ->
  (authorize_try st req (query_of req) w).1 = Throw e.
Proof.
  intros Hget Htext Hne Hparse. unfold authorize_try.
  unfold bind at 1. rewrite findBotInstallation_ok by done.
  unfold read_payload. rewrite Htext. cbn [truthy nullish_or].
  destruct (String.eqb_spec text ""); [done|]. cbn [negb]. by rewrite Hparse.
Qed.

(** The token endpoint rejects the rotation of the bot token. *)
Lemma authorize_try_rotation_error st req w bot e :
  next_call_answers (storage w)
    (KVGet (toBotInstallationQuery (clientId st) (query_of req))) ->
  read_payload (kv_data (storage w) !! toBotInstallationQuery (clientId st) (query_of req))
  = Ok (Some bot) ->
  truthy (bot_refresh_token bot) = true ->
  performRotation_at (tokenRotator st) (remote_calls w)
    {| target_bot := Some {| access_token := bot_token bot;
                             refresh_token := bot_refresh_token bot;
                             token_expires_at := bot_token_expires_at bot |};
       target_user := None |} = Throw e ->
  authorize_try st req (query_of req) w
  = (Throw e,
     tick (with_storage
             (kv_logged (KVGet (toBotInstallationQuery (clientId st) (query_of req)))
                (storage w)) w)).
Proof.
  intros Hget Hbot Hrefresh Hrot. unfold authorize_try.
  unfold bind at 1. rewrite findBotInstallation_ok by done. rewrite Hbot.
  unfold bind at 1. unfold rotate_bot. rewrite Hrefresh.
  unfold bind at 1. unfold performRotation. cbn [remote_calls with_storage].
  by rewrite Hrot.
Qed.

(** [auth.test] fails for the bot token, no rotation being due and the
    cache not being consulted. *)
Lemma authorize_try_api_error st req w found e :
  next_call_answers (storage w)
    (KVGet (toBotInstallationQuery (clientId st) (query_of req))) ->
  read_payload (kv_data (storage w) !! toBotInstallationQuery (clientId st) (query_of req))
  = Ok found ->
  truthy (found ≫= bot_refresh_token) = false ->
  truthy (found ≫= bot_token) && authTestCacheEnabled st = false ->
  auth_test_at (slack st) (remote_calls w) (found ≫= bot_token) = Throw e ->
  (authorize_try st req (query_of req) w).1 = Throw e.
Proof.
  intros Hget Hbot Hrefresh Hcache Hapi. unfold authorize_try.
  unfold bind at 1. rewrite findBotInstallation_ok by done. rewrite Hbot.
  assert (Hrot : forall w0, rotate_bot st found w0 = (Ok found, w0)).
  { intros w0. unfold rotate_bot. destruct found as [bot|]; [|done].
    cbn in Hrefresh. by rewrite Hrefresh. }
  unfold bind at 1. rewrite Hrot.
  unfold bind at 1. rewrite callAuthTest_uncached by done.
  cbn [client_token remote_calls with_storage]. by rewrite Hapi.
Qed.

(** C9: the callable throws nothing but an [AuthorizeError], and that
    error carries the original error and the query. Whatever the [try]
    block throws, the callable throws an [AuthorizeError] whose message
    names the error, holds its message and holds a JSON text from which
    the query reads back; when the block returns, the callable returns
    the same result. Each source of failure reaches the [catch]: the
    namespace rejecting the lookup, a stored text that is not JSON, the
    token endpoint rejecting the rotation, and [auth.test] failing. *)
Theorem toAuthorize_throws_only_AuthorizeError st req w :
  let q := query_of req in
  let bot_key := toBotInstallationQuery (clientId st) q in
  match authorize_try st req q w with
  | (Ok r, w') => toAuthorize st req w = (Ok r, w')
  | (Throw e, w') =>
      exists text, toAuthorize st req w = (Throw (AuthorizeError text), w') /\ carries text e q
  end
  /\ (forall e,
        kv_fault (storage w) (length (kv_log (storage w))) (KVGet bot_key) = Some e ->
        rejected_with (toAuthorize st req w).1 e q)
  /\ (forall text e,
        next_call_answers (storage w) (KVGet bot_key) ->
        kv_data (storage w) !! bot_key = Some text -> text ≠ "" ->
        JSON.parse text = Throw e ->
        rejected_with (toAuthorize st req w).1 e q)
  /\ (forall bot e,
        next_call_answers (storage w) (KVGet bot_key) ->
        read_payload (kv_data (storage w) !! bot_key) = Ok (Some bot) ->
        truthy (bot_refresh_token bot) = true ->
        performRotation_at (tokenRotator st) (remote_calls w)
          {| target_bot := Some {| access_token := bot_token bot;
                                   refresh_token := bot_refresh_token bot;
                                   token_expires_at := bot_token_expires_at bot |};
             target_user := None |} = Throw e ->
        rejected_with (toAuthorize st req w).1 e q)
  /\ (forall found e,
        next_call_answers (storage w) (KVGet bot_key) ->
        read_payload (kv_data (storage w) !! bot_key) = Ok found ->
        truthy (found ≫= bot_refresh_token) = false ->
        truthy (found ≫= bot_token) && authTestCacheEnabled st = false ->
        auth_test_at (slack st) (remote_calls w) (found ≫= bot_token) = Throw e ->
        rejected_with (toAuthorize st req w).1 e q).
Proof.
  intros q bot_key. subst q bot_key.
  assert (Hwrap : forall e, (authorize_try st req (query_of req) w).1 = Throw e ->
                            rejected_with (toAuthorize st req w).1 e (query_of req)).
  { intros e He. rewrite toAuthorize_run.
    destruct (authorize_try st req (query_of req) w) as [[r|e'] w']; simpl in He; [done|].
    injection He as ->. eexists. split; [reflexivity|]. apply authorize_message_carries. }
  split.
  { rewrite toAuthorize_run.
    destruct (authorize_try st req (query_of req) w) as [[r|e] w']; [done|].
    eexists. split; [reflexivity|]. apply authorize_message_carries. }
  split; [|split; [|split]].
  - intros e H. by apply Hwrap, authorize_try_storage_error.
  - intros text e ? ? ? ?. by eapply Hwrap, authorize_try_unreadable_bot.
  - intros bot e ? ? ? ?. apply Hwrap.
    by rewrite (authorize_try_rotation_error st req w bot e).
  - intros found e ? ? ? ? ?. by eapply Hwrap, authorize_try_api_error.
Qed.

(** The authorize callable never reads the actor of the request. *)
Lemma toAuthorize_ignores_actor st ctx e t u e' t' u' w :
  toAuthorize st {| context := mkContext (context_isEnterpriseInstall ctx)
                      (context_enterpriseId ctx) (context_teamId ctx) (context_userId ctx)
                      e t u |} w
  = toAuthorize st {| context := mkContext (context_isEnterpriseInstall ctx)
                        (context_enterpriseId ctx) (context_teamId ctx) (context_userId ctx)
                        e' t' u' |} w.
Proof. reflexivity. Qed.

(** C1, at the failing input: user U2 of team T2 acts in a workspace
    where U1 of team T1 installed the app, and the policy is not
    ["installer"]. The query built for the user lookup addresses the
    actor's key, but the lookup is made with the installer's query: the
    namespace is asked for the installer's key and the result carries the
    installer's user token. *)
Theorem toAuthorize_user_lookup_uses_installer :
  let st := sample_store (Some "actor") false in
  toUserInstallationQuery (clientId st) (userQuery_of st sample_request (query_of sample_request))
  = "C/_:T2:U2"
  /\ kv_log (storage (toAuthorize st sample_request installed_world).2)
     = [KVGet "C/_:T1"; KVGet "C/_:T1:U1"]
  /\ result_userId <$> fulfilled (toAuthorize st sample_request installed_world).1
     = Some (Some "U1").
Proof. vm_compute. done. Qed.

(** Each source of failure inside the sequence surfaces as the
    [AuthorizeError]: the namespace rejecting the lookup, a stored text
    that is not JSON, the token endpoint rejecting the rotation and the
    [auth.test] call failing. *)
Lemma toAuthorize_wraps_each_failure :
  let q := query_of sample_request in
  (toAuthorize (sample_store None false) sample_request unavailable_world).1
  = Throw (AuthorizeError (authorize_message (ExternalError "KV unavailable") q))
  /\ (toAuthorize (sample_store None false) sample_request (sample_world 2 [("C/_:T1", "{")])).1
  = Throw (AuthorizeError (authorize_message (SyntaxError "Unexpected token in JSON") q))
  /\ (toAuthorize (mkStore (sample_env None) rejecting_rotator sample_slack false 600)
        sample_request installed_world).1
  = Throw (AuthorizeError (authorize_message (ExternalError "invalid_refresh_token") q))
  /\ (toAuthorize (mkStore (sample_env None) idle_rotator unreachable_slack false 600)
        sample_request installed_world).1
  = Throw (AuthorizeError (authorize_message (ExternalError "fetch failed") q)).
Proof. repeat split; vm_compute; reflexivity. Qed.

(** ** Token rotation inside the authorize callable *)

Lemma rotate_bot_idle st bot w nothing :
  performRotation_at (tokenRotator st) (remote_calls w)
    {| target_bot := Some {| access_token := bot_token bot;
                             refresh_token := bot_refresh_token bot;
                             token_expires_at := bot_token_expires_at bot |};
       target_user := None |} = Ok nothing ->
  nothing ≫= refreshed_bot = None ->
  truthy (bot_refresh_token bot) = true ->
  rotate_bot st (Some bot) w = (Ok (Some bot), tick w).
Proof.
  intros H Hn Hr. unfold rotate_bot. rewrite Hr.
  unfold bind, performRotation. by rewrite H, Hn.
Qed.

Lemma save_healthy st i w :
  healthy (storage w) ->
  exists w' ops, save st i w = (Ok tt, w')
    /\ kv_log (storage w') = kv_log (storage w) ++ ops
    /\ authTestCacheNamespace w' = authTestCacheNamespace w.
Proof.
  intros Hh. unfold save, bind, on_storage, kv_put, kv_call. rewrite Hh. simpl.
  rewrite Hh. simpl. eexists _, [_; _]. split; [reflexivity|].
  simpl. by rewrite <- app_assoc.
Qed.

(** The rotation of the user token does not throw when the token
    endpoint and the namespace answer. *)
Lemma rotate_user_answers st found w :
  (forall n targets, exists o, performRotation_at (tokenRotator st) n targets = Ok o) ->
  healthy (storage w) ->
  exists u w' ops, rotate_user st found w = (Ok u, w')
    /\ kv_log (storage w') = kv_log (storage w) ++ ops
    /\ authTestCacheNamespace w' = authTestCacheNamespace w.
Proof.
  intros Hrot Hh.
  assert (Hnil : kv_log (storage w) = kv_log (storage w) ++ []) by by rewrite app_nil_r.
  unfold rotate_user. destruct found as [u|]; [|by eexists _, _, _].
  destruct (truthy _); [|by eexists _, _, _].
  unfold bind at 1. unfold performRotation at 1.
  destruct (Hrot (remote_calls w)
              {| target_bot := None;
                 target_user := Some {| access_token := user_token u;
                                        refresh_token := user_refresh_token u;
                                        token_expires_at := user_token_expires_at u |} |})
    as [o ->].
  destruct (o ≫= refreshed_user) as [r|]; [|by eexists _, _, _].
  unfold bind.
  destruct (save_healthy st (with_user_tokens u r) (tick w) Hh) as (w' & ops & -> & Hlog & Hcache).
  unfold ret. by eexists _, _, _.
Qed.

Lemma cache_sound_same w w' :
  authTestCacheNamespace w' = authTestCacheNamespace w -> cache_sound w -> cache_sound w'.
Proof. unfold cache_sound. by intros ->. Qed.

(** C5: the stored bot installation has a refresh token and
    [performRotation] resolves to nothing for it, to [undefined] or to
    an object without [bot]. When the collaborators answer (the
    namespace, the token endpoint for the user side, the Slack API, the
    cache where one is configured, a readable user payload), the
    callable does not throw: it returns a result whose [botToken] is the
    stored bot token, and between the two lookups nothing is written
    back, the bot installation is not saved again. *)
Theorem toAuthorize_keeps_token_when_rotation_yields_nothing st req w bot nothing :
  healthy (storage w) ->
  read_payload (kv_data (storage w) !! toBotInstallationQuery (clientId st) (query_of req))
  = Ok (Some bot) ->
  truthy (bot_refresh_token bot) = true ->
  performRotation_at (tokenRotator st) (remote_calls w)
    {| target_bot := Some {| access_token := bot_token bot;
                             refresh_token := bot_refresh_token bot;
                             token_expires_at := bot_token_expires_at bot |};
       target_user := None |} = Ok nothing ->
  nothing ≫= refreshed_bot = None ->
  (forall n targets, exists o, performRotation_at (tokenRotator st) n targets = Ok o) ->
  api_answers (slack st) ->
  cache_sound w ->
  (exists u, read_payload (kv_data (storage w)
                             !! toUserInstallationQuery (clientId st) (query_of req)) = Ok u) ->
  exists r w',
    toAuthorize st req w = (Ok r, w')
    /\ botToken r = bot_token bot
    /\ exists later,
         calls_since (storage w) (storage w')
         = KVGet (toBotInstallationQuery (clientId st) (query_of req))
           :: KVGet (toUserInstallationQuery (clientId st) (query_of req)) :: later.
Proof.
  intros Hh Hbot Hrefresh Hnone Hnothing Hrot Hapi Hsound [u Hu].
  unfold toAuthorize, try_catch, authorize_try.
  unfold bind at 1. rewrite findBotInstallation_ok by apply Hh. rewrite Hbot.
  set (w1 := with_storage _ w).
  unfold bind at 1. rewrite (rotate_bot_idle st bot w1 nothing) by done.
  unfold bind at 1.
  set (botClient := {| client_token := Some bot ≫= bot_token;
                       client_logLevel := SLACK_LOGGING_LEVEL (env st) |}).
  destruct (callAuthTest_answers st botClient (Some bot ≫= bot_token) (tick w1) Hapi)
    as (r1 & w2 & -> & Hsound2 & Hs1); [by apply (cache_sound_same w)|].
  unfold w1 in Hs1. cbn in Hs1.
  unfold bind at 1. rewrite findUserInstallation_ok by (rewrite Hs1; apply Hh).
  rewrite Hs1. cbn [kv_data kv_logged]. rewrite Hu.
  set (w3 := with_storage _ w2).
  unfold bind at 1.
  destruct (rotate_user_answers st u w3 Hrot) as (u' & w4 & ops & -> & Hlog & Hcache);
    [exact Hh|].
  assert (Hcalls : calls_since (storage w) (storage w4)
                   = KVGet (toBotInstallationQuery (clientId st) (query_of req))
                     :: KVGet (toUserInstallationQuery (clientId st) (query_of req)) :: ops).
  { unfold calls_since. rewrite Hlog. unfold w3; simpl.
    rewrite <- !app_assoc. by rewrite drop_app_length. }
  unfold bind at 1.
  destruct u' as [u'|].
  - unfold bind at 1.
    destruct (callAuthTest_answers st botClient (user_token u') w4 Hapi)
      as (r2 & w5 & -> & _ & Hs5); [by apply (cache_sound_same w2)|].
    unfold ret. eexists _, _. split; [reflexivity|]. split; [done|].
    exists ops. by rewrite Hs5.
  - unfold ret. eexists _, _. split; [reflexivity|]. split; [done|]. by exists ops.
Qed.

(** ** More on the authorize callable *)

(** The run of the [try] block when nothing is stored. *)
Lemma authorize_try_without_installation st req w :
  healthy (storage w) ->
  truthy (kv_data (storage w) !! toBotInstallationQuery (clientId st) (query_of req)) = false ->
  truthy (kv_data (storage w) !! toUserInstallationQuery (clientId st) (query_of req)) = false ->
  let w1 := tick (with_storage
                    (kv_logged (KVGet (toBotInstallationQuery (clientId st) (query_of req)))
                       (storage w)) w) in
  authorize_try st req (query_of req) w
  = match auth_test_at (slack st) (remote_calls w) None with
    | Ok resp =>
        (Ok {| result_enterpriseId := None; result_teamId := None;
               team := prop_string (rest resp) "team";
               url := prop_string (rest resp) "url";
               botId := prop_string (rest resp) "bot_id";
               botUserId := prop_string (rest resp) "user_id";
               botToken := None;
               botScopes := match Headers_get (headers resp) "x-oauth-scopes" with
                            | Some scopes => split_comma scopes
                            | None => []
                            end;
               result_userId := None; user := None; userToken := None;
               userScopes := None |},
         with_storage
           (kv_logged (KVGet (toUserInstallationQuery (clientId st) (query_of req)))
              (storage w1)) w1)
    | Throw e => (Throw e, w1)
    end.
Proof.
  intros Hh Hb Hu w1. unfold authorize_try.
  unfold bind at 1. rewrite findBotInstallation_ok by apply Hh.
  unfold read_payload at 1. rewrite Hb.
  unfold bind at 1. cbn [rotate_bot ret].
  unfold bind at 1. cbn [mbind option_bind].
  rewrite callAuthTest_uncached by done. cbn [client_token remote_calls with_storage].
  destruct (auth_test_at (slack st) (remote_calls w) None) as [resp|e]; [|done].
  unfold bind at 1. rewrite findUserInstallation_ok by apply Hh.
  cbn [storage tick with_storage kv_data kv_logged].
  unfold read_payload at 1. rewrite Hu.
  unfold bind at 1. cbn [rotate_user ret].
  unfold bind at 1. cbn [ret]. reflexivity.
Qed.

(** X15: In a namespace that answers and holds nothing (no entry, or
    the empty text) under the bot key and the user key of the request,
    the callable makes one remote call, [auth.test] without a token, and
    writes nothing. When that call answers, the callable returns a
    result without tokens and ids, its bot scopes those of the
    [x-oauth-scopes] header, and has read the bot key and the user key;
    when it fails, as the stock client does on the [not_authed] reply of
    the real endpoint, the callable throws the [AuthorizeError] for that
    failure and has read the bot key only. *)
Theorem toAuthorize_without_installation st req w :
  healthy (storage w) ->
  truthy (kv_data (storage w) !! toBotInstallationQuery (clientId st) (query_of req)) = false ->
  truthy (kv_data (storage w) !! toUserInstallationQuery (clientId st) (query_of req)) = false ->
  exists w',
    remote_calls w' = S (remote_calls w)
    /\ authTestCacheNamespace w' = authTestCacheNamespace w
    /\ kv_data (storage w') = kv_data (storage w)
    /\ match auth_test_at (slack st) (remote_calls w) None with
       | Ok resp =>
           toAuthorize st req w
           = (Ok {| result_enterpriseId := None; result_teamId := None;
                    team := prop_string (rest resp) "team";
                    url := prop_string (rest resp) "url";
                    botId := prop_string (rest resp) "bot_id";
                    botUserId := prop_string (rest resp) "user_id";
                    botToken := None;
                    botScopes := match Headers_get (headers resp) "x-oauth-scopes" with
                                 | Some scopes => split_comma scopes
                                 | None => []
                                 end;
                    result_userId := None; user := None; userToken := None;
                    userScopes := None |},
              w')
           /\ calls_since (storage w) (storage w')
              = [KVGet (toBotInstallationQuery (clientId st) (query_of req));
                 KVGet (toUserInstallationQuery (clientId st) (query_of req))]
       | Throw e =>
           toAuthorize st req w
           = (Throw (AuthorizeError (authorize_message e (query_of req))), w')
           /\ calls_since (storage w) (storage w')
              = [KVGet (toBotInstallationQuery (clientId st) (query_of req))]
       end.
Proof.
  intros Hh Hb Hu. rewrite toAuthorize_run.
  rewrite authorize_try_without_installation by done.
  destruct (auth_test_at (slack st) (remote_calls w) None) as [resp|e].
  - eexists. split; [|split; [|split; [|split; [reflexivity|]]]]; [done..|].
    apply calls_since_app. cbn. by rewrite <- app_assoc.
  - eexists. split; [|split; [|split; [|split; [reflexivity|]]]]; [done..|].
    by apply calls_since_app.
Qed.

(** X16: A rotation that is rejected aborts the authorization: the callable
    throws the [AuthorizeError] for that rejection before any
    [auth.test] call, and nothing is written. *)
Theorem toAuthorize_rejected_rotation_aborts st req w bot e :
  next_call_answers (storage w)
    (KVGet (toBotInstallationQuery (clientId st) (query_of req))) ->
  read_payload (kv_data (storage w) !! toBotInstallationQuery (clientId st) (query_of req))
  = Ok (Some bot) ->
  truthy (bot_refresh_token bot) = true ->
  performRotation_at (tokenRotator st) (remote_calls w)
    {| target_bot := Some {| access_token := bot_token bot;
                             refresh_token := bot_refresh_token bot;
                             token_expires_at := bot_token_expires_at bot |};
       target_user := None |} = Throw e ->
  toAuthorize st req w
  = (Throw (AuthorizeError (authorize_message e (query_of req))),
     tick (with_storage
             (kv_logged (KVGet (toBotInstallationQuery (clientId st) (query_of req)))
                (storage w)) w)).
Proof.
  intros Hget Hbot Hrefresh Hrot. rewrite toAuthorize_run.
  by rewrite (authorize_try_rotation_error st req w bot e).
Qed.

Lemma rotate_user_unrotated st found w :
  (forall n u, exists o,
      performRotation_at (tokenRotator st) n {| target_bot := None; target_user := Some u |}
      = Ok o /\ o ≫= refreshed_user = None) ->
  exists w', rotate_user st found w = (Ok found, w')
    /\ storage w' = storage w
    /\ authTestCacheNamespace w' = authTestCacheNamespace w.
Proof.
  intros H. unfold rotate_user. destruct found as [u|]; [|by eexists].
  destruct (truthy _); [|by eexists].
  unfold bind, performRotation.
  destruct (H (remote_calls w) {| access_token := user_token u;
                                   refresh_token := user_refresh_token u;
                                   token_expires_at := user_token_expires_at u |})
    as (o & -> & ->).
  by eexists.
Qed.

Lemma with_bot_tokens_other bot r :
  other_properties (with_bot_tokens bot r) = other_properties bot.
Proof. reflexivity. Qed.


Lemma rotate_bot_unrotated st bot w :
  (forall n targets, performRotation_at (tokenRotator st) n targets = Ok None) ->
  exists w', rotate_bot st (Some bot) w = (Ok (Some bot), w') /\ storage w' = storage w.
Proof.
  intros H. unfold rotate_bot. destruct (truthy _); [|by eexists].
  unfold bind, performRotation. rewrite H. by eexists.
Qed.

(** X18: With the cache disabled and no rotation, the callable returns the
    stored tokens and scopes with the identity [auth.test] reports. The
    scopes of the bot are those of the [x-oauth-scopes] header when the
    response has one, the stored ones otherwise. Both [auth.test] calls
    go through the client built with the bot token, so the [user] of the
    result is the one reported for the bot token. *)
Theorem toAuthorize_result_without_rotation st req w bot usr answer :
  authTestCacheEnabled st = false ->
  healthy (storage w) ->
  read_payload (kv_data (storage w) !! toBotInstallationQuery (clientId st) (query_of req))
  = Ok (Some bot) ->
  read_payload (kv_data (storage w) !! toUserInstallationQuery (clientId st) (query_of req))
  = Ok (Some usr) ->
  (forall n targets, performRotation_at (tokenRotator st) n targets = Ok None) ->
  (forall n token, auth_test_at (slack st) n token = Ok (answer token)) ->
  (toAuthorize st req w).1
  = Ok {| result_enterpriseId := enterprise_id bot;
          result_teamId := team_id bot;
          team := prop_string (rest (answer (bot_token bot))) "team";
          url := prop_string (rest (answer (bot_token bot))) "url";
          botId := prop_string (rest (answer (bot_token bot))) "bot_id";
          botUserId := prop_string (rest (answer (bot_token bot))) "user_id";
          botToken := bot_token bot;
          botScopes :=
            match Headers_get (headers (answer (bot_token bot))) "x-oauth-scopes" with
            | Some scopes => split_comma scopes
            | None => default [] (bot_scopes bot)
            end;
          result_userId := user_id usr;
          user := prop_string (rest (answer (bot_token bot))) "user";
          userToken := user_token usr;
          userScopes := user_scopes usr |}.
Proof.
  intros Hcache Hh Hbot Husr Hrot Hapi.
  unfold toAuthorize, try_catch, authorize_try.
  unfold bind at 1. rewrite findBotInstallation_ok by apply Hh. rewrite Hbot.
  set (w1 := with_storage _ w).
  unfold bind at 1.
  destruct (rotate_bot_unrotated st bot w1 Hrot) as (w2 & -> & Hs2).
  unfold bind at 1.
  rewrite callAuthTest_uncached by (rewrite Hcache; apply andb_false_r).
  rewrite Hapi. cbn [client_token mbind option_bind].
  unfold bind at 1. rewrite findUserInstallation_ok by (cbn [storage tick]; rewrite Hs2; apply Hh).
  cbn [storage tick]. rewrite Hs2. cbn [with_storage storage kv_data kv_logged] .
  unfold w1 at 1. cbn [with_storage storage kv_data kv_logged]. rewrite Husr.
  set (w3 := with_storage _ _).
  unfold bind at 1.
  destruct (rotate_user_unrotated st (Some usr) w3
              (fun n u => ex_intro _ None (conj (Hrot n _) eq_refl))) as (w4 & -> & Hs4 & _).
  unfold bind at 1. unfold bind at 1.
  rewrite callAuthTest_uncached by (rewrite Hcache; apply andb_false_r).
  rewrite Hapi. cbn [client_token mbind option_bind ret fst].
  reflexivity.
Qed.

(** ** More on serializable responses *)

(** X19: The serializable form has exactly one property per header name, in
    lower case. *)
Theorem serialized_header_names r :
  NoDup (ser_headers (toSerializableSlackAPIResponse r)).*1
  /\ forall k, k ∈ (ser_headers (toSerializableSlackAPIResponse r)).*1
               <-> exists kv, kv ∈ headers r /\ byte_lowercase kv.1 = k.
Proof.
  rewrite ser_headers_by_name, <- list_fmap_compose.
  unfold compose; cbn [fst]. rewrite list_fmap_id.
  split; [apply header_names_NoDup|]. intros k. apply header_names_elem.
Qed.

(** X20: What a lookup gives after the round trip, for every response
    with a header map of the platform: the round trip returns, and a
    lookup gives the last [Set-Cookie] header for that name, and for any
    other name what the original gave without the white space at its
    ends (the constructor strips the space that an empty last value
    leaves behind the comma). *)
Theorem roundtrip_lookup r :
  Headers_valid (headers r) ->
  exists r', roundtrip r = Ok r'
    /\ forall name,
         Headers_get (headers r') name
         = if decide (byte_lowercase name = "set-cookie")
           then last (header_values (headers r) "set-cookie")
           else normalize <$> Headers_get (headers r) name.
Proof.
  intros Hh. rewrite roundtrip_run by done. eexists. split; [reflexivity|].
  intros name. cbn [headers]. unfold Headers_get.
  rewrite header_values_combined by (apply header_names_NoDup || apply header_names_lower).
  set (m := byte_lowercase name).
  destruct (decide (m ∈ header_names (headers r))) as [Hin|Hnin].
  - cbn [join]. unfold entry_values. case_decide as Hm.
    + rewrite Hm in *.
      destruct (last (header_values (headers r) "set-cookie")) as [v|] eqn:Hl.
      * cbn [default]. f_equal. apply normalize_id.
        apply last_Some_elem_of in Hl.
        pose proof (header_values_valid (headers r) "set-cookie" Hh) as Hv.
        rewrite Forall_forall in Hv. by destruct (Hv v Hl).
      * apply last_None in Hl. by apply header_values_nil in Hl.
    + cbn [last default]. destruct (header_values (headers r) m) eqn:Hv; [|done].
      by apply header_values_nil in Hv.
  - apply header_values_nil in Hnin as Hv. case_decide as Hm.
    + rewrite Hm in Hv. by rewrite Hv.
    + by rewrite Hv.
Qed.

(** ** More on the keys *)

Lemma colon_split a : forall a' b b',
  colon_free a = true -> colon_free a' = true ->
  a +:+ String ":" b = a' +:+ String ":" b' -> a = a' /\ b = b'.
Proof.
  induction a as [|c a IH]; intros [|c' a'] b b' Ha Ha'.
  - by intros [= ->].
  - rewrite string_app_cons. intros [= <- _]. by cbn in Ha'.
  - rewrite string_app_cons. intros [= -> _]. by cbn in Ha.
  - rewrite !string_app_cons. intros [= -> E].
    cbn in Ha, Ha'. apply andb_prop in Ha as [_ Ha]. apply andb_prop in Ha' as [_ Ha'].
    destruct (IH a' b b' Ha Ha' E) as [-> ->]. done.
Qed.

(** X21: Two team installations of one client share their bot key only if
    they have the same enterprise segment and the same team, provided
    the enterprise identifiers contain no colon. *)
Theorem bot_key_injective C i i' T T' :
  team_id i = Some T -> T ≠ "" -> truthyb (is_enterprise_install i) = false ->
  team_id i' = Some T' -> T' ≠ "" -> truthyb (is_enterprise_install i') = false ->
  colon_free (nullish_or (enterprise_id i) "_") = true ->
  colon_free (nullish_or (enterprise_id i') "_") = true ->
  toBotInstallationKey C i = toBotInstallationKey C i' ->
  nullish_or (enterprise_id i) "_" = nullish_or (enterprise_id i') "_" /\ T = T'.
Proof.
  intros Ht HT Hie Ht' HT' Hie' He He'. unfold toBotInstallationKey.
  rewrite Ht, Ht', Hie, Hie'. cbn [truthy nullish_or negb].
  destruct (String.eqb_spec T ""); [done|]. destruct (String.eqb_spec T' ""); [done|].
  cbn [negb andb]. intros E.
  apply (inj (String.append C)) in E. rewrite !string_app_cons in E.
  change ("" +:+ ?s) with s in E. injection E as E.
  by apply colon_split in E.
Qed.

(** ** The constructor *)

(** X1: The constructor fails, with a [ConfigError], exactly when the cache
    is enabled without a cache namespace; otherwise the cache is off
    unless enabled, the time to live is ten minutes unless given, and a
    store with the cache enabled has its namespace. *)
Theorem new_KVInstallationStore_outcome env0 rotator api namespace options :
  match new_KVInstallationStore env0 rotator api namespace options with
  | Throw e =>
      e = ConfigError "authTestCacheStorage must be provided when authTestCacheEnabled is true"
      /\ option_authTestCacheEnabled options = Some true
      /\ option_authTestCacheStorage options = None
  | Ok (st, w) =>
      ~ (option_authTestCacheEnabled options = Some true
         /\ option_authTestCacheStorage options = None)
      /\ authTestCacheEnabled st = default false (option_authTestCacheEnabled options)
      /\ authTestCacheExpirationSecs st
         = default 600%Z (option_authTestCacheExpirationSecs options)
      /\ (authTestCacheEnabled st = true -> is_Some (authTestCacheNamespace w))
      /\ storage w = namespace /\ remote_calls w = 0
  end.
Proof.
  unfold new_KVInstallationStore.
  destruct options as [[[]|] secs [c|]]; cbn; repeat split; try done; try (by intros [? ?]); eauto.
Qed.

(** ** Deleting the user installation *)

Lemma bot_query_not_user_query C q : toBotInstallationQuery C q ≠ toUserInstallationQuery C q.
Proof. apply not_eq_sym, user_query_not_bot_query. Qed.

(** X6: For an installation whose [enterprise_id] and [user_id] are not
    the empty string (the one case where the key of [save] and the key
    of the lookups differ) and whose further properties do not reuse the
    name of a typed one, in a namespace that answers: after [save],
    deleting the user installation with the query derived from the
    installation succeeds; the user lookup then finds nothing and the
    bot lookup still finds the installation. *)
Theorem deleteUserInstallation_keeps_bot st i w :
  healthy (storage w) ->
  Forall (fun kv => kv.1 ∉ Installation_names) (other_properties i) ->
  enterprise_id i ≠ Some "" ->
  user_id i ≠ Some "" ->
  exists w1 w2,
    save st i w = (Ok tt, w1)
    /\ deleteUserInstallation st (queryDerivedFrom i) w1 = (Ok tt, w2)
    /\ (findUserInstallation st (queryDerivedFrom i) w2).1 = Ok None
    /\ (findBotInstallation st (queryDerivedFrom i) w2).1 = Ok (Some i).
Proof.
  intros Hh Hother He Hu.
  destruct (key_query_symmetry (clientId st) i He Hu) as [Hb Hk].
  rewrite save_ok by done. eexists _, _. split; [reflexivity|].
  unfold deleteUserInstallation. rewrite storage_delete_ok by apply Hh.
  split; [reflexivity|].
  rewrite findBotInstallation_ok, findUserInstallation_ok by apply Hh.
  cbn [fst storage with_storage kv_data kv_with_data kv_logged]. rewrite <- Hb, <- Hk.
  rewrite lookup_delete_eq. split; [reflexivity|].
  rewrite lookup_delete_ne by apply user_key_not_bot_key.
  rewrite lookup_insert_ne by apply user_key_not_bot_key.
  by rewrite lookup_insert_eq, read_payload_stored.
Qed.

(** ** The properties above on sample data *)

Lemma sample_installation_untyped e t u :
  Forall (fun kv => kv.1 ∉ Installation_names) (other_properties (sample_installation e t u)).
Proof. repeat constructor. apply (bool_decide_unpack _). vm_compute. exact I. Qed.

Lemma save_then_find_witness :
  exists w',
    save (sample_store None false) (sample_installation None (Some "T1") (Some "U1"))
      (sample_world 2 []) = (Ok tt, w')
    /\ (findBotInstallation (sample_store None false)
          (queryDerivedFrom (sample_installation None (Some "T1") (Some "U1"))) w').1
       = Ok (Some (sample_installation None (Some "T1") (Some "U1")))
    /\ (findUserInstallation (sample_store None false)
          (queryDerivedFrom (sample_installation None (Some "T1") (Some "U1"))) w').1
       = Ok (Some (sample_installation None (Some "T1") (Some "U1"))).
Proof.
  apply (save_then_find (sample_store None false)
           (sample_installation None (Some "T1") (Some "U1")) (sample_world 2 [])).
  - intros n op. reflexivity.
  - apply sample_installation_untyped.
  - discriminate.
  - discriminate.
Defined.

Lemma save_second_put_rejected_witness :
  exists w',
    save (sample_store None false) org_installation second_call_fails_world
    = (Throw (ExternalError "write failed"), w')
    /\ kv_data (storage w') !! toBotInstallationKey "C" org_installation
       = Some (stored org_installation)
    /\ kv_data (storage w') !! toUserInstallationKey "C" org_installation
       = kv_data (storage second_call_fails_world) !! toUserInstallationKey "C" org_installation.
Proof.
  apply (save_second_put_rejected (sample_store None false) org_installation
           second_call_fails_world (ExternalError "write failed")); reflexivity.
Defined.


Lemma deleteBotInstallation_keeps_user_witness :
  exists w1 w2,
    save (sample_store None false) (sample_installation None (Some "T1") (Some "U1"))
      (sample_world 2 []) = (Ok tt, w1)
    /\ deleteBotInstallation (sample_store None false)
         (queryDerivedFrom (sample_installation None (Some "T1") (Some "U1"))) w1 = (Ok tt, w2)
    /\ (findBotInstallation (sample_store None false)
          (queryDerivedFrom (sample_installation None (Some "T1") (Some "U1"))) w2).1 = Ok None
    /\ (findUserInstallation (sample_store None false)
          (queryDerivedFrom (sample_installation None (Some "T1") (Some "U1"))) w2).1
       = Ok (Some (sample_installation None (Some "T1") (Some "U1"))).
Proof.
  apply (deleteBotInstallation_keeps_user (sample_store None false)
           (sample_installation None (Some "T1") (Some "U1")) (sample_world 2 [])).
  - intros n op. reflexivity.
  - apply sample_installation_untyped.
  - discriminate.
  - discriminate.
Defined.

Lemma deleteUserInstallation_keeps_bot_witness :
  exists w1 w2,
    save (sample_store None false) (sample_installation None (Some "T1") (Some "U1"))
      (sample_world 2 []) = (Ok tt, w1)
    /\ deleteUserInstallation (sample_store None false)
         (queryDerivedFrom (sample_installation None (Some "T1") (Some "U1"))) w1 = (Ok tt, w2)
    /\ (findUserInstallation (sample_store None false)
          (queryDerivedFrom (sample_installation None (Some "T1") (Some "U1"))) w2).1 = Ok None
    /\ (findBotInstallation (sample_store None false)
          (queryDerivedFrom (sample_installation None (Some "T1") (Some "U1"))) w2).1
       = Ok (Some (sample_installation None (Some "T1") (Some "U1"))).
Proof.
  apply (deleteUserInstallation_keeps_bot (sample_store None false)
           (sample_installation None (Some "T1") (Some "U1")) (sample_world 2 [])).
  - intros n op. reflexivity.
  - apply sample_installation_untyped.
  - discriminate.
  - discriminate.
Defined.

Lemma save_then_deleteAll_witness :
  exists w2,
    deleteAll (sample_store None false) 2
      (queryDerivedFrom (sample_installation None (Some "T1") (Some "U1")))
      (save (sample_store None false) (sample_installation None (Some "T1") (Some "U1"))
         (sample_world 2 [("C/_:T2", "other")])).2 = Some (Ok tt, w2)
    /\ kv_data (storage w2)
         !! toBotInstallationKey "C" (sample_installation None (Some "T1") (Some "U1")) = None
    /\ kv_data (storage w2)
         !! toUserInstallationKey "C" (sample_installation None (Some "T1") (Some "U1")) = None
    /\ (findBotInstallation (sample_store None false)
          (queryDerivedFrom (sample_installation None (Some "T1") (Some "U1"))) w2).1 = Ok None
    /\ (findUserInstallation (sample_store None false)
          (queryDerivedFrom (sample_installation None (Some "T1") (Some "U1"))) w2).1 = Ok None.
Proof.
  apply (save_then_deleteAll (sample_store None false)
           (sample_installation None (Some "T1") (Some "U1")) "T1"
           (sample_world 2 [("C/_:T2", "other")]) 2).
  - reflexivity.
  - discriminate.
  - reflexivity.
  - discriminate.
  - intros n op. reflexivity.
  - simpl. lia.
  - vm_compute. lia.
Defined.

Lemma deleteAll_enterprise_deletes_all_teams_witness :
  exists w',
    deleteAll (sample_store None false) 4
      {| enterpriseId := Some "E1"; teamId := None; userId := None;
         isEnterpriseInstall := None |} enterprise_world = Some (Ok tt, w')
    /\ forall k, kv_data (storage w') !! k
                 = if String.prefix "C/E1:" k then None
                   else kv_data (storage enterprise_world) !! k.
Proof.
  destruct (deleteAll_enterprise_deletes_all_teams (sample_store None false) "E1"
              {| enterpriseId := Some "E1"; teamId := None; userId := None;
                 isEnterpriseInstall := None |} enterprise_world 4)
    as (w' & lists & E & _ & _ & _ & Hdata).
  - reflexivity.
  - discriminate.
  - reflexivity.
  - intros n op. reflexivity.
  - simpl. lia.
  - vm_compute. lia.
  - exists w'. split; [exact E | exact Hdata].
Defined.

Lemma deleteAll_keeps_enterprise_install_witness :
  exists w2 lists,
    (forall flag,
        deleteAll (sample_store None false) 0
          {| enterpriseId := enterpriseId (queryDerivedFrom org_installation);
             teamId := teamId (queryDerivedFrom org_installation);
             userId := userId (queryDerivedFrom org_installation);
             isEnterpriseInstall := flag |}
          (save (sample_store None false) org_installation (sample_world 2 [])).2
        = Some (Ok tt, w2))
    /\ Forall (is_list_of "C/E1:T1") lists
    /\ calls_since
         (storage (save (sample_store None false) org_installation (sample_world 2 [])).2)
         (storage w2)
       = lists ++ (KVDelete <$> kv_keys
                     (kv_data (storage (save (sample_store None false) org_installation
                                          (sample_world 2 [])).2)) "C/E1:T1")
    /\ kv_data (storage w2) !! toBotInstallationKey "C" org_installation
       = Some (stored org_installation)
    /\ kv_data (storage w2) !! toUserInstallationKey "C" org_installation
       = Some (stored org_installation).
Proof.
  apply (deleteAll_keeps_enterprise_install (sample_store None false) org_installation
           "E1" "T1" (sample_world 2 []) 0).
  - reflexivity.
  - discriminate.
  - reflexivity.
  - discriminate.
  - reflexivity.
  - reflexivity.
  - intros n op. reflexivity.
  - simpl. lia.
  - vm_compute. lia.
Defined.


(** On that namespace the first key is deleted and the second is not. *)
Lemma deleteAll_partial_deletion :
  let w' := (default (Ok tt, flaky_world)
               (deleteAll (sample_store None false) 5 (team_query "T1") flaky_world)).2 in
  kv_data (storage w') !! "C/_:T1" = None
  /\ kv_data (storage w') !! "C/_:T1:U1" = Some "u1"
  /\ kv_log (storage w')
     = [KVList "C/_:T1" None; KVList "C/_:T1" (Some "2"); KVDelete "C/_:T1";
        KVDelete "C/_:T1:U1"].
Proof. vm_compute. done. Qed.

Lemma callAuthTest_hit_makes_no_remote_call_witness :
  exists w' c',
    callAuthTest (sample_store None true) other_client (Some "xoxb-1") cache_hit_world
    = (roundtrip sample_response, w')
    /\ remote_calls w' = remote_calls cache_hit_world
    /\ storage w' = storage cache_hit_world
    /\ authTestCacheNamespace w' = Some c'
    /\ calls_since (namespace_of 2 [("xoxb-1", cached_text)]) c' = [KVGet "xoxb-1"]
    /\ kv_data c' = kv_data (namespace_of 2 [("xoxb-1", cached_text)]).
Proof.
  apply (callAuthTest_hit_makes_no_remote_call (sample_store None true) other_client "xoxb-1"
           (namespace_of 2 [("xoxb-1", cached_text)]) cache_hit_world cached_text
           (Serializable_to_JSON (toSerializableSlackAPIResponse sample_response))).
  - reflexivity.
  - reflexivity.
  - reflexivity.
  - discriminate.
  - reflexivity.
  - vm_compute. discriminate.
  - vm_compute. reflexivity.
Defined.

Lemma callAuthTest_unreadable_entry_throws_witness :
  exists w',
    callAuthTest (sample_store None true) bot_client (Some "xoxb-1") corrupt_cache_world
    = (Throw (SyntaxError "Unexpected token in JSON"), w')
    /\ remote_calls w' = remote_calls corrupt_cache_world.
Proof.
  apply (callAuthTest_unreadable_entry_throws (sample_store None true) bot_client "xoxb-1"
           (namespace_of 2 [("xoxb-1", "<html>")]) corrupt_cache_world "<html>").
  - reflexivity.
  - reflexivity.
  - reflexivity.
  - discriminate.
  - reflexivity.
  - discriminate.
  - vm_compute. reflexivity.
Defined.

Lemma callAuthTest_second_call_is_cached_witness :
  exists w1 w2 c1 c2 text,
    callAuthTest (sample_store None true) bot_client (Some "xoxb-1") (sample_cache_world 0 [])
    = (Ok sample_response, w1)
    /\ callAuthTest (sample_store None true) other_client (Some "xoxb-1") w1
       = (roundtrip sample_response, w2)
    /\ remote_calls w1 = 1
    /\ remote_calls w2 = remote_calls w1
    /\ authTestCacheNamespace w1 = Some c1
    /\ authTestCacheNamespace w2 = Some c2
    /\ calls_since (namespace_of 2 []) c1
       = [KVGet "xoxb-1"; KVPut "xoxb-1" text (Some 600%Z)]
    /\ calls_since c1 c2 = [KVGet "xoxb-1"]
    /\ (Headers_valid (headers sample_response)
        -> exists r', roundtrip sample_response = Ok r').
Proof.
  apply (callAuthTest_second_call_is_cached (sample_store None true) bot_client other_client
           "xoxb-1" (namespace_of 2 []) (sample_cache_world 0 []) sample_response).
  - reflexivity.
  - reflexivity.
  - intros n op. reflexivity.
  - discriminate.
  - reflexivity.
  - reflexivity.
  - reflexivity.
  - reflexivity.
Defined.

Lemma toAuthorize_without_installation_witness :
  exists w',
    remote_calls w' = 1
    /\ authTestCacheNamespace w' = None
    /\ kv_data (storage w') = ∅
    /\ toAuthorize unreachable_store sample_request (sample_world 2 [])
       = (Throw (AuthorizeError
                   (authorize_message (ExternalError "fetch failed") (query_of sample_request))),
          w')
    /\ calls_since (storage (sample_world 2 [])) (storage w') = [KVGet "C/_:T1"].
Proof.
  apply (toAuthorize_without_installation unreachable_store sample_request (sample_world 2 [])).
  - intros n op. reflexivity.
  - reflexivity.
  - reflexivity.
Defined.

Lemma toAuthorize_rejected_rotation_aborts_witness :
  toAuthorize rejecting_store sample_request installed_world
  = (Throw (AuthorizeError
              (authorize_message (ExternalError "invalid_refresh_token")
                 (query_of sample_request))),
     tick (with_storage (kv_logged (KVGet "C/_:T1") (storage installed_world))
             installed_world)).
Proof.
  apply (toAuthorize_rejected_rotation_aborts rejecting_store sample_request installed_world
           (sample_installation None (Some "T1") (Some "U1"))
           (ExternalError "invalid_refresh_token")).
  - reflexivity.
  - vm_compute. reflexivity.
  - reflexivity.
  - reflexivity.
Defined.


Lemma toAuthorize_result_without_rotation_witness :
  (toAuthorize echo_store sample_request installed_world).1
  = Ok {| result_enterpriseId := None; result_teamId := Some "T1";
          team := None; url := None; botId := None; botUserId := None;
          botToken := Some "xoxb-1"; botScopes := ["commands"];
          result_userId := Some "U1"; user := Some "xoxb-1";
          userToken := Some "xoxp-1"; userScopes := Some ["search:read"] |}.
Proof.
  apply (toAuthorize_result_without_rotation echo_store sample_request installed_world
           (sample_installation None (Some "T1") (Some "U1"))
           (sample_installation None (Some "T1") (Some "U1")) echo_response).
  - reflexivity.
  - intros n op. reflexivity.
  - vm_compute. reflexivity.
  - vm_compute. reflexivity.
  - intros n targets. reflexivity.
  - intros n token. reflexivity.
Defined.

Lemma bot_key_injective_witness :
  nullish_or (Some "E1") "_" = nullish_or (Some "E1") "_" /\ "T1" = "T1".
Proof.
  apply (bot_key_injective "C" (sample_installation (Some "E1") (Some "T1") (Some "U1"))
           (sample_installation (Some "E1") (Some "T1") (Some "U2")) "T1" "T1");
    (reflexivity || discriminate).
Defined.

Lemma toAuthorize_keeps_token_when_rotation_yields_nothing_witness :
  exists r w',
    toAuthorize cached_store sample_request fractional_world = (Ok r, w')
    /\ botToken r = Some "xoxb-1"
    /\ exists later,
         calls_since (storage fractional_world) (storage w')
         = KVGet "C/_:T1" :: KVGet "C/_:T1:U1" :: later.
Proof.
  apply (toAuthorize_keeps_token_when_rotation_yields_nothing cached_store sample_request
           fractional_world fractional_installation
           (Some {| refreshed_bot := None; refreshed_user := None |})).
  - intros n op. reflexivity.
  - vm_compute. reflexivity.
  - reflexivity.
  - reflexivity.
  - reflexivity.
  - intros n targets. eexists. reflexivity.
  - intros n token. eexists. split; reflexivity.
  - intros c Hc. injection Hc as <-. split; [intros n op; reflexivity|].
    intros k text Hk. discriminate Hk.
  - eexists. vm_compute. reflexivity.
Defined.

(** The stored text of that installation holds the expiry as the
    fraction it is, and the reader takes it. *)
Lemma fractional_installation_stored :
  JSON.stringify (JNum (Number_of_decimal 17000000005 (-1))) = "1700000000.5"
  /\ read_payload (Some (stored fractional_installation)) = Ok (Some fractional_installation).
Proof. split; vm_compute; reflexivity. Qed.

Lemma toAuthorize_throws_only_AuthorizeError_witness :
  rejected_with (toAuthorize (sample_store None false) sample_request unavailable_world).1
    (ExternalError "KV unavailable") (query_of sample_request)
  /\ rejected_with
       (toAuthorize (sample_store None false) sample_request
          (sample_world 2 [("C/_:T1", "{")])).1
       (SyntaxError "Unexpected token in JSON") (query_of sample_request)
  /\ rejected_with (toAuthorize rejecting_store sample_request installed_world).1
       (ExternalError "invalid_refresh_token") (query_of sample_request)
  /\ rejected_with (toAuthorize unreachable_store sample_request (sample_world 2 [])).1
       (ExternalError "fetch failed") (query_of sample_request).
Proof.
  split; [|split; [|split]].
  - apply (proj1 (proj2 (toAuthorize_throws_only_AuthorizeError
                           (sample_store None false) sample_request unavailable_world))).
    reflexivity.
  - apply (proj1 (proj2 (proj2 (toAuthorize_throws_only_AuthorizeError
                                  (sample_store None false) sample_request
                                  (sample_world 2 [("C/_:T1", "{")])))) "{").
    + reflexivity.
    + reflexivity.
    + discriminate.
    + vm_compute. reflexivity.
  - apply (proj1 (proj2 (proj2 (proj2 (toAuthorize_throws_only_AuthorizeError
                                         rejecting_store sample_request installed_world))))
             (sample_installation None (Some "T1") (Some "U1"))).
    + reflexivity.
    + vm_compute. reflexivity.
    + reflexivity.
    + reflexivity.
  - apply (proj2 (proj2 (proj2 (proj2 (toAuthorize_throws_only_AuthorizeError
                                         unreachable_store sample_request
                                         (sample_world 2 []))))) None).
    + reflexivity.
    + reflexivity.
    + reflexivity.
    + reflexivity.
    + reflexivity.
Defined.

Lemma roundtrip_lookup_witness :
  exists r',
    roundtrip trailing_empty = Ok r'
    /\ forall name,
         Headers_get (headers r') name
         = if decide (byte_lowercase name = "set-cookie")
           then last (header_values (headers trailing_empty) "set-cookie")
           else normalize <$> Headers_get (headers trailing_empty) name.
Proof. apply (roundtrip_lookup trailing_empty). vm_compute. reflexivity. Defined.

(** A header that occurs twice, the second time empty: the original
    lookup ends in a space, which the constructor strips on the way
    back. *)
Lemma roundtrip_strips_trailing_space :
  Headers_get (headers trailing_empty) "k" = Some "x, "
  /\ exists r', roundtrip trailing_empty = Ok r' /\ Headers_get (headers r') "k" = Some "x,".
Proof. split; [reflexivity|]. eexists. split; vm_compute; reflexivity. Qed.

(** A cache entry that is JSON but no response: the constructor of the
    header map rejects the name, the hit throws a [TypeError] and makes
    no remote call. *)
Lemma callAuthTest_invalid_entry_throws :
  exists e w',
    callAuthTest (sample_store None true) other_client (Some "xoxb-1")
      (sample_cache_world 0 [("xoxb-1", invalid_entry_text)])
    = (Throw (TypeError e), w')
    /\ remote_calls w' = 0.
Proof. eexists _, _. split; vm_compute; reflexivity. Qed.
